(** * Asynchronous successive halving (ASHA) searcher

    A shallow embedding of [master/pkg/searcher/asha.go] and the properties
    of its rung bookkeeping and of the operation stream it emits.

    Modelling conventions.
    - Go [int] values that the code only moves by one (counters) are [Z]
      with the 64-bit wrap-around written out ([int_wrap]); lengths of
      slices and indices into them are [nat].
    - The source is embedded twice.  In the first embedding Go [float64]
      values (metrics, the divisor) are exact rationals [Q]: the order,
      negation, division and truncation of the finite floats, without
      rounding, infinities or NaN.  It carries the properties of the
      bookkeeping, which do not depend on how a quotient is rounded; where
      a statement does depend on it, it is made for the configurations on
      which float64 arithmetic is exact ([exactArithmetic]).  The second
      embedding, module [F64], is the same code on IEEE 754 binary64
      numbers: it carries what the code does with rounded quotients,
      infinities and NaN.
    - [[]*rung] is a list updated by index; a Go index out of range, and a
      [make] with a negative capacity, are runtime panics: the function
      returns [None].
    - The two Go maps are [gmap]s; reading an absent key gives the zero
      value, as in Go. *)

From Stdlib Require Import ZArith QArith Qround Qpower Qfield Lia List Bool SpecFloat.
From stdpp Require Import base option list gmap strings fin_maps.

Local Open Scope Z_scope.

(** ** Numbers *)

Module GoNum.

(** Go's [int] on the 64-bit targets the master is built for. *)
Definition int_wrap (z : Z) : Z := (z + 2 ^ 63) mod 2 ^ 64 - 2 ^ 63.

Definition int_incr (z : Z) : Z := int_wrap (z + 1).
Definition int_decr (z : Z) : Z := int_wrap (z - 1).

(** [float64(n)] for an [int] n. *)
Definition float64_of_int (n : Z) : Q := inject_Z n.

(** [int(x)] for a [float64] x: truncation toward zero. *)
Definition int_of_float64 (x : Q) : Z := Z.quot (Qnum x) (Z.pos (Qden x)).

(** [math.Pow(x, float64(k))] for an [int] k. *)
Definition math_Pow (x : Q) (k : Z) : Q := Qpower x k.

(** [math.MaxFloat64], the largest finite float64: (2^53 - 1) * 2^971. *)
Definition math_MaxFloat64 : Q := inject_Z ((2 ^ 53 - 1) * 2 ^ 971).

(** The Go comparison [x > y] on float64. *)
Definition float64_gt (x y : Q) : bool := negb (Qle_bool x y).

(** [sort.Search(n, f)] of Go's standard library: binary search for the
    least index in [0, n) at which [f] holds, [n] when there is none.
    [f] is only called on indices below [n].  The loop runs while
    [i < j]; [j - i] shrinks at every turn, so [n] turns are enough. *)
Fixpoint search_loop (turns : nat) (f : nat -> bool) (i j : nat) : nat :=
  match turns with
  | O => i
  | S turns' =>
      if (i <? j)%nat then
        let h := ((i + j) / 2)%nat in
        if negb (f h) then search_loop turns' f (h + 1)%nat j
        else search_loop turns' f i h
      else i
  end.

Definition sort_Search (n : nat) (f : nat -> bool) : nat :=
  search_loop n f 0%nat n.

End GoNum.
Export GoNum.

(** ** Data model *)

(** [RequestID]: trial ids, drawn from a counter (see [NewCreate]). *)
Abbreviation RequestID := nat (only parsing).

Record trialMetric := mkTrialMetric {
  requestID : RequestID;
  metric : Q;
  promoted : bool;
  closed : bool
}.

Record rung := mkRung {
  stepsNeeded : Z;
  outstandingTrials : Z;
  metrics : list trialMetric
}.

Record AsyncHalvingConfig := mkConfig {
  Metric : string;
  SmallerIsBetter : bool;
  TargetTrialSteps : Z;
  MaxTrials : Z;
  Divisor : Q;
  NumRungs : Z;
  MaxConcurrentTrials : Z
}.

Record asyncHalvingSearch := mkSearch {
  config : AsyncHalvingConfig;
  rungs : list rung;
  trialRungs : gmap nat nat;
  earlyExitTrials : gmap nat bool;
  maxTrials : Z;
  trialsCompleted : Z
}.

Definition ashaExitedMetricValue : Q := math_MaxFloat64.

(** Field updates, one per field the code assigns. *)
Definition set_metrics (r : rung) (ms : list trialMetric) : rung :=
  mkRung (stepsNeeded r) (outstandingTrials r) ms.

Definition set_outstanding (r : rung) (n : Z) : rung :=
  mkRung (stepsNeeded r) n (metrics r).

Definition set_promoted (t : trialMetric) (b : bool) : trialMetric :=
  mkTrialMetric (requestID t) (metric t) b (closed t).

Definition set_closed (t : trialMetric) (b : bool) : trialMetric :=
  mkTrialMetric (requestID t) (metric t) (promoted t) b.

Definition set_rungs (s : asyncHalvingSearch) (rs : list rung) : asyncHalvingSearch :=
  mkSearch (config s) rs (trialRungs s) (earlyExitTrials s) (maxTrials s)
    (trialsCompleted s).

Definition set_trialRungs (s : asyncHalvingSearch) (m : gmap nat nat) : asyncHalvingSearch :=
  mkSearch (config s) (rungs s) m (earlyExitTrials s) (maxTrials s)
    (trialsCompleted s).

Definition set_earlyExitTrials (s : asyncHalvingSearch) (m : gmap nat bool) : asyncHalvingSearch :=
  mkSearch (config s) (rungs s) (trialRungs s) m (maxTrials s)
    (trialsCompleted s).

Definition set_trialsCompleted (s : asyncHalvingSearch) (n : Z) : asyncHalvingSearch :=
  mkSearch (config s) (rungs s) (trialRungs s) (earlyExitTrials s)
    (maxTrials s) n.

(** [s.earlyExitTrials[id]]: [false] for an absent key. *)
Definition isEarlyExit (s : asyncHalvingSearch) (id : RequestID) : bool :=
  default false (earlyExitTrials s !! id).

(** [s.trialRungs[id]]: [0] for an absent key. *)
Definition rungOf (s : asyncHalvingSearch) (id : RequestID) : nat :=
  default 0%nat (trialRungs s !! id).

(** [len(s.trialRungs)]. *)
Definition allTrialsOf (s : asyncHalvingSearch) : Z :=
  Z.of_nat (size (trialRungs s)).

(** ** The rung: promotionsAsync *)

(** [int(float64(n) / divisor)]. *)
Definition numPromoteOf (n : nat) (divisor : Q) : Z :=
  int_of_float64 (float64_of_int (Z.of_nat n) / divisor).

(** The closure handed to [sort.Search]: [r.metrics[i].metric > metric]. *)
Definition worseThan (ms : list trialMetric) (m : Q) (i : nat) : bool :=
  match ms !! i with
  | Some t => float64_gt (metric t) m
  | None => false
  end.

(** [append], [copy] and the assignment at [insertIndex]. *)
Definition insertAt (ms : list trialMetric) (i : nat) (t : trialMetric) : list trialMetric :=
  take i ms ++ t :: drop i ms.

(** [r.metrics[k]] for an [int] k; [None] is the index-out-of-range panic. *)
Definition metricAt (ms : list trialMetric) (k : Z) : option trialMetric :=
  if k <? 0 then None else ms !! Z.to_nat k.

Definition promotionsAsync (r : rung) (id : RequestID) (m : Q) (divisor : Q)
  : option (list RequestID * rung) :=
  let oldNumPromote := numPromoteOf (length (metrics r)) divisor in
  let numPromote := numPromoteOf (length (metrics r) + 1) divisor in
  let insertIndex := sort_Search (length (metrics r)) (worseThan (metrics r) m) in
  let promoteNow := Z.of_nat insertIndex <? numPromote in
  let ms := insertAt (metrics r) insertIndex (mkTrialMetric id m promoteNow false) in
  if promoteNow then Some ([id], set_metrics r ms)
  else if negb (numPromote =? oldNumPromote) then
    match metricAt ms oldNumPromote with
    | None => None
    | Some t =>
        if negb (promoted t) then
          Some ([requestID t],
                set_metrics r (<[Z.to_nat oldNumPromote := set_promoted t true]> ms))
        else Some ([], set_metrics r ms)
    end
  else Some ([], set_metrics r ms).

(** ** Operations, workloads and the sampling context *)

Inductive Operation :=
  | Create (id : RequestID) (hparams : nat)
  | Train (id : RequestID) (from_length to_length : Z)
  | Validate (id : RequestID) (at_length : Z)
  | Close (id : RequestID).

Inductive WorkloadKind := RunStep | ComputeValidationMetrics | CheckpointModel.

Record Workload := mkWorkload {
  Kind : WorkloadKind;
  ExperimentID : Z;
  TrialID : Z;
  StepID : Z
}.

(** Modelled from the spec: the random source [ctx.rand] behind [NewCreate]
    and [sampleAll] (both absent from the sources at hand).  Trial ids are
    assigned from a monotonic counter, and the sampler is a black box whose
    sample is named by the state of the source it was drawn at. *)
Record context := mkContext { rand : nat }.

(** Modelled from the spec: [sampleAll(ctx.hparams, ctx.rand)]. *)
Definition sampleAll (ctx : context) : nat := rand ctx.

(** Modelled from the spec: [NewCreate], a [Create] with a fresh trial id. *)
Definition NewCreate (ctx : context) (sample : nat) : RequestID * Operation * context :=
  (rand ctx, Create (rand ctx) sample, mkContext (S (rand ctx))).

(** Modelled from the spec: [NewClose]. *)
Definition NewClose (id : RequestID) : Operation := Close id.

(** Modelled from the spec: [trainAndValidate], a [Train] from the length
    already trained to the next one, then a [Validate] there. *)
Definition trainAndValidate (id : RequestID) (prev next : Z) : list Operation :=
  [Train id prev next; Validate id next].

Inductive error := MissingMetric (name : string).

(** Modelled from the spec: [ValidationMetrics.Metric], the scalar at a key,
    an error when the key is absent. *)
Definition metricOf (v : gmap string Q) (name : string) : Q + error :=
  match v !! name with
  | Some x => inl x
  | None => inr (MissingMetric name)
  end.

(** What a public call hands back next to the mutated searcher. *)
Inductive reply :=
  | Ops (ops : list Operation)
  | Fail (e : error).

(** ** Construction *)

(** The body of the loop of [newAsyncHalvingSearch] at index [id]. *)
Definition rungAt (cfg : AsyncHalvingConfig) (id : Z) : rung :=
  let downsamplingRate := math_Pow (Divisor cfg) (NumRungs cfg - id - 1) in
  let stepsNeeded :=
    Z.max (int_of_float64 (float64_of_int (TargetTrialSteps cfg) / downsamplingRate)) 1 in
  mkRung stepsNeeded 0 [].

(** [None]: [make] panics on a negative capacity. *)
Definition newAsyncHalvingSearch (cfg : AsyncHalvingConfig) : option asyncHalvingSearch :=
  if NumRungs cfg <? 0 then None
  else
    Some (mkSearch cfg
            (map (fun id => rungAt cfg (Z.of_nat id)) (seq 0 (Z.to_nat (NumRungs cfg))))
            ∅ ∅ (MaxTrials cfg) 0).

(** ** The bracket *)

(** The four lines shared by [initialOperations] and [promote]: a [Create],
    its bottom-rung workloads, and the registration at rung 0. *)
Definition createTrial (ctx : context) (s : asyncHalvingSearch)
  : option (list Operation * asyncHalvingSearch * context) :=
  let '(id, create, ctx') := NewCreate ctx (sampleAll ctx) in
  match rungs s !! 0%nat with
  | None => None
  | Some r0 =>
      let ops := create :: trainAndValidate id 0 (stepsNeeded r0) in
      let rs := <[0%nat := set_outstanding r0 (int_incr (outstandingTrials r0))]> (rungs s) in
      Some (ops, set_trialRungs (set_rungs s rs) (<[id := 0%nat]> (trialRungs s)), ctx')
  end.

Definition initialConcurrency (cfg : AsyncHalvingConfig) : Z :=
  if MaxConcurrentTrials cfg >? 0 then Z.min (MaxConcurrentTrials cfg) (MaxTrials cfg)
  else
    Z.max (Z.min (int_of_float64 (math_Pow (Divisor cfg) (NumRungs cfg - 1)))
                 (MaxTrials cfg)) 1.

Fixpoint createTrials (n : nat) (ctx : context) (s : asyncHalvingSearch)
  : option (list Operation * asyncHalvingSearch * context) :=
  match n with
  | O => Some ([], s, ctx)
  | S n' =>
      match createTrial ctx s with
      | None => None
      | Some (ops1, s1, ctx1) =>
          match createTrials n' ctx1 s1 with
          | None => None
          | Some (ops2, s2, ctx2) => Some (ops1 ++ ops2, s2, ctx2)
          end
      end
  end.

Definition initialOperations (ctx : context) (s : asyncHalvingSearch)
  : option (reply * asyncHalvingSearch * context) :=
  match createTrials (Z.to_nat (initialConcurrency (config s))) ctx s with
  | None => None
  | Some (ops, s', ctx') => Some (Ops ops, s', ctx')
  end.

Definition trainCompleted (ctx : context) (s : asyncHalvingSearch)
  (id : RequestID) (message : Workload)
  : option (reply * asyncHalvingSearch * context) :=
  Some (Ops [], s, ctx).

(** The inner loop of [closeOutRungs] over one rung's metrics, threading
    [s.trialsCompleted]. *)
Fixpoint closeOutMetrics (early : gmap nat bool) (ms : list trialMetric) (completed : Z)
  : list Operation * list trialMetric * Z :=
  match ms with
  | [] => ([], [], completed)
  | t :: rest =>
      if negb (promoted t) && negb (closed t) then
        let ops1 :=
          (if negb (default false (early !! requestID t))
           then [NewClose (requestID t)] else [])
          ++ [NewClose (requestID t)] in
        let '(ops2, rest', c) := closeOutMetrics early rest (int_incr completed) in
        (ops1 ++ ops2, set_closed t true :: rest', c)
      else
        let '(ops2, rest', c) := closeOutMetrics early rest completed in
        (ops2, t :: rest', c)
  end.

(** The outer loop, with its [break] at the first rung that still has
    outstanding trials. *)
Fixpoint closeOutLoop (early : gmap nat bool) (rs : list rung) (completed : Z)
  : list Operation * list rung * Z :=
  match rs with
  | [] => ([], [], completed)
  | r :: rest =>
      if outstandingTrials r >? 0 then ([], r :: rest, completed)
      else
        let '(ops1, ms, c1) := closeOutMetrics early (metrics r) completed in
        let '(ops2, rest', c2) := closeOutLoop early rest c1 in
        (ops1 ++ ops2, set_metrics r ms :: rest', c2)
  end.

Definition closeOutRungs (s : asyncHalvingSearch) : list Operation * asyncHalvingSearch :=
  let '(ops, rs, c) := closeOutLoop (earlyExitTrials s) (rungs s) (trialsCompleted s) in
  (ops, set_trialsCompleted (set_rungs s rs) c).

(** Lines 188-202 of [promote]: refill under the trial cap, then drain. *)
Definition promoteTail (ctx : context) (s : asyncHalvingSearch)
  (ops : list Operation) (addedTrainWorkload : bool)
  : option (list Operation * asyncHalvingSearch * context) :=
  let allTrials := allTrialsOf s in
  match
    (if negb addedTrainWorkload && (allTrials <? maxTrials s) then
       match createTrial ctx s with
       | None => None
       | Some (cops, s1, ctx1) => Some (ops ++ cops, s1, ctx1)
       end
     else Some (ops, s, ctx))
  with
  | None => None
  | Some (ops1, s1, ctx1) =>
      if allTrials =? maxTrials s1 then
        let '(cops, s2) := closeOutRungs s1 in Some (ops1 ++ cops, s2, ctx1)
      else Some (ops1, s1, ctx1)
  end.

(** The [for ... range] over the promotions of [promote]; [rec] is the
    recursive call, which leaves the loop and the function. *)
Fixpoint promoteLoop
  (rec : context -> asyncHalvingSearch -> RequestID -> Workload -> Q ->
         option (list Operation * asyncHalvingSearch * context))
  (ctx : context) (message : Workload) (rungIndex : nat)
  (promotions : list RequestID) (s : asyncHalvingSearch)
  (ops : list Operation) (addedTrainWorkload : bool)
  : option (list Operation * asyncHalvingSearch * context) :=
  match promotions with
  | [] => promoteTail ctx s ops addedTrainWorkload
  | promotionID :: rest =>
      let s1 := set_trialRungs s (<[promotionID := S rungIndex]> (trialRungs s)) in
      match rungs s1 !! rungIndex, rungs s1 !! S rungIndex with
      | Some r, Some nextRung =>
          let nextRung' := set_outstanding nextRung (int_incr (outstandingTrials nextRung)) in
          let s2 := set_rungs s1 (<[S rungIndex := nextRung']> (rungs s1)) in
          if negb (isEarlyExit s2 promotionID) then
            promoteLoop rec ctx message rungIndex rest s2
              (ops ++ trainAndValidate promotionID (stepsNeeded r) (stepsNeeded nextRung'))
              true
          else
            let wkld :=
              mkWorkload ComputeValidationMetrics (ExperimentID message)
                (TrialID message) (stepsNeeded nextRung') in
            rec ctx s2 promotionID wkld ashaExitedMetricValue
      | _, _ => None
      end
  end.

(** [promote].  The recursion climbs one rung per call, so the number of
    rungs bounds its depth; [None] is a runtime panic (or no turns left). *)
Fixpoint promote (turns : nat) (ctx : context) (s : asyncHalvingSearch)
  (id : RequestID) (message : Workload) (m : Q)
  : option (list Operation * asyncHalvingSearch * context) :=
  match turns with
  | O => None
  | S turns' =>
      let rungIndex := rungOf s id in
      match rungs s !! rungIndex with
      | None => None
      | Some r =>
          let r1 := set_outstanding r (int_decr (outstandingTrials r)) in
          let s1 := set_rungs s (<[rungIndex := r1]> (rungs s)) in
          if Z.of_nat rungIndex =? NumRungs (config s) - 1 then
            let s2 := set_trialsCompleted s1 (int_incr (trialsCompleted s1)) in
            let ops := if negb (isEarlyExit s2 id) then [NewClose id] else [] in
            promoteTail ctx s2 ops false
          else
            match rungs s1 !! S rungIndex with
            | None => None
            | Some _ =>
                match promotionsAsync r1 id m (Divisor (config s)) with
                | None => None
                | Some (promotions, r2) =>
                    let s2 := set_rungs s1 (<[rungIndex := r2]> (rungs s1)) in
                    promoteLoop (promote turns') ctx message rungIndex promotions s2 [] false
                end
            end
      end
  end.

Definition promoteEntry (ctx : context) (s : asyncHalvingSearch)
  (id : RequestID) (message : Workload) (m : Q)
  : option (list Operation * asyncHalvingSearch * context) :=
  promote (length (rungs s)) ctx s id message m.

Definition validationCompleted (ctx : context) (s : asyncHalvingSearch)
  (id : RequestID) (message : Workload) (v : gmap string Q)
  : option (reply * asyncHalvingSearch * context) :=
  match metricOf v (Metric (config s)) with
  | inr err => Some (Fail err, s, ctx)
  | inl raw =>
      let m := if negb (SmallerIsBetter (config s)) then (raw * (-1 # 1))%Q else raw in
      match promoteEntry ctx s id message m with
      | None => None
      | Some (ops, s', ctx') => Some (Ops ops, s', ctx')
      end
  end.

Definition trialExitedEarly (ctx : context) (s : asyncHalvingSearch)
  (id : RequestID) (message : Workload)
  : option (reply * asyncHalvingSearch * context) :=
  let s1 := set_earlyExitTrials s (<[id := true]> (earlyExitTrials s)) in
  match promoteEntry ctx s1 id message ashaExitedMetricValue with
  | None => None
  | Some (ops, s', ctx') => Some (Ops ops, s', ctx')
  end.

(** [math.Max] on float64. *)
Definition math_Max (x y : Q) : Q := if Qle_bool x y then y else x.

(** [progress].  [None]: [s.rungs[0]] panics on a searcher without rungs.
    The argument is not used by the code. *)
Definition progress (s : asyncHalvingSearch) (workloadsCompleted : Z) : option Q :=
  let allTrials := allTrialsOf s in
  match rungs s !! 0%nat with
  | None => None
  | Some r0 =>
      let progress :=
        (float64_of_int (int_wrap (allTrials - outstandingTrials r0)) /
         ((12 # 10) * float64_of_int (maxTrials s)))%Q in
      if allTrials =? maxTrials s then
        Some (math_Max
                (float64_of_int (trialsCompleted s) / float64_of_int (maxTrials s))%Q
                progress)
      else Some progress
  end.

(** ** Event streams *)

Inductive Event :=
  | TrainCompleted (id : RequestID) (message : Workload)
  | ValidationCompleted (id : RequestID) (message : Workload) (v : gmap string Q)
  | TrialExitedEarly (id : RequestID) (message : Workload).

Definition handle (ctx : context) (s : asyncHalvingSearch) (ev : Event)
  : option (reply * asyncHalvingSearch * context) :=
  match ev with
  | TrainCompleted id message => trainCompleted ctx s id message
  | ValidationCompleted id message v => validationCompleted ctx s id message v
  | TrialExitedEarly id message => trialExitedEarly ctx s id message
  end.

Definition opsOf (r : reply) : list Operation :=
  match r with
  | Ops ops => ops
  | Fail _ => []
  end.

(** The events in order, with the concatenation of the returned batches. *)
Fixpoint run (ctx : context) (s : asyncHalvingSearch) (evs : list Event)
  : option (list Operation * asyncHalvingSearch * context) :=
  match evs with
  | [] => Some ([], s, ctx)
  | ev :: rest =>
      match handle ctx s ev with
      | None => None
      | Some (r, s1, ctx1) =>
          match run ctx1 s1 rest with
          | None => None
          | Some (ops, s2, ctx2) => Some (opsOf r ++ ops, s2, ctx2)
          end
      end
  end.

(** A whole experiment: construction, the one call of [initialOperations],
    then the events. *)
Definition experiment (cfg : AsyncHalvingConfig) (evs : list Event)
  : option (list Operation * asyncHalvingSearch * context) :=
  match newAsyncHalvingSearch cfg with
  | None => None
  | Some s0 =>
      match initialOperations (mkContext 0) s0 with
      | None => None
      | Some (r, s1, ctx1) =>
          match run ctx1 s1 evs with
          | None => None
          | Some (ops, s2, ctx2) => Some (opsOf r ++ ops, s2, ctx2)
          end
      end
  end.

(** * The same code on IEEE 754 numbers

    Rounding, infinities and NaN are what the rationals above leave out.
    This second embedding of the same source has [float64] as the binary64
    format of IEEE 754, with the operations of the Standard Library's
    [SpecFloat] at precision 53: division, multiplication and the
    conversion from [int] round to nearest, ties to even, and every
    comparison with NaN is false.  Operations, workloads, the sampling
    context, errors and replies are those of the first embedding. *)

Module F64.

(** ** Numbers *)

Definition prec : Z := 53.
Definition emax : Z := 1024.

Definition float64 : Type := spec_float.

Definition NaN : float64 := S754_nan.
Definition Inf (negative : bool) : float64 := S754_infinity negative.

(** [float64(n)] for an [int] n: the nearest float64, ties to even. *)
Definition float64_of_int (n : Z) : float64 := binary_normalize prec emax n 0 false.

Definition float64_div (x y : float64) : float64 := SFdiv prec emax x y.
Definition float64_mul (x y : float64) : float64 := SFmul prec emax x y.
Definition float64_add (x y : float64) : float64 := SFadd prec emax x y.

(** The Go comparisons on float64; all are false when an operand is NaN. *)
Definition float64_gt (x y : float64) : bool := SFltb y x.
Definition float64_lt (x y : float64) : bool := SFltb x y.
Definition float64_le (x y : float64) : bool := SFleb x y.
Definition float64_eq (x y : float64) : bool := SFeqb x y.

(** [math.IsNaN], [math.IsInf(x, 0)] and [math.Signbit]. *)
Definition math_IsNaN (x : float64) : bool :=
  match x with
  | S754_nan => true
  | _ => false
  end.

Definition math_IsInf (x : float64) : bool :=
  match x with
  | S754_infinity _ => true
  | _ => false
  end.

Definition math_Signbit (x : float64) : bool :=
  match x with
  | S754_zero s | S754_infinity s | S754_finite s _ _ => s
  | S754_nan => false
  end.

(** The integer a finite float64 truncates to (toward zero). *)
Definition truncate (x : float64) : option Z :=
  match x with
  | S754_zero _ => Some 0
  | S754_finite s m e =>
      let magnitude := if 0 <=? e then Z.shiftl (Z.pos m) e else Z.shiftr (Z.pos m) (- e) in
      Some (if s then - magnitude else magnitude)
  | _ => None
  end.

(** [int(x)] for a [float64] x: truncation toward zero.  When the value
    does not fit an [int] (and for infinities and NaN) Go leaves the result
    to the implementation; on amd64 the conversion instruction gives
    [-2^63], which is what is modelled here. *)
Definition int_of_float64 (x : float64) : Z :=
  match truncate x with
  | Some z => if (- 2 ^ 63 <=? z) && (z <? 2 ^ 63) then z else - 2 ^ 63
  | None => - 2 ^ 63
  end.

(** [math.MaxFloat64]. *)
Definition math_MaxFloat64 : float64 := SFmax_float prec emax.

(** The Go constant [1.2] as a float64: the float64 nearest to 12/10. *)
Definition onePointTwo : float64 := float64_div (float64_of_int 12) (float64_of_int 10).

(** [math.Max] of Go's library, with its special cases. *)
Definition math_Max (x y : float64) : float64 :=
  if (float64_eq x (Inf false)) || (float64_eq y (Inf false)) then Inf false
  else if math_IsNaN x || math_IsNaN y then NaN
  else if float64_eq x (S754_zero false) && float64_eq x y then
    if math_Signbit x then y else x
  else if float64_gt x y then x
  else y.

(** The loop of [math.Pow] (Go's library, [math/pow.go]): binary
    exponentiation on the mantissa [x1] and the exponent [xe] that
    [math.Frexp] gives, the answer being [a1 * 2^ae].  [i] is shifted right
    at each turn; 64 turns are enough for an [int64]. *)
Fixpoint pow_loop (turns : nat) (i : Z) (a1 : float64) (ae : Z) (x1 : float64) (xe : Z)
  : float64 * Z :=
  match turns with
  | O => (a1, ae)
  | S turns' =>
      if i =? 0 then (a1, ae)
      else if (xe <? - 2 ^ 12) || (2 ^ 12 <? xe) then (a1, ae + xe)
      else
        let a1' := if Z.odd i then float64_mul a1 x1 else a1 in
        let ae' := if Z.odd i then ae + xe else ae in
        let x2 := float64_mul x1 x1 in
        let xe2 := 2 * xe in
        if float64_lt x2 (float64_div (float64_of_int 1) (float64_of_int 2)) then
          pow_loop turns' (Z.shiftr i 1) a1' ae' (float64_add x2 x2) (xe2 - 1)
        else pow_loop turns' (Z.shiftr i 1) a1' ae' x2 xe2
  end.

(** [math.Pow(x, float64(k))] for an [int] k, as the code calls it: the
    exponent [y] is an integer, so the branches of [math.Pow] for
    fractional and infinite exponents are never taken.  The special cases
    come first, in the library's order. *)
Definition math_Pow (x : float64) (k : Z) : float64 :=
  let y := float64_of_int k in
  let one := float64_of_int 1 in
  let isOddInt := (Z.abs k <? 2 ^ 53) && Z.odd k in
  if float64_eq y (S754_zero false) || float64_eq x one then one
  else if float64_eq y one then x
  else if math_IsNaN x then NaN
  else if float64_eq x (S754_zero false) then
    if float64_lt y (S754_zero false) then
      if math_Signbit x && isOddInt then Inf true else Inf false
    else if math_Signbit x && isOddInt then x else S754_zero false
  else if math_IsInf x then
    if math_Signbit x then
      (* Pow(1/x, -y), that is Pow(-0, -y) *)
      if float64_gt y (S754_zero false) then
        if isOddInt then Inf true else Inf false
      else if isOddInt then S754_zero true else S754_zero false
    else if float64_lt y (S754_zero false) then S754_zero false
    else Inf false
  else
    match truncate (SFabs y) with
    | None => NaN
    | Some yi =>
        if 2 ^ 63 <=? yi then
          if float64_eq x (float64_of_int (-1)) then one
          else if Bool.eqb (float64_lt (SFabs x) one) (float64_gt y (S754_zero false))
               then S754_zero false
               else Inf false
        else
          let '(x1, xe) := SFfrexp prec emax x in
          let '(a1, ae) := pow_loop 64 yi one 0 x1 xe in
          if float64_lt y (S754_zero false) then
            SFldexp prec emax (float64_div one a1) (- ae)
          else SFldexp prec emax a1 ae
    end.

(** ** Data model *)

Record trialMetric := mkTrialMetric {
  requestID : RequestID;
  metric : float64;
  promoted : bool;
  closed : bool
}.

Record rung := mkRung {
  stepsNeeded : Z;
  outstandingTrials : Z;
  metrics : list trialMetric
}.

Record AsyncHalvingConfig := mkConfig {
  Metric : string;
  SmallerIsBetter : bool;
  TargetTrialSteps : Z;
  MaxTrials : Z;
  Divisor : float64;
  NumRungs : Z;
  MaxConcurrentTrials : Z
}.

Record asyncHalvingSearch := mkSearch {
  config : AsyncHalvingConfig;
  rungs : list rung;
  trialRungs : gmap nat nat;
  earlyExitTrials : gmap nat bool;
  maxTrials : Z;
  trialsCompleted : Z
}.

Definition ashaExitedMetricValue : float64 := math_MaxFloat64.

Definition set_metrics (r : rung) (ms : list trialMetric) : rung :=
  mkRung (stepsNeeded r) (outstandingTrials r) ms.

Definition set_outstanding (r : rung) (n : Z) : rung :=
  mkRung (stepsNeeded r) n (metrics r).

Definition set_promoted (t : trialMetric) (b : bool) : trialMetric :=
  mkTrialMetric (requestID t) (metric t) b (closed t).

Definition set_closed (t : trialMetric) (b : bool) : trialMetric :=
  mkTrialMetric (requestID t) (metric t) (promoted t) b.

Definition set_rungs (s : asyncHalvingSearch) (rs : list rung) : asyncHalvingSearch :=
  mkSearch (config s) rs (trialRungs s) (earlyExitTrials s) (maxTrials s)
    (trialsCompleted s).

Definition set_trialRungs (s : asyncHalvingSearch) (m : gmap nat nat) : asyncHalvingSearch :=
  mkSearch (config s) (rungs s) m (earlyExitTrials s) (maxTrials s)
    (trialsCompleted s).

Definition set_earlyExitTrials (s : asyncHalvingSearch) (m : gmap nat bool) : asyncHalvingSearch :=
  mkSearch (config s) (rungs s) (trialRungs s) m (maxTrials s)
    (trialsCompleted s).

Definition set_trialsCompleted (s : asyncHalvingSearch) (n : Z) : asyncHalvingSearch :=
  mkSearch (config s) (rungs s) (trialRungs s) (earlyExitTrials s)
    (maxTrials s) n.

Definition isEarlyExit (s : asyncHalvingSearch) (id : RequestID) : bool :=
  default false (earlyExitTrials s !! id).

Definition rungOf (s : asyncHalvingSearch) (id : RequestID) : nat :=
  default 0%nat (trialRungs s !! id).

Definition allTrialsOf (s : asyncHalvingSearch) : Z :=
  Z.of_nat (size (trialRungs s)).

(** ** The rung: promotionsAsync *)

(** [int(float64(n) / divisor)], the quotient rounded to a float64 before
    it is truncated. *)
Definition numPromoteOf (n : nat) (divisor : float64) : Z :=
  int_of_float64 (float64_div (float64_of_int (Z.of_nat n)) divisor).

(** The closure handed to [sort.Search]: [r.metrics[i].metric > metric]. *)
Definition worseThan (ms : list trialMetric) (m : float64) (i : nat) : bool :=
  match ms !! i with
  | Some t => float64_gt (metric t) m
  | None => false
  end.

Definition insertAt (ms : list trialMetric) (i : nat) (t : trialMetric) : list trialMetric :=
  take i ms ++ t :: drop i ms.

Definition metricAt (ms : list trialMetric) (k : Z) : option trialMetric :=
  if k <? 0 then None else ms !! Z.to_nat k.

Definition promotionsAsync (r : rung) (id : RequestID) (m : float64) (divisor : float64)
  : option (list RequestID * rung) :=
  let oldNumPromote := numPromoteOf (length (metrics r)) divisor in
  let numPromote := numPromoteOf (length (metrics r) + 1) divisor in
  let insertIndex := sort_Search (length (metrics r)) (worseThan (metrics r) m) in
  let promoteNow := Z.of_nat insertIndex <? numPromote in
  let ms := insertAt (metrics r) insertIndex (mkTrialMetric id m promoteNow false) in
  if promoteNow then Some ([id], set_metrics r ms)
  else if negb (numPromote =? oldNumPromote) then
    match metricAt ms oldNumPromote with
    | None => None
    | Some t =>
        if negb (promoted t) then
          Some ([requestID t],
                set_metrics r (<[Z.to_nat oldNumPromote := set_promoted t true]> ms))
        else Some ([], set_metrics r ms)
    end
  else Some ([], set_metrics r ms).

(** Modelled from the spec, as [metricOf] above: [ValidationMetrics.Metric]. *)
Definition metricOf (v : gmap string float64) (name : string) : float64 + error :=
  match v !! name with
  | Some x => inl x
  | None => inr (MissingMetric name)
  end.

(** ** Construction *)

Definition rungAt (cfg : AsyncHalvingConfig) (id : Z) : rung :=
  let downsamplingRate := math_Pow (Divisor cfg) (NumRungs cfg - id - 1) in
  let stepsNeeded :=
    Z.max (int_of_float64
             (float64_div (float64_of_int (TargetTrialSteps cfg)) downsamplingRate)) 1 in
  mkRung stepsNeeded 0 [].

Definition newAsyncHalvingSearch (cfg : AsyncHalvingConfig) : option asyncHalvingSearch :=
  if NumRungs cfg <? 0 then None
  else
    Some (mkSearch cfg
            (map (fun id => rungAt cfg (Z.of_nat id)) (seq 0 (Z.to_nat (NumRungs cfg))))
            ∅ ∅ (MaxTrials cfg) 0).

(** ** The bracket *)

Definition createTrial (ctx : context) (s : asyncHalvingSearch)
  : option (list Operation * asyncHalvingSearch * context) :=
  let '(id, create, ctx') := NewCreate ctx (sampleAll ctx) in
  match rungs s !! 0%nat with
  | None => None
  | Some r0 =>
      let ops := create :: trainAndValidate id 0 (stepsNeeded r0) in
      let rs := <[0%nat := set_outstanding r0 (int_incr (outstandingTrials r0))]> (rungs s) in
      Some (ops, set_trialRungs (set_rungs s rs) (<[id := 0%nat]> (trialRungs s)), ctx')
  end.

Definition initialConcurrency (cfg : AsyncHalvingConfig) : Z :=
  if MaxConcurrentTrials cfg >? 0 then Z.min (MaxConcurrentTrials cfg) (MaxTrials cfg)
  else
    Z.max (Z.min (int_of_float64 (math_Pow (Divisor cfg) (NumRungs cfg - 1)))
                 (MaxTrials cfg)) 1.

Fixpoint createTrials (n : nat) (ctx : context) (s : asyncHalvingSearch)
  : option (list Operation * asyncHalvingSearch * context) :=
  match n with
  | O => Some ([], s, ctx)
  | S n' =>
      match createTrial ctx s with
      | None => None
      | Some (ops1, s1, ctx1) =>
          match createTrials n' ctx1 s1 with
          | None => None
          | Some (ops2, s2, ctx2) => Some (ops1 ++ ops2, s2, ctx2)
          end
      end
  end.

Definition initialOperations (ctx : context) (s : asyncHalvingSearch)
  : option (reply * asyncHalvingSearch * context) :=
  match createTrials (Z.to_nat (initialConcurrency (config s))) ctx s with
  | None => None
  | Some (ops, s', ctx') => Some (Ops ops, s', ctx')
  end.

Definition trainCompleted (ctx : context) (s : asyncHalvingSearch)
  (id : RequestID) (message : Workload)
  : option (reply * asyncHalvingSearch * context) :=
  Some (Ops [], s, ctx).

Fixpoint closeOutMetrics (early : gmap nat bool) (ms : list trialMetric) (completed : Z)
  : list Operation * list trialMetric * Z :=
  match ms with
  | [] => ([], [], completed)
  | t :: rest =>
      if negb (promoted t) && negb (closed t) then
        let ops1 :=
          (if negb (default false (early !! requestID t))
           then [NewClose (requestID t)] else [])
          ++ [NewClose (requestID t)] in
        let '(ops2, rest', c) := closeOutMetrics early rest (int_incr completed) in
        (ops1 ++ ops2, set_closed t true :: rest', c)
      else
        let '(ops2, rest', c) := closeOutMetrics early rest completed in
        (ops2, t :: rest', c)
  end.

Fixpoint closeOutLoop (early : gmap nat bool) (rs : list rung) (completed : Z)
  : list Operation * list rung * Z :=
  match rs with
  | [] => ([], [], completed)
  | r :: rest =>
      if outstandingTrials r >? 0 then ([], r :: rest, completed)
      else
        let '(ops1, ms, c1) := closeOutMetrics early (metrics r) completed in
        let '(ops2, rest', c2) := closeOutLoop early rest c1 in
        (ops1 ++ ops2, set_metrics r ms :: rest', c2)
  end.

Definition closeOutRungs (s : asyncHalvingSearch) : list Operation * asyncHalvingSearch :=
  let '(ops, rs, c) := closeOutLoop (earlyExitTrials s) (rungs s) (trialsCompleted s) in
  (ops, set_trialsCompleted (set_rungs s rs) c).

Definition promoteTail (ctx : context) (s : asyncHalvingSearch)
  (ops : list Operation) (addedTrainWorkload : bool)
  : option (list Operation * asyncHalvingSearch * context) :=
  let allTrials := allTrialsOf s in
  match
    (if negb addedTrainWorkload && (allTrials <? maxTrials s) then
       match createTrial ctx s with
       | None => None
       | Some (cops, s1, ctx1) => Some (ops ++ cops, s1, ctx1)
       end
     else Some (ops, s, ctx))
  with
  | None => None
  | Some (ops1, s1, ctx1) =>
      if allTrials =? maxTrials s1 then
        let '(cops, s2) := closeOutRungs s1 in Some (ops1 ++ cops, s2, ctx1)
      else Some (ops1, s1, ctx1)
  end.

Fixpoint promoteLoop
  (rec : context -> asyncHalvingSearch -> RequestID -> Workload -> float64 ->
         option (list Operation * asyncHalvingSearch * context))
  (ctx : context) (message : Workload) (rungIndex : nat)
  (promotions : list RequestID) (s : asyncHalvingSearch)
  (ops : list Operation) (addedTrainWorkload : bool)
  : option (list Operation * asyncHalvingSearch * context) :=
  match promotions with
  | [] => promoteTail ctx s ops addedTrainWorkload
  | promotionID :: rest =>
      let s1 := set_trialRungs s (<[promotionID := S rungIndex]> (trialRungs s)) in
      match rungs s1 !! rungIndex, rungs s1 !! S rungIndex with
      | Some r, Some nextRung =>
          let nextRung' := set_outstanding nextRung (int_incr (outstandingTrials nextRung)) in
          let s2 := set_rungs s1 (<[S rungIndex := nextRung']> (rungs s1)) in
          if negb (isEarlyExit s2 promotionID) then
            promoteLoop rec ctx message rungIndex rest s2
              (ops ++ trainAndValidate promotionID (stepsNeeded r) (stepsNeeded nextRung'))
              true
          else
            let wkld :=
              mkWorkload ComputeValidationMetrics (ExperimentID message)
                (TrialID message) (stepsNeeded nextRung') in
            rec ctx s2 promotionID wkld ashaExitedMetricValue
      | _, _ => None
      end
  end.

Fixpoint promote (turns : nat) (ctx : context) (s : asyncHalvingSearch)
  (id : RequestID) (message : Workload) (m : float64)
  : option (list Operation * asyncHalvingSearch * context) :=
  match turns with
  | O => None
  | S turns' =>
      let rungIndex := rungOf s id in
      match rungs s !! rungIndex with
      | None => None
      | Some r =>
          let r1 := set_outstanding r (int_decr (outstandingTrials r)) in
          let s1 := set_rungs s (<[rungIndex := r1]> (rungs s)) in
          if Z.of_nat rungIndex =? NumRungs (config s) - 1 then
            let s2 := set_trialsCompleted s1 (int_incr (trialsCompleted s1)) in
            let ops := if negb (isEarlyExit s2 id) then [NewClose id] else [] in
            promoteTail ctx s2 ops false
          else
            match rungs s1 !! S rungIndex with
            | None => None
            | Some _ =>
                match promotionsAsync r1 id m (Divisor (config s)) with
                | None => None
                | Some (promotions, r2) =>
                    let s2 := set_rungs s1 (<[rungIndex := r2]> (rungs s1)) in
                    promoteLoop (promote turns') ctx message rungIndex promotions s2 [] false
                end
            end
      end
  end.

Definition promoteEntry (ctx : context) (s : asyncHalvingSearch)
  (id : RequestID) (message : Workload) (m : float64)
  : option (list Operation * asyncHalvingSearch * context) :=
  promote (length (rungs s)) ctx s id message m.

(** The metric [validationCompleted] ranks: the reported one, times [-1]
    when larger is better. *)
Definition normalized (cfg : AsyncHalvingConfig) (raw : float64) : float64 :=
  if negb (SmallerIsBetter cfg) then float64_mul raw (float64_of_int (-1)) else raw.

Definition validationCompleted (ctx : context) (s : asyncHalvingSearch)
  (id : RequestID) (message : Workload) (v : gmap string float64)
  : option (reply * asyncHalvingSearch * context) :=
  match metricOf v (Metric (config s)) with
  | inr err => Some (Fail err, s, ctx)
  | inl raw =>
      match promoteEntry ctx s id message (normalized (config s) raw) with
      | None => None
      | Some (ops, s', ctx') => Some (Ops ops, s', ctx')
      end
  end.

Definition trialExitedEarly (ctx : context) (s : asyncHalvingSearch)
  (id : RequestID) (message : Workload)
  : option (reply * asyncHalvingSearch * context) :=
  let s1 := set_earlyExitTrials s (<[id := true]> (earlyExitTrials s)) in
  match promoteEntry ctx s1 id message ashaExitedMetricValue with
  | None => None
  | Some (ops, s', ctx') => Some (Ops ops, s', ctx')
  end.

Definition progress (s : asyncHalvingSearch) (workloadsCompleted : Z) : option float64 :=
  let allTrials := allTrialsOf s in
  match rungs s !! 0%nat with
  | None => None
  | Some r0 =>
      let progress :=
        float64_div (float64_of_int (int_wrap (allTrials - outstandingTrials r0)))
                    (float64_mul onePointTwo (float64_of_int (maxTrials s))) in
      if allTrials =? maxTrials s then
        Some (math_Max
                (float64_div (float64_of_int (trialsCompleted s))
                             (float64_of_int (maxTrials s)))
                progress)
      else Some progress
  end.

(** ** Event streams *)

Inductive Event :=
  | TrainCompleted (id : RequestID) (message : Workload)
  | ValidationCompleted (id : RequestID) (message : Workload) (v : gmap string float64)
  | TrialExitedEarly (id : RequestID) (message : Workload).

Definition handle (ctx : context) (s : asyncHalvingSearch) (ev : Event)
  : option (reply * asyncHalvingSearch * context) :=
  match ev with
  | TrainCompleted id message => trainCompleted ctx s id message
  | ValidationCompleted id message v => validationCompleted ctx s id message v
  | TrialExitedEarly id message => trialExitedEarly ctx s id message
  end.

Fixpoint run (ctx : context) (s : asyncHalvingSearch) (evs : list Event)
  : option (list Operation * asyncHalvingSearch * context) :=
  match evs with
  | [] => Some ([], s, ctx)
  | ev :: rest =>
      match handle ctx s ev with
      | None => None
      | Some (r, s1, ctx1) =>
          match run ctx1 s1 rest with
          | None => None
          | Some (ops, s2, ctx2) => Some (opsOf r ++ ops, s2, ctx2)
          end
      end
  end.

Definition experiment (cfg : AsyncHalvingConfig) (evs : list Event)
  : option (list Operation * asyncHalvingSearch * context) :=
  match newAsyncHalvingSearch cfg with
  | None => None
  | Some s0 =>
      match initialOperations (mkContext 0) s0 with
      | None => None
      | Some (r, s1, ctx1) =>
          match run ctx1 s1 evs with
          | None => None
          | Some (ops, s2, ctx2) => Some (opsOf r ++ ops, s2, ctx2)
          end
      end
  end.

End F64.

(** * Vocabulary of the properties *)

(** ** Sorted rungs *)

(** Non-decreasing in [metric], by index. *)
Definition sortedByMetric (ms : list trialMetric) : Prop :=
  forall (i j : nat) (a b : trialMetric),
    (i <= j)%nat -> ms !! i = Some a -> ms !! j = Some b ->
    (metric a <= metric b)%Q.

(** The same, decided on neighbours. *)
Fixpoint sortedByMetricb (ms : list trialMetric) : bool :=
  match ms with
  | [] => true
  | a :: rest =>
      match rest with
      | [] => true
      | b :: _ => Qle_bool (metric a) (metric b) && sortedByMetricb rest
      end
  end.

(** The index [promotionsAsync] inserts at. *)
Definition insertIndexOf (ms : list trialMetric) (m : Q) : nat :=
  sort_Search (length ms) (worseThan ms m).

(** ** Invariants of a rung and of the searcher *)

(** The best [floor(len/divisor)] entries have all been promoted. *)
Definition topPromoted (d : Q) (ms : list trialMetric) : Prop :=
  forall j : nat, Z.of_nat j < numPromoteOf (length ms) d ->
    exists t, ms !! j = Some t /\ promoted t = true.

(** What every rung of a reachable searcher satisfies. *)
Definition rungInv (d : Q) (r : rung) : Prop :=
  sortedByMetric (metrics r) /\ topPromoted d (metrics r).

(** How the entries of a rung evolve: none is dropped, ids and metrics are
    kept, and a closed entry stays closed. *)
Definition entriesKept (ms ms' : list trialMetric) : Prop :=
  forall t, t ∈ ms ->
    exists t', t' ∈ ms' /\ requestID t' = requestID t /\ metric t' = metric t /\
               (closed t = true -> closed t' = true).

(** The ids of [ms'] come from [ms] or are [id]. *)
Definition idsFrom (id : RequestID) (ms ms' : list trialMetric) : Prop :=
  forall t', t' ∈ ms' -> requestID t' = id \/ exists t, t ∈ ms /\ requestID t = requestID t'.

(** What the drain does to one entry, and to one rung. *)
Definition closeEntry (t : trialMetric) : trialMetric :=
  if negb (promoted t) && negb (closed t) then set_closed t true else t.

(** A rung after the drain has gone through it. *)
Definition drained (r : rung) : rung := set_metrics r (closeEntry <$> metrics r).

(** The drain leaves a rung alone (after the [break]) or drains it. *)
Definition drainStep (r r' : rung) : Prop := r' = r \/ r' = drained r.

(** What every reachable searcher satisfies, whatever the events. *)
Record wellFormed (s : asyncHalvingSearch) : Prop := mkWellFormed {
  wf_divisor : (1 <= Divisor (config s))%Q;
  wf_numRungs : NumRungs (config s) = Z.of_nat (length (rungs s));
  wf_nonempty : (0 < length (rungs s))%nat;
  wf_trialRungs :
    forall id k, trialRungs s !! id = Some k -> (k < length (rungs s))%nat;
  wf_rungs : Forall (rungInv (Divisor (config s))) (rungs s)
}.

(** The ids ranked in the rungs satisfy [D]. *)
Definition idsIn (D : RequestID -> Prop) (rs : list rung) : Prop :=
  forall r t, r ∈ rs -> t ∈ metrics r -> D (requestID t).

(** The id is a key of [trialRungs]. *)
Definition known (s : asyncHalvingSearch) (id : RequestID) : Prop :=
  is_Some (trialRungs s !! id).

(** What holds as long as the events name trials of the searcher: the
    ranked trials are registered, and the registered trials are under the
    cap. *)
Definition capInv (s : asyncHalvingSearch) : Prop :=
  idsIn (known s) (rungs s) /\ allTrialsOf s <= maxTrials s.

(** What the recursive call of [promote] must deliver one rung up. *)
Definition recOk (n k : nat)
  (rec : context -> asyncHalvingSearch -> RequestID -> Workload -> Q ->
         option (list Operation * asyncHalvingSearch * context)) : Prop :=
  forall ctx s pid w m, wellFormed s -> length (rungs s) = n -> rungOf s pid = S k ->
    exists ops' s' ctx',
      rec ctx s pid w m = Some (ops', s', ctx') /\ wellFormed s' /\
      (known s pid -> capInv s -> capInv s').

(** ** What a call may change and emit *)

(** No rung is dropped, and each keeps its length and its entries. *)
Definition rungsKept (rs rs' : list rung) : Prop :=
  length rs' = length rs /\
  forall j r, rs !! j = Some r ->
    exists r', rs' !! j = Some r' /\ stepsNeeded r' = stepsNeeded r /\
               entriesKept (metrics r) (metrics r').

(** Some rung holds an entry of the trial that the drain has closed. *)
Definition closedIn (s : asyncHalvingSearch) (id : RequestID) : Prop :=
  exists r t, r ∈ rungs s /\ t ∈ metrics r /\ requestID t = id /\ closed t = true.

(** The conditions under which each operation is emitted.  [cap] is true
    on the [promote] path, where a [Create] is guarded by the trial cap. *)
Definition opAllowed (cap : bool) (ctx : context) (s : asyncHalvingSearch)
  (ctx' : context) (s' : asyncHalvingSearch) (op : Operation) : Prop :=
  match op with
  | Create id _ =>
      (rand ctx <= id < rand ctx')%nat /\ (cap = true -> allTrialsOf s < maxTrials s)
  | Train id _ _ => isEarlyExit s id = false \/ (rand ctx <= id)%nat
  | Validate _ _ => True
  | Close id => isEarlyExit s id = false \/ closedIn s' id
  end.

Record evolves (cap : bool) (ctx : context) (s : asyncHalvingSearch)
  (ops : list Operation) (s' : asyncHalvingSearch) (ctx' : context) : Prop := mkEvolves {
  ev_config : config s' = config s;
  ev_maxTrials : maxTrials s' = maxTrials s;
  ev_rand : (rand ctx <= rand ctx')%nat;
  ev_early : forall id, isEarlyExit s id = true -> isEarlyExit s' id = true;
  ev_trials : dom (trialRungs s) ⊆ dom (trialRungs s');
  ev_rungs : rungsKept (rungs s) (rungs s');
  ev_ops : Forall (opAllowed cap ctx s ctx' s') ops
}.

(** Operations whose emission only depends on the early-exit map. *)
Definition plainOp (early : gmap nat bool) (op : Operation) : Prop :=
  match op with
  | Create _ _ => False
  | Train id _ _ => default false (early !! id) = false
  | Validate _ _ => True
  | Close id => default false (early !! id) = false
  end.

(** The same for the operations and the state of the recursive call. *)
Definition recEvolves
  (rec : context -> asyncHalvingSearch -> RequestID -> Workload -> Q ->
         option (list Operation * asyncHalvingSearch * context)) : Prop :=
  forall ctx s pid w m ops' s' ctx',
    rec ctx s pid w m = Some (ops', s', ctx') -> evolves true ctx s ops' s' ctx'.

(** ** Valid configurations and event streams *)

(** A valid bracket configuration: [divisor >= 2], [num_rungs >= 1],
    [max_length >= 1], [max_trials >= 1]. *)
Definition validConfigb (cfg : AsyncHalvingConfig) : bool :=
  Qle_bool 2 (Divisor cfg) && (1 <=? NumRungs cfg) &&
  (1 <=? TargetTrialSteps cfg) && (1 <=? MaxTrials cfg).

(** The same as a proposition. *)
Definition validConfig (cfg : AsyncHalvingConfig) : Prop := validConfigb cfg = true.

(** The trial an event is about. *)
Definition eventId (ev : Event) : RequestID :=
  match ev with
  | TrainCompleted id _ => id
  | ValidationCompleted id _ _ => id
  | TrialExitedEarly id _ => id
  end.

(** Every event names a trial registered in [trialRungs] when it arrives. *)
Fixpoint validStream (ctx : context) (s : asyncHalvingSearch) (evs : list Event) : Prop :=
  match evs with
  | [] => True
  | ev :: rest =>
      known s (eventId ev) /\
      match handle ctx s ev with
      | Some (_, s1, ctx1) => validStream ctx1 s1 rest
      | None => False
      end
  end.

(** The same for a whole experiment, from the state [initialOperations]
    leaves. *)
Definition validExperiment (cfg : AsyncHalvingConfig) (evs : list Event) : Prop :=
  match newAsyncHalvingSearch cfg with
  | None => False
  | Some s0 =>
      match initialOperations (mkContext 0) s0 with
      | None => False
      | Some (_, s1, ctx1) => validStream ctx1 s1 evs
      end
  end.

(** The state an experiment is in after its events. *)
Definition reached (cfg : AsyncHalvingConfig) (evs : list Event)
  (ops : list Operation) (s : asyncHalvingSearch) (ctx : context) : Prop :=
  experiment cfg evs = Some (ops, s, ctx).

(** ** Counting entries and operations *)


(** [Close{id}]. *)
Definition isClose (id : RequestID) (op : Operation) : bool :=
  match op with
  | Close id' => Nat.eqb id id'
  | _ => false
  end.

(** Any [Create]. *)
Definition isCreate (op : Operation) : bool :=
  match op with
  | Create _ _ => true
  | _ => false
  end.

(** How many times an operation of a kind appears in a stream. *)
Definition countOps (p : Operation -> bool) (ops : list Operation) : nat :=
  length (List.filter p ops).

(** ** Concrete brackets and streams *)

(** A validation workload; its fields never reach the operations. *)
Definition msg0 : Workload := mkWorkload ComputeValidationMetrics 1 1 1.

(** Validation metrics that report [x] under the configured name. *)
Definition report (x : Q) : gmap string Q := {[ "loss"%string := x ]}.

(** Two rungs, divisor 2, [max_length = 4]. *)
Definition twoRungs (max_trials max_concurrent : Z) : AsyncHalvingConfig :=
  mkConfig "loss" true 4 max_trials 2 2 max_concurrent.

(** The defaults of the adaptive searcher: five rungs, divisor 4, with
    [max_length = 16]. *)
Definition fiveRungs : AsyncHalvingConfig := mkConfig "loss" true 16 8 4 5 3.

(** Three results arriving best last: 5, then 4, then 3. *)
Definition bestLast : list Event :=
  [ValidationCompleted 0%nat msg0 (report 5);
   ValidationCompleted 1%nat msg0 (report 4);
   ValidationCompleted 2%nat msg0 (report 3)].

(** A rung holding two results, 1 and 3. *)
Definition rungOneThree : rung :=
  mkRung 1 0 [mkTrialMetric 0%nat 1 true false; mkTrialMetric 1%nat 3 false false].

(** Identity and metric of the entries, in rank order. *)
Definition keysOf (ms : list trialMetric) : list (nat * Q) :=
  (fun t => (requestID t, metric t)) <$> ms.

(** The length the spec gives rung [k]:
    [max(1, floor(max_length / divisor^(num_rungs-1-k)))]. *)
Definition lengthUnits (cfg : AsyncHalvingConfig) (k : Z) : Z :=
  Z.max 1 (Qfloor (inject_Z (TargetTrialSteps cfg) / Divisor cfg ^ (NumRungs cfg - 1 - k))).

(** The trial is ranked in rung [k] of the searcher. *)
Definition rankedIn (s : asyncHalvingSearch) (k : nat) (id : RequestID) (m : Q) : Prop :=
  exists r t, rungs s !! k = Some r /\ t ∈ metrics r /\ requestID t = id /\ metric t = m.

(** Two trials, both exiting early: the first is promoted by the arrival
    of the second, and climbs to the top rung. *)
Definition bothExitEarly : list Event :=
  [TrialExitedEarly 0%nat msg0; TrialExitedEarly 1%nat msg0].

(** The searcher of [twoRungs 8 3] right after [initialOperations]. *)
Definition seededTwoRungs : asyncHalvingSearch :=
  mkSearch (twoRungs 8 3) [mkRung 2 3 []; mkRung 4 0 []]
    (<[2%nat := 0%nat]> (<[1%nat := 0%nat]> (<[0%nat := 0%nat]> ∅))) ∅ 8 0.

(** The batch [initialOperations] returned for it. *)
Definition seededOps : list Operation :=
  [Create 0%nat 0%nat; Train 0%nat 0 2; Validate 0%nat 2;
   Create 1%nat 1%nat; Train 1%nat 0 2; Validate 1%nat 2;
   Create 2%nat 2%nat; Train 2%nat 0 2; Validate 2%nat 2].

(** The events that drive the searcher. *)
Definition drives (ev : Event) : bool :=
  match ev with
  | TrainCompleted _ _ => false
  | _ => true
  end.

(** ** Vocabulary of the further properties *)

(** The operation is a [Close]. *)
Definition isCloseOp (op : Operation) : bool :=
  match op with
  | Close _ => true
  | _ => false
  end.

(** The operation is a [Train], of any trial. *)
Definition isTrainOp (op : Operation) : bool :=
  match op with
  | Train _ _ _ => true
  | _ => false
  end.

(** An operation of the bottom rung: a [Create], a [Train] from 0 to the
    length [l0] or a [Validate] at [l0]. *)
Definition bottomOp (l0 : Z) (op : Operation) : Prop :=
  match op with
  | Create _ _ => True
  | Train _ a b => a = 0 /\ b = l0
  | Validate _ b => b = l0
  | Close _ => False
  end.

(** An entry that the drain leaves alone: promoted, or closed already. *)
Definition settled (t : trialMetric) : Prop :=
  promoted t = true \/ closed t = true.

(** A searcher in the middle of an experiment, with three trials
    registered, one of them still training for rung 0, and one completed. *)
Definition midwayTwoRungs : asyncHalvingSearch :=
  mkSearch (twoRungs 8 3)
    [mkRung 2 1 [mkTrialMetric 1%nat 4 true false; mkTrialMetric 0%nat 5 false false];
     mkRung 4 0 []]
    (<[2%nat := 0%nat]> (<[1%nat := 1%nat]> (<[0%nat := 0%nat]> ∅))) ∅ 8 1.

(** A searcher whose bracket is complete: rung 0 has no outstanding trial
    and holds an unpromoted result that is still open. *)
Definition completeTwoRungs : asyncHalvingSearch :=
  mkSearch (twoRungs 2 2)
    [mkRung 2 0 [mkTrialMetric 1%nat 4 true false; mkTrialMetric 0%nat 5 false false];
     mkRung 4 1 []]
    (<[1%nat := 1%nat]> (<[0%nat := 0%nat]> ∅)) ∅ 2 0.

(** The [Close] of the top-rung branch of [promote]. *)
Definition closeAtTop (s : asyncHalvingSearch) (id : RequestID) : list Operation :=
  if (Z.of_nat (rungOf s id) =? NumRungs (config s) - 1) && negb (isEarlyExit s id)
  then [Close id] else [].

(** The training workload of a batch, read in the searcher [s'] the call
    returns: none; the promotion of a trial, registered one rung up and
    trained from the length of its rung to the length of the next; or a
    fresh trial, registered at rung 0 and trained to the length of rung 0. *)
Inductive workOf (s' : asyncHalvingSearch) : list Operation -> Prop :=
  | work_none : workOf s' []
  | work_promotion (p : RequestID) (k : nat) (r nx : rung) :
      trialRungs s' !! p = Some (S k) ->
      rungs s' !! k = Some r -> rungs s' !! S k = Some nx ->
      isEarlyExit s' p = false ->
      workOf s' [Train p (stepsNeeded r) (stepsNeeded nx); Validate p (stepsNeeded nx)]
  | work_refill (c : RequestID) (h : nat) (r0 : rung) :
      trialRungs s' !! c = Some 0%nat ->
      rungs s' !! 0%nat = Some r0 ->
      workOf s' [Create c h; Train c 0 (stepsNeeded r0); Validate c (stepsNeeded r0)].

(** The rungs keep their lengths and their rankings. *)
Definition rungsFramed (rs rs' : list rung) : Prop :=
  length rs' = length rs /\
  forall (k : nat) r, rs !! k = Some r ->
    exists r', rs' !! k = Some r' /\ stepsNeeded r' = stepsNeeded r /\
               keysOf (metrics r') = keysOf (metrics r).

(** The same, with the ranking kept in the top rung only. *)
Definition topKept (rs rs' : list rung) : Prop :=
  length rs' = length rs /\
  (forall (k : nat) r, rs !! k = Some r ->
     exists r', rs' !! k = Some r' /\ stepsNeeded r' = stepsNeeded r) /\
  forall r, rs !! (length rs - 1)%nat = Some r ->
    exists r', rs' !! (length rs - 1)%nat = Some r' /\
               keysOf (metrics r') = keysOf (metrics r).

(** The trial of the call and the trials ranked so far are registered, and
    the cap is not reached. *)
Definition underCap (s : asyncHalvingSearch) (id : RequestID) : Prop :=
  idsIn (known s) (rungs s) /\ known s id /\ allTrialsOf s < maxTrials s.

(** The batch a call of [promote] for trial [id] returns: the [Close] of
    the top-rung branch, at most one training workload, then the [Close]s
    of the drain, which only runs when every trial has been created. *)
Definition batch (s : asyncHalvingSearch) (id : RequestID)
  (ops : list Operation) (s' : asyncHalvingSearch) : Prop :=
  exists work drain,
    ops = closeAtTop s id ++ work ++ drain /\
    workOf s' work /\
    Forall (fun op => isCloseOp op = true) drain /\
    (drain <> [] -> allTrialsOf s' = maxTrials s' /\ countOps isCreate work = 0%nat) /\
    (underCap s id -> work <> []).

(** What [promote] guarantees on a well-formed searcher. *)
Definition promoted_ok (s : asyncHalvingSearch) (id : RequestID)
  (ops : list Operation) (s' : asyncHalvingSearch) : Prop :=
  batch s id ops s' /\
  earlyExitTrials s' = earlyExitTrials s /\
  topKept (rungs s) (rungs s').

(** The same, asked of the recursive call. *)
Definition recBatch
  (rec : context -> asyncHalvingSearch -> RequestID -> Workload -> Q ->
         option (list Operation * asyncHalvingSearch * context)) : Prop :=
  forall ctx s pid w m ops' s' ctx',
    wellFormed s -> rec ctx s pid w m = Some (ops', s', ctx') ->
    promoted_ok s pid ops' s'.

(** The [Close] of the top-rung branch in the batch of an event: only a
    validation that carries the metric can reach that branch with a trial
    that has not exited early. *)
Definition topClose (s : asyncHalvingSearch) (ev : Event) : list Operation :=
  match ev with
  | ValidationCompleted id _ v =>
      match metricOf v (Metric (config s)) with
      | inl _ => closeAtTop s id
      | inr _ => []
      end
  | _ => []
  end.

(** [early_exit] after an event. *)
Definition earlyAfter (s : asyncHalvingSearch) (ev : Event) : gmap nat bool :=
  match ev with
  | TrialExitedEarly id _ => <[id := true]> (earlyExitTrials s)
  | _ => earlyExitTrials s
  end.

(** The event reaches [promote]: an early exit, or a validation that
    carries the configured metric. *)
Definition processed (s : asyncHalvingSearch) (ev : Event) : Prop :=
  match ev with
  | TrainCompleted _ _ => False
  | ValidationCompleted _ _ v =>
      match metricOf v (Metric (config s)) with
      | inl _ => True
      | inr _ => False
      end
  | TrialExitedEarly _ _ => True
  end.

(** Two results at rung 0, the second better than the first: the second
    trial is promoted to the top rung. *)
Definition secondPromoted : list Event :=
  [ValidationCompleted 0%nat msg0 (report 5); ValidationCompleted 1%nat msg0 (report 4)].

(** The rungs the drain goes through: those before the first rung with
    outstanding trials. *)
Fixpoint drainable (rs : list rung) : list rung :=
  match rs with
  | [] => []
  | r :: rest => if outstandingTrials r >? 0 then [] else r :: drainable rest
  end.

(** The entries of a trial that the drain finds open: neither promoted nor
    closed. *)
Definition openEntry (id : RequestID) (t : trialMetric) : bool :=
  negb (promoted t) && negb (closed t) && Nat.eqb id (requestID t).

Definition openCount (id : RequestID) (ms : list trialMetric) : nat :=
  length (List.filter (openEntry id) ms).

(** All the open entries the drain will find, of one trial or ([None]) of
    any. *)
Fixpoint openInRungs (id : option RequestID) (rs : list rung) : nat :=
  match rs with
  | [] => 0
  | r :: rest =>
      (match id with
       | Some i => openCount i (metrics r)
       | None => length (List.filter (fun t => negb (promoted t) && negb (closed t)) (metrics r))
       end + openInRungs id rest)%nat
  end.

(** A bracket with a single rung. *)
Definition oneRung : AsyncHalvingConfig := mkConfig "loss" true 16 3 4 1 3.

(** ** Where float64 arithmetic is exact *)

(** The construction and [initialOperations] compute with [math.Pow] and
    a float64 division.  On these configurations the rationals of the
    first embedding are what the code computes: the divisor is an integer,
    and [max_length] and the largest downsampling rate
    [divisor^(num_rungs-1)] are below 2^53, so every power is a float64,
    and a quotient of two such integers, rounded to the nearest float64,
    still truncates to its floor. *)
Definition exactArithmeticb (cfg : AsyncHalvingConfig) : bool :=
  (Qden (Divisor cfg) =? 1)%positive && (TargetTrialSteps cfg <? 2 ^ 53) &&
  negb (Qle_bool (inject_Z (2 ^ 53)) (Divisor cfg ^ (NumRungs cfg - 1))).

Definition exactArithmetic (cfg : AsyncHalvingConfig) : Prop :=
  exactArithmeticb cfg = true.

(** ** Vocabulary of the properties on IEEE 754 numbers *)

(** Non-decreasing in [metric] for the float64 order, by index.  An entry
    is compared with itself, so a sorted rung holds no NaN. *)
Definition sortedByMetric64 (ms : list F64.trialMetric) : Prop :=
  forall (i j : nat) (a b : F64.trialMetric),
    (i <= j)%nat -> ms !! i = Some a -> ms !! j = Some b ->
    F64.float64_le (F64.metric a) (F64.metric b) = true.

(** The same, decided on neighbours. *)
Fixpoint sortedByMetric64b (ms : list F64.trialMetric) : bool :=
  match ms with
  | [] => true
  | a :: rest =>
      F64.float64_le (F64.metric a) (F64.metric a) &&
      match rest with
      | [] => true
      | b :: _ => F64.float64_le (F64.metric a) (F64.metric b) && sortedByMetric64b rest
      end
  end.

(** Every rung is sorted. *)
Definition rungsSorted64 (rs : list F64.rung) : Prop :=
  Forall (fun r => sortedByMetric64 (F64.metrics r)) rs.

(** The ranking of a rung: trials and metrics, in order. *)
Definition keysOf64 (ms : list F64.trialMetric) : list (nat * F64.float64) :=
  (fun t => (F64.requestID t, F64.metric t)) <$> ms.

(** A key whose lexicographic order is the order of the floats that are
    not NaN: the sign class, then exponent and mantissa. *)
Definition orderKey (x : F64.float64) : Z * Z * Z :=
  match x with
  | S754_nan => (0, 0, 0)
  | S754_zero _ => (0, 0, 0)
  | S754_infinity s => (if s then -2 else 2, 0, 0)
  | S754_finite s m e => if s then (-1, - e, Z.neg m) else (1, e, Z.pos m)
  end.

Definition keyLe (a b : Z * Z * Z) : Prop :=
  fst (fst a) < fst (fst b) \/
  (fst (fst a) = fst (fst b) /\
   (snd (fst a) < snd (fst b) \/ (snd (fst a) = snd (fst b) /\ snd a <= snd b))).

(** No validation of the stream ranks a NaN: the metric under the
    configured name, once normalized, is a number. *)
Definition ranksNoNaN (cfg : F64.AsyncHalvingConfig) (ev : F64.Event) : Prop :=
  match ev with
  | F64.ValidationCompleted _ _ v =>
      match F64.metricOf v (F64.Metric cfg) with
      | inl raw => F64.math_IsNaN (F64.normalized cfg raw) = false
      | inr _ => True
      end
  | _ => True
  end.

(** What the recursive call of [promote] must deliver for sortedness. *)
Definition recSorted64
  (rec : context -> F64.asyncHalvingSearch -> RequestID -> Workload -> F64.float64 ->
         option (list Operation * F64.asyncHalvingSearch * context)) : Prop :=
  forall ctx s pid w m ops' s' ctx',
    rungsSorted64 (F64.rungs s) -> F64.math_IsNaN m = false ->
    rec ctx s pid w m = Some (ops', s', ctx') -> rungsSorted64 (F64.rungs s').

(** The rational a finite float64 stands for (0 for the others). *)
Definition valueOf (x : F64.float64) : Q :=
  match x with
  | S754_finite s m e =>
      ((if s then -1 else 1) * inject_Z (Z.pos m) * 2 ^ e)%Q
  | _ => 0%Q
  end.

(** The float64 constant [2.1]. *)
Definition twoPointOne : F64.float64 :=
  F64.float64_div (F64.float64_of_int 21) (F64.float64_of_int 10).

(** A rung with the results 1, 2, ..., n of the trials 0, ..., n-1, the
    first [p] of them promoted. *)
Definition countingRung (n p : nat) : F64.rung :=
  F64.mkRung 1 0
    ((fun j => F64.mkTrialMetric j (F64.float64_of_int (Z.of_nat j + 1)) (j <? p)%nat false)
       <$> seq 0 n).

(** Validation metrics that report [x] under the configured name. *)
Definition report64 (x : F64.float64) : gmap string F64.float64 :=
  {[ "loss"%string := x ]}.

(** Two rungs, divisor 2, [max_length = 4], eight trials, three at a time. *)
Definition twoRungs64 : F64.AsyncHalvingConfig :=
  F64.mkConfig "loss" true 4 8 (F64.float64_of_int 2) 2 3.

(** The results 2, NaN and 1 of the first three trials. *)
Definition nanSecond : list F64.Event :=
  [F64.ValidationCompleted 0%nat msg0 (report64 (F64.float64_of_int 2));
   F64.ValidationCompleted 1%nat msg0 (report64 F64.NaN);
   F64.ValidationCompleted 2%nat msg0 (report64 (F64.float64_of_int 1))].

(** The results 2, +Inf and 1 of the first three trials. *)
Definition infSecond : list F64.Event :=
  [F64.ValidationCompleted 0%nat msg0 (report64 (F64.float64_of_int 2));
   F64.ValidationCompleted 1%nat msg0 (report64 (F64.Inf false));
   F64.ValidationCompleted 2%nat msg0 (report64 (F64.float64_of_int 1))].

(** The float64 constant [2.2], and a ladder of four rungs on it. *)
Definition twoPointTwo : F64.float64 :=
  F64.float64_div (F64.float64_of_int 22) (F64.float64_of_int 10).

Definition fourRungs64 : F64.AsyncHalvingConfig :=
  F64.mkConfig "loss" true 10648 8 twoPointTwo 4 3.

(** The default ladder, on float64. *)
Definition fiveRungs64 : F64.AsyncHalvingConfig :=
  F64.mkConfig "loss" true 16 8 (F64.float64_of_int 4) 5 3.

(** Divisor 4 and 33 rungs: [4^32] does not fit an [int]. *)
Definition deepLadder64 : F64.AsyncHalvingConfig :=
  F64.mkConfig "loss" true 16 5 (F64.float64_of_int 4) 33 0.

(** A single rung, three trials all created, two of them still out and
    one completed. *)
Definition oneThird64 : F64.asyncHalvingSearch :=
  F64.mkSearch (F64.mkConfig "loss" true 16 3 (F64.float64_of_int 4) 1 3)
    [F64.mkRung 16 2 []]
    (<[2%nat := 0%nat]> (<[1%nat := 0%nat]> (<[0%nat := 0%nat]> ∅))) ∅ 3 1.

(** * Properties *)

(** ** Arithmetic of the promotion count *)

Section PromotionCount.

(** For a positive divisor [a/b] the count is an integer quotient. *)
Lemma numPromoteOf_quotient (n : nat) (a b : positive) :
  numPromoteOf n (Z.pos a # b) = Z.of_nat n * Z.pos b / Z.pos a.
Proof.
  unfold numPromoteOf, int_of_float64, float64_of_int, Qdiv, Qinv, Qmult; simpl.
  rewrite Z.quot_div_nonneg by lia. reflexivity.
Qed.

Lemma positive_divisor (d : Q) :
  (1 <= d)%Q -> exists a b, d = (Z.pos a # b) /\ Z.pos b <= Z.pos a.
Proof.
  destruct d as [[|a|a] b]; unfold Qle; simpl; intros H; try lia.
  exists a, b. split; [reflexivity | lia].
Qed.


Lemma numPromoteOf_nonneg (n : nat) (d : Q) :
  (1 <= d)%Q -> 0 <= numPromoteOf n d.
Proof.
  intros Hd. destruct (positive_divisor d Hd) as (a & b & -> & _).
  rewrite numPromoteOf_quotient. apply Z.div_pos; lia.
Qed.

Lemma numPromoteOf_le_len (n : nat) (d : Q) :
  (1 <= d)%Q -> numPromoteOf n d <= Z.of_nat n.
Proof.
  intros Hd. destruct (positive_divisor d Hd) as (a & b & -> & Hab).
  rewrite numPromoteOf_quotient. apply Z.div_le_upper_bound; nia.
Qed.

Lemma numPromoteOf_mono (n : nat) (d : Q) :
  (1 <= d)%Q -> numPromoteOf n d <= numPromoteOf (n + 1) d.
Proof.
  intros Hd. destruct (positive_divisor d Hd) as (a & b & -> & Hab).
  rewrite !numPromoteOf_quotient. apply Z.div_le_mono; nia.
Qed.

(** One more result opens at most one more slot. *)
Lemma numPromoteOf_step (n : nat) (d : Q) :
  (1 <= d)%Q -> numPromoteOf (n + 1) d <= numPromoteOf n d + 1.
Proof.
  intros Hd. destruct (positive_divisor d Hd) as (a & b & -> & Hab).
  rewrite !numPromoteOf_quotient.
  replace (Z.of_nat n * Z.pos b / Z.pos a + 1)
    with ((Z.of_nat n * Z.pos b + 1 * Z.pos a) / Z.pos a)
    by (rewrite Z.div_add by lia; reflexivity).
  apply Z.div_le_mono; nia.
Qed.

End PromotionCount.

(** ** Binary search *)

Section BinarySearch.

Variable f : nat -> bool.
Variable n : nat.

(** [f] is false, then true, on the indices below [n]. *)
Hypothesis f_monotone :
  forall a b : nat, (a <= b)%nat -> (b < n)%nat -> f a = true -> f b = true.

Lemma search_loop_least (turns i j : nat) :
  (i <= j)%nat -> (j <= n)%nat -> (j - i <= turns)%nat ->
  (forall k, (k < i)%nat -> f k = false) ->
  (forall k, (j <= k)%nat -> (k < n)%nat -> f k = true) ->
  let r := search_loop turns f i j in
  (r <= n)%nat /\
  (forall k, (k < r)%nat -> f k = false) /\
  (forall k, (r <= k)%nat -> (k < n)%nat -> f k = true).
Proof.
  revert i j. induction turns as [|turns IH]; intros i j Hij Hjn Hfuel Hlo Hhi;
    cbn [search_loop].
  - assert (i = j) by lia. subst. repeat split; [lia | assumption | assumption].
  - destruct (Nat.ltb_spec i j) as [Hlt | Hge].
    + pose proof (Nat.div_mod_eq (i + j) 2) as Hdiv.
      pose proof (Nat.mod_upper_bound (i + j) 2 ltac:(lia)) as Hmod.
      set (h := ((i + j) / 2)%nat) in *.
      assert (Hh : (i <= h < j)%nat) by lia.
      destruct (f h) eqn:Hfh; cbn [negb].
      * apply IH; try lia; try assumption.
        intros k Hk1 Hk2. apply (f_monotone h k); [lia | lia | assumption].
      * apply IH; try lia; try assumption.
        intros k Hk. destruct (f k) eqn:Hfk; [|reflexivity].
        rewrite (f_monotone k h) in Hfh; [discriminate | lia | lia | assumption].
    + assert (i = j) by lia. subst. repeat split; [lia | assumption | assumption].
Qed.

Lemma sort_Search_least :
  let r := sort_Search n f in
  (r <= n)%nat /\
  (forall k, (k < r)%nat -> f k = false) /\
  (forall k, (r <= k)%nat -> (k < n)%nat -> f k = true).
Proof.
  unfold sort_Search. apply search_loop_least; try lia.
Qed.

End BinarySearch.

(** The search only looks at [f] below [n]: what the closure would answer
    out of range (in Go, a panic) never matters. *)
Lemma search_loop_ext (f g : nat -> bool) (n turns i j : nat) :
  (j <= n)%nat -> (forall k, (k < n)%nat -> f k = g k) ->
  search_loop turns f i j = search_loop turns g i j.
Proof.
  intros Hjn Hfg. revert i j Hjn.
  induction turns as [|turns IH]; intros i j Hjn; cbn [search_loop]; [reflexivity|].
  destruct (Nat.ltb_spec i j) as [Hlt | Hge]; [|reflexivity].
  pose proof (Nat.div_mod_eq (i + j) 2) as Hdiv.
  pose proof (Nat.mod_upper_bound (i + j) 2 ltac:(lia)) as Hmod.
  set (h := ((i + j) / 2)%nat) in *.
  rewrite (Hfg h) by lia.
  destruct (g h); cbn [negb]; apply IH; lia.
Qed.

Lemma sort_Search_ext (f g : nat -> bool) (n : nat) :
  (forall k, (k < n)%nat -> f k = g k) -> sort_Search n f = sort_Search n g.
Proof.
  intros Hfg. unfold sort_Search. apply search_loop_ext with (n := n); [lia | exact Hfg].
Qed.

(** ** Sorted rungs and the insertion index *)

Lemma sortedByMetric_cons (a : trialMetric) (ms : list trialMetric) :
  (forall b, b ∈ ms -> (metric a <= metric b)%Q) ->
  sortedByMetric ms -> sortedByMetric (a :: ms).
Proof.
  intros Ha Hms [|i] [|j] x y Hij Hx Hy; simpl in *; try lia.
  - inversion Hx; inversion Hy; subst. apply Qle_refl.
  - inversion Hx; subst. apply Ha. eapply list_elem_of_lookup_2; eassumption.
  - apply (Hms i j); [lia | assumption | assumption].
Qed.

Lemma sortedByMetric_tail (a : trialMetric) (ms : list trialMetric) :
  sortedByMetric (a :: ms) -> sortedByMetric ms.
Proof.
  intros H i j x y Hij Hx Hy. apply (H (S i) (S j)); [lia | assumption | assumption].
Qed.

Lemma sortedByMetricb_sound (ms : list trialMetric) :
  sortedByMetricb ms = true -> sortedByMetric ms.
Proof.
  induction ms as [|a ms IH]; intros H.
  - intros i j x y _ Hx. rewrite lookup_nil in Hx. discriminate.
  - destruct ms as [|b ms].
    + apply sortedByMetric_cons; [|intros i j x y _ Hx; rewrite lookup_nil in Hx; discriminate].
      intros c Hc. inversion Hc.
    + simpl in H. apply andb_true_iff in H as [Hab Hrest].
      apply Qle_bool_iff in Hab. specialize (IH Hrest).
      apply sortedByMetric_cons; [|assumption].
      intros c Hc. apply list_elem_of_lookup in Hc as [k Hk].
      eapply Qle_trans; [exact Hab|].
      apply (IH 0%nat k b c); [lia | reflexivity | assumption].
Qed.

Lemma float64_gt_true (x y : Q) : float64_gt x y = true <-> (y < x)%Q.
Proof.
  unfold float64_gt. rewrite negb_true_iff. split.
  - intros H. apply Qnot_le_lt. intros Hle. apply Qle_bool_iff in Hle. congruence.
  - intros H. destruct (Qle_bool x y) eqn:E; [|reflexivity].
    apply Qle_bool_iff in E. exfalso. eapply Qlt_not_le; eassumption.
Qed.

Lemma float64_gt_false (x y : Q) : float64_gt x y = false <-> (x <= y)%Q.
Proof.
  unfold float64_gt. rewrite negb_false_iff. apply Qle_bool_iff.
Qed.

Lemma worseThan_monotone (ms : list trialMetric) (m : Q) :
  sortedByMetric ms ->
  forall a b : nat, (a <= b)%nat -> (b < length ms)%nat ->
    worseThan ms m a = true -> worseThan ms m b = true.
Proof.
  intros Hs a b Hab Hb. unfold worseThan.
  destruct (ms !! a) as [ta|] eqn:Ha; [|discriminate].
  destruct (lookup_lt_is_Some_2 ms b Hb) as [tb Htb]. rewrite Htb.
  rewrite !float64_gt_true. intros Hlt.
  eapply Qlt_le_trans; [exact Hlt|]. apply (Hs a b); assumption.
Qed.

Lemma insertIndexOf_spec (ms : list trialMetric) (m : Q) :
  sortedByMetric ms ->
  (insertIndexOf ms m <= length ms)%nat /\
  (forall j t, (j < insertIndexOf ms m)%nat -> ms !! j = Some t -> (metric t <= m)%Q) /\
  (forall j t, (insertIndexOf ms m <= j)%nat -> ms !! j = Some t -> (m < metric t)%Q).
Proof.
  intros Hs.
  destruct (sort_Search_least (worseThan ms m) (length ms) (worseThan_monotone ms m Hs))
    as (Hle & Hlo & Hhi).
  fold (insertIndexOf ms m) in Hle, Hlo, Hhi.
  split; [assumption|]. split.
  - intros j t Hj Ht. specialize (Hlo j Hj). unfold worseThan in Hlo.
    rewrite Ht in Hlo. apply float64_gt_false. assumption.
  - intros j t Hj Ht. pose proof (lookup_lt_Some _ _ _ Ht) as Hlen.
    specialize (Hhi j Hj Hlen). unfold worseThan in Hhi.
    rewrite Ht in Hhi. apply float64_gt_true. assumption.
Qed.

Lemma insertAt_length (ms : list trialMetric) (i : nat) (t : trialMetric) :
  (i <= length ms)%nat -> length (insertAt ms i t) = S (length ms).
Proof.
  intros Hi. unfold insertAt.
  rewrite length_app, length_take; simpl. rewrite length_drop. lia.
Qed.

Lemma insertAt_lookup_lt (ms : list trialMetric) (i j : nat) (t : trialMetric) :
  (i <= length ms)%nat -> (j < i)%nat -> insertAt ms i t !! j = ms !! j.
Proof.
  intros Hi Hj. unfold insertAt.
  rewrite lookup_app_l by (rewrite length_take; lia).
  apply lookup_take_lt. assumption.
Qed.

Lemma insertAt_lookup_eq (ms : list trialMetric) (i : nat) (t : trialMetric) :
  (i <= length ms)%nat -> insertAt ms i t !! i = Some t.
Proof.
  intros Hi. unfold insertAt.
  rewrite lookup_app_r by (rewrite length_take; lia).
  rewrite length_take. replace (i - i `min` length ms)%nat with 0%nat by lia.
  reflexivity.
Qed.

Lemma insertAt_lookup_gt (ms : list trialMetric) (i j : nat) (t : trialMetric) :
  (i <= length ms)%nat -> (i < j)%nat -> insertAt ms i t !! j = ms !! (j - 1)%nat.
Proof.
  intros Hi Hj. unfold insertAt.
  rewrite lookup_app_r by (rewrite length_take; lia).
  rewrite length_take. replace (j - i `min` length ms)%nat with (S (j - i - 1)) by lia.
  simpl. rewrite lookup_drop. f_equal. lia.
Qed.

(** Every old entry is still there, and so is the new one. *)
Lemma insertAt_elem (ms : list trialMetric) (i : nat) (t u : trialMetric) :
  u ∈ insertAt ms i t <-> u = t \/ u ∈ ms.
Proof.
  unfold insertAt. rewrite elem_of_app, elem_of_cons.
  rewrite <- (take_drop i ms) at 3. rewrite elem_of_app. tauto.
Qed.

Lemma insertAt_sorted (ms : list trialMetric) (t : trialMetric) :
  sortedByMetric ms ->
  sortedByMetric (insertAt ms (insertIndexOf ms (metric t)) t).
Proof.
  intros Hs. destruct (insertIndexOf_spec ms (metric t) Hs) as (Hle & Hlo & Hhi).
  set (i := insertIndexOf ms (metric t)) in *.
  intros a b x y Hab Hx Hy.
  destruct (lt_eq_lt_dec a i) as [[Ha | Ha] | Ha];
    destruct (lt_eq_lt_dec b i) as [[Hb | Hb] | Hb]; try lia; subst;
    repeat match goal with
    | H : insertAt _ _ _ !! ?k = _ |- _ =>
        first [ rewrite insertAt_lookup_lt in H by lia
              | rewrite insertAt_lookup_eq in H by lia
              | rewrite insertAt_lookup_gt in H by lia ];
        try (injection H as <-)
    end; simpl.
  - apply (Hs a b); assumption.
  - apply (Hlo a); assumption.
  - eapply Qle_trans; [apply (Hlo a x Ha Hx)|].
    apply Qlt_le_weak. apply (Hhi (b - 1)%nat); [lia | assumption].
  - apply Qle_refl.
  - apply Qlt_le_weak. apply (Hhi (b - 1)%nat); [lia | assumption].
  - apply (Hs (a - 1)%nat (b - 1)%nat); [lia | assumption | assumption].
Qed.

(** Sortedness only looks at the metrics. *)
Lemma sortedByMetric_same_metrics (ms ms' : list trialMetric) :
  metric <$> ms = metric <$> ms' -> sortedByMetric ms -> sortedByMetric ms'.
Proof.
  intros Heq Hs i j a b Hij Ha Hb.
  assert (Hfa : (metric <$> ms) !! i = Some (metric a))
    by (rewrite Heq, list_lookup_fmap, Ha; reflexivity).
  assert (Hfb : (metric <$> ms) !! j = Some (metric b))
    by (rewrite Heq, list_lookup_fmap, Hb; reflexivity).
  rewrite list_lookup_fmap in Hfa, Hfb.
  destruct (ms !! i) as [a'|] eqn:Ha'; [|discriminate].
  destruct (ms !! j) as [b'|] eqn:Hb'; [|discriminate].
  simpl in Hfa, Hfb. injection Hfa as <-. injection Hfb as <-.
  apply (Hs i j); assumption.
Qed.

Lemma set_promoted_same_metrics (ms : list trialMetric) (k : nat) (t : trialMetric) (b : bool) :
  ms !! k = Some t -> metric <$> <[k := set_promoted t b]> ms = metric <$> ms.
Proof.
  intros Hk. rewrite list_fmap_insert. simpl.
  apply list_insert_id. rewrite list_lookup_fmap, Hk. reflexivity.
Qed.

(** The three ways out of [promotionsAsync], on a sorted rung. *)
Lemma promotionsAsync_cases (r : rung) (id : RequestID) (m d : Q) :
  sortedByMetric (metrics r) -> (1 <= d)%Q ->
  let n := length (metrics r) in
  let i := insertIndexOf (metrics r) m in
  let old := numPromoteOf n d in
  let new := numPromoteOf (n + 1) d in
  let inserted := insertAt (metrics r) i (mkTrialMetric id m (Z.of_nat i <? new) false) in
  (Z.of_nat i < new /\ promotionsAsync r id m d = Some ([id], set_metrics r inserted)) \/
  (new <= Z.of_nat i /\
   exists t, inserted !! Z.to_nat old = Some t /\
     ((old < new /\ promoted t = false /\
       promotionsAsync r id m d =
         Some ([requestID t],
               set_metrics r (<[Z.to_nat old := set_promoted t true]> inserted))) \/
      ((old = new \/ promoted t = true) /\
       promotionsAsync r id m d = Some ([], set_metrics r inserted)))).
Proof.
  intros Hs Hd. cbv zeta.
  pose proof (numPromoteOf_nonneg (length (metrics r)) d Hd) as Hold0.
  pose proof (numPromoteOf_le_len (length (metrics r)) d Hd) as Holdn.
  pose proof (numPromoteOf_mono (length (metrics r)) d Hd) as Hmono.
  destruct (insertIndexOf_spec (metrics r) m Hs) as (Hle & _).
  unfold promotionsAsync. fold (insertIndexOf (metrics r) m).
  set (n := length (metrics r)) in *.
  set (i := insertIndexOf (metrics r) m) in *.
  set (old := numPromoteOf n d) in *.
  set (new := numPromoteOf (n + 1) d) in *.
  destruct (Z.ltb_spec (Z.of_nat i) new) as [Hnow | Hnow].
  - left. split; [assumption | reflexivity].
  - right. split; [assumption|].
    set (inserted := insertAt (metrics r) i (mkTrialMetric id m false false)).
    assert (Hlen : length inserted = S n) by (apply insertAt_length; assumption).
    destruct (lookup_lt_is_Some_2 inserted (Z.to_nat old)) as [t Ht]; [lia|].
    exists t. split; [assumption|].
    unfold metricAt. destruct (Z.ltb_spec old 0) as [?|_]; [lia|]. rewrite Ht.
    destruct (Z.eqb_spec new old) as [Heq | Hne]; simpl.
    + right. split; [left; congruence | reflexivity].
    + destruct (promoted t) eqn:Hp; simpl.
      * right. split; [right; reflexivity | reflexivity].
      * left. split; [lia|]. split; reflexivity.
Qed.

(** ** The rung invariant *)

Lemma entriesKept_refl (ms : list trialMetric) : entriesKept ms ms.
Proof. intros t Ht. exists t. tauto. Qed.

Lemma entriesKept_trans (a b c : list trialMetric) :
  entriesKept a b -> entriesKept b c -> entriesKept a c.
Proof.
  intros Hab Hbc t Ht.
  destruct (Hab t Ht) as (t1 & H1 & Hid1 & Hm1 & Hc1).
  destruct (Hbc t1 H1) as (t2 & H2 & Hid2 & Hm2 & Hc2).
  exists t2. repeat split; [assumption | congruence | congruence | tauto].
Qed.

Lemma entriesKept_insertAt (ms : list trialMetric) (i : nat) (t : trialMetric) :
  entriesKept ms (insertAt ms i t).
Proof.
  intros u Hu. exists u. split; [apply insertAt_elem; tauto | tauto].
Qed.

Lemma entriesKept_set_promoted (ms : list trialMetric) (k : nat) (t : trialMetric) (b : bool) :
  ms !! k = Some t -> entriesKept ms (<[k := set_promoted t b]> ms).
Proof.
  intros Hk u Hu. apply list_elem_of_lookup in Hu as [j Hj].
  destruct (decide (j = k)) as [-> | Hne].
  - assert (u = t) by congruence. subst u.
    exists (set_promoted t b). split; [|simpl; tauto].
    apply list_elem_of_lookup. exists k.
    apply list_lookup_insert_eq. eapply lookup_lt_Some; eassumption.
  - exists u. split; [|tauto]. apply list_elem_of_lookup. exists j.
    rewrite list_lookup_insert_ne by congruence. assumption.
Qed.

Lemma elem_of_set_promoted (ms : list trialMetric) (k : nat) (t u : trialMetric) (b : bool) :
  ms !! k = Some t -> u ∈ <[k := set_promoted t b]> ms ->
  exists v, v ∈ ms /\ requestID v = requestID u /\ metric v = metric u /\ closed v = closed u.
Proof.
  intros Hk Hu. apply list_elem_of_lookup in Hu as [j Hj].
  destruct (decide (j = k)) as [-> | Hne].
  - rewrite list_lookup_insert_eq in Hj by (eapply lookup_lt_Some; eassumption).
    injection Hj as <-. exists t. split; [|simpl; tauto].
    eapply list_elem_of_lookup_2; eassumption.
  - rewrite list_lookup_insert_ne in Hj by congruence.
    exists u. split; [|tauto]. eapply list_elem_of_lookup_2; eassumption.
Qed.

(** [promotionsAsync] returns on a rung that satisfies the invariant, keeps
    the invariant, and promotes at most one trial, taken from the rung. *)
Lemma promotionsAsync_keeps (r : rung) (id : RequestID) (m d : Q) :
  rungInv d r -> (1 <= d)%Q ->
  exists promos r',
    promotionsAsync r id m d = Some (promos, r') /\
    rungInv d r' /\
    stepsNeeded r' = stepsNeeded r /\
    outstandingTrials r' = outstandingTrials r /\
    (length promos <= 1)%nat /\
    (forall pid, pid ∈ promos -> exists t, t ∈ metrics r' /\ requestID t = pid) /\
    entriesKept (metrics r) (metrics r') /\
    idsFrom id (metrics r) (metrics r') /\
    (exists t, t ∈ metrics r' /\ requestID t = id /\ metric t = m).
Proof.
  intros [Hs Htop] Hd.
  pose proof (numPromoteOf_step (length (metrics r)) d Hd) as Hstep.
  pose proof (numPromoteOf_nonneg (length (metrics r)) d Hd) as Hold0.
  destruct (insertIndexOf_spec (metrics r) m Hs) as (Hle & _).
  pose proof (insertAt_sorted (metrics r)
                (mkTrialMetric id m
                   (Z.of_nat (insertIndexOf (metrics r) m) <?
                    numPromoteOf (length (metrics r) + 1) d) false) Hs) as Hsorted.
  simpl in Hsorted.
  destruct (promotionsAsync_cases r id m d Hs Hd) as
    [[Hnow Heq] | (Hnow & t & Ht & [(Hlt & Hp & Heq) | (Hor & Heq)])];
    rewrite Heq; clear Heq;
    set (n := length (metrics r)) in *;
    set (i := insertIndexOf (metrics r) m) in *;
    set (old := numPromoteOf n d) in *;
    set (new := numPromoteOf (n + 1) d) in *;
    set (e := mkTrialMetric id m (Z.of_nat i <? new) false) in *;
    assert (Hlen : length (insertAt (metrics r) i e) = S n)
      by (apply insertAt_length; assumption);
    assert (Hnew : e ∈ insertAt (metrics r) i e) by (apply insertAt_elem; tauto);
    eexists _, _; (split; [reflexivity|]); unfold rungInv; simpl.
  - (* promoted on arrival *)
    split; [split; [assumption|]|].
    + intros j Hj. rewrite Hlen in Hj. replace (S n) with (n + 1)%nat in Hj by lia.
      fold new in Hj.
      destruct (lt_eq_lt_dec j i) as [[Hji | ->] | Hji].
      * rewrite insertAt_lookup_lt by lia. apply Htop. fold n old. lia.
      * rewrite insertAt_lookup_eq by lia. exists e. split; [reflexivity|]. simpl.
        apply Z.ltb_lt. assumption.
      * rewrite insertAt_lookup_gt by lia. apply Htop. fold n old. lia.
    + repeat split; try reflexivity; try lia.
      * intros pid Hpid. apply list_elem_of_singleton in Hpid as ->.
        exists e. split; [assumption | reflexivity].
      * apply entriesKept_insertAt.
      * intros u Hu. apply insertAt_elem in Hu as [-> | Hu]; [left; reflexivity|].
        right. exists u. tauto.
      * exists e. repeat split; assumption.
  - (* the slot that opened is promoted *)
    assert (Hk : (Z.to_nat old < i)%nat) by lia.
    split; [split|].
    + eapply sortedByMetric_same_metrics; [|exact Hsorted].
      symmetry. apply set_promoted_same_metrics. assumption.
    + intros j Hj. rewrite length_insert, Hlen in Hj.
      replace (S n) with (n + 1)%nat in Hj by lia. fold new in Hj.
      destruct (decide (j = Z.to_nat old)) as [-> | Hne].
      * rewrite list_lookup_insert_eq by lia.
        exists (set_promoted t true). split; reflexivity.
      * rewrite list_lookup_insert_ne by congruence.
        rewrite insertAt_lookup_lt by lia. apply Htop. fold n old. lia.
    + repeat split; try reflexivity; try lia.
      * intros pid Hpid. apply list_elem_of_singleton in Hpid as ->.
        exists (set_promoted t true). split; [|reflexivity].
        apply list_elem_of_lookup. exists (Z.to_nat old).
        apply list_lookup_insert_eq. lia.
      * eapply entriesKept_trans; [apply entriesKept_insertAt|].
        apply entriesKept_set_promoted. assumption.
      * intros u Hu.
        destruct (elem_of_set_promoted _ _ _ _ _ Ht Hu) as (v & Hv & Hid & _).
        apply insertAt_elem in Hv as [-> | Hv]; [left; simpl in Hid; congruence|].
        right. exists v. tauto.
      * destruct (entriesKept_set_promoted _ _ _ true Ht e Hnew) as (e' & He' & Hid & Hm & _).
        exists e'. repeat split; assumption.
  - (* nobody is promoted *)
    split; [split; [assumption|]|].
    + intros j Hj. rewrite Hlen in Hj. replace (S n) with (n + 1)%nat in Hj by lia.
      fold new in Hj.
      destruct (decide (j = Z.to_nat old)) as [-> | Hne].
      * destruct Hor as [Hor | Hor]; [lia|]. exists t. split; assumption.
      * rewrite insertAt_lookup_lt by lia. apply Htop. fold n old. lia.
    + repeat split; try reflexivity; try lia.
      * intros pid Hpid. inversion Hpid.
      * apply entriesKept_insertAt.
      * intros u Hu. apply insertAt_elem in Hu as [-> | Hu]; [left; reflexivity|].
        right. exists u. tauto.
      * exists e. repeat split; assumption.
Qed.

(** ** Draining: closeOutRungs *)

Lemma closeEntry_fields (t : trialMetric) :
  requestID (closeEntry t) = requestID t /\ metric (closeEntry t) = metric t /\
  promoted (closeEntry t) = promoted t /\ (closed t = true -> closed (closeEntry t) = true).
Proof.
  unfold closeEntry. destruct (negb (promoted t) && negb (closed t)); simpl; tauto.
Qed.

Lemma closeOutMetrics_metrics (early : gmap nat bool) (ms : list trialMetric) (c : Z) :
  (closeOutMetrics early ms c).1.2 = closeEntry <$> ms.
Proof.
  revert c. induction ms as [|t ms IH]; intros c; simpl; [reflexivity|].
  unfold closeEntry at 1.
  destruct (negb (promoted t) && negb (closed t)).
  - specialize (IH (int_incr c)).
    destruct (closeOutMetrics early ms (int_incr c)) as [[ops ms'] c'].
    simpl in *. subst ms'. reflexivity.
  - specialize (IH c). destruct (closeOutMetrics early ms c) as [[ops ms'] c'].
    simpl in *. subst ms'. reflexivity.
Qed.

(** The drain only emits [Close], for entries it found open and closes. *)
Lemma closeOutMetrics_ops (early : gmap nat bool) (ms : list trialMetric) (c : Z) (op : Operation) :
  op ∈ (closeOutMetrics early ms c).1.1 ->
  exists t, t ∈ ms /\ op = Close (requestID t) /\ closed (closeEntry t) = true.
Proof.
  revert c. induction ms as [|t ms IH]; intros c; simpl; [intros H; inversion H|].
  destruct (negb (promoted t) && negb (closed t)) eqn:E.
  - specialize (IH (int_incr c)).
    destruct (closeOutMetrics early ms (int_incr c)) as [[ops ms'] c'].
    simpl in *. rewrite elem_of_app. intros [Hop | Hop].
    + exists t. split; [left|]. split.
      * destruct (negb (default false (early !! requestID t))); simpl in Hop;
          repeat (apply elem_of_cons in Hop as [-> | Hop]; [reflexivity|]);
          inversion Hop.
      * unfold closeEntry. rewrite E. reflexivity.
    + destruct (IH Hop) as (u & Hu & Heq & Hc). exists u. split; [right; assumption | tauto].
  - specialize (IH c). destruct (closeOutMetrics early ms c) as [[ops ms'] c'].
    simpl in *. intros Hop.
    destruct (IH Hop) as (u & Hu & Heq & Hc). exists u. split; [right; assumption | tauto].
Qed.

Lemma closeOutLoop_rungs (early : gmap nat bool) (rs : list rung) (c : Z) :
  Forall2 drainStep rs (closeOutLoop early rs c).1.2.
Proof.
  revert c. induction rs as [|r rs IH]; intros c; simpl; [constructor|].
  destruct (outstandingTrials r >? 0); simpl.
  - apply Forall_Forall2_diag, Forall_forall. intros x _. left. reflexivity.
  - pose proof (closeOutMetrics_metrics early (metrics r) c) as Hms.
    destruct (closeOutMetrics early (metrics r) c) as [[ops1 ms] c1]. simpl in Hms.
    specialize (IH c1). destruct (closeOutLoop early rs c1) as [[ops2 rs'] c2].
    simpl in *. constructor; [|assumption].
    right. unfold drained. subst ms. reflexivity.
Qed.

Lemma closeOutLoop_ops (early : gmap nat bool) (rs : list rung) (c : Z) (op : Operation) :
  op ∈ (closeOutLoop early rs c).1.1 ->
  exists (j : nat) (r : rung) (t : trialMetric),
    rs !! j = Some r /\ (snd (fst (closeOutLoop early rs c))) !! j = Some (drained r) /\
    t ∈ metrics r /\ op = Close (requestID t) /\ closed (closeEntry t) = true.
Proof.
  revert c. induction rs as [|r rs IH]; intros c; simpl; [intros H; inversion H|].
  destruct (outstandingTrials r >? 0); simpl; [intros H; inversion H|].
  pose proof (closeOutMetrics_metrics early (metrics r) c) as Hms.
  pose proof (closeOutMetrics_ops early (metrics r) c op) as Hops.
  destruct (closeOutMetrics early (metrics r) c) as [[ops1 ms] c1]. simpl in Hms, Hops.
  specialize (IH c1). destruct (closeOutLoop early rs c1) as [[ops2 rs'] c2].
  simpl in *. rewrite elem_of_app. intros [Hop | Hop].
  - destruct (Hops Hop) as (t & Ht & Heq & Hc).
    exists 0%nat, r, t. simpl. unfold drained. subst ms. tauto.
  - destruct (IH Hop) as (j & r0 & t & Hj & Hj' & Ht & Heq & Hc).
    exists (S j), r0, t. simpl. tauto.
Qed.

Lemma drained_rungInv (d : Q) (r : rung) : rungInv d r -> rungInv d (drained r).
Proof.
  intros [Hs Htop]. split; simpl.
  - eapply sortedByMetric_same_metrics; [|exact Hs].
    rewrite <- list_fmap_compose. apply list_fmap_ext.
    intros i t _. simpl. symmetry. apply closeEntry_fields.
  - intros j Hj. rewrite length_fmap in Hj.
    destruct (Htop j Hj) as (t & Ht & Hp). exists (closeEntry t).
    rewrite list_lookup_fmap, Ht. split; [reflexivity|].
    destruct (closeEntry_fields t) as (_ & _ & -> & _). assumption.
Qed.

Lemma drained_entriesKept (r : rung) : entriesKept (metrics r) (metrics (drained r)).
Proof.
  intros t Ht. exists (closeEntry t). split.
  - simpl. apply list_elem_of_fmap. exists t. tauto.
  - destruct (closeEntry_fields t) as (? & ? & _ & ?). tauto.
Qed.

Lemma drained_idsFrom (r : rung) (t' : trialMetric) :
  t' ∈ metrics (drained r) -> exists t, t ∈ metrics r /\ requestID t = requestID t'.
Proof.
  simpl. intros H. apply list_elem_of_fmap in H as (t & -> & Ht).
  exists t. split; [assumption|]. symmetry. apply closeEntry_fields.
Qed.

(** ** Well-formed searchers *)

Lemma elem_of_rung_insert (rs : list rung) (k : nat) (r r' : rung) :
  r ∈ <[k := r']> rs -> r = r' \/ r ∈ rs.
Proof.
  intros H. apply list_elem_of_lookup in H as [j Hj].
  destruct (decide (k = j)) as [-> | Hne].
  - destruct (decide (j < length rs)%nat) as [Hlt | Hge].
    + rewrite list_lookup_insert_eq in Hj by assumption. left. congruence.
    + rewrite list_insert_ge in Hj by lia. right.
      eapply list_elem_of_lookup_2; eassumption.
  - rewrite list_lookup_insert_ne in Hj by assumption. right.
    eapply list_elem_of_lookup_2; eassumption.
Qed.

Lemma idsIn_insert (D : RequestID -> Prop) (rs : list rung) (k : nat) (r' : rung) :
  idsIn D rs -> (forall t, t ∈ metrics r' -> D (requestID t)) ->
  idsIn D (<[k := r']> rs).
Proof.
  intros Hrs Hr' r t Hr Ht.
  apply elem_of_rung_insert in Hr as [-> | Hr]; [auto | eauto].
Qed.

Lemma idsIn_mono (D D' : RequestID -> Prop) (rs : list rung) :
  (forall id, D id -> D' id) -> idsIn D rs -> idsIn D' rs.
Proof. intros HD Hrs r t Hr Ht. eauto. Qed.

Lemma idsIn_lookup (D : RequestID -> Prop) (rs : list rung) (k : nat) (r : rung) (t : trialMetric) :
  idsIn D rs -> rs !! k = Some r -> t ∈ metrics r -> D (requestID t).
Proof.
  intros Hrs Hk Ht. apply (Hrs r t); [|assumption].
  eapply list_elem_of_lookup_2; eassumption.
Qed.

Lemma known_insert (m : gmap nat nat) (id id' k : nat) :
  is_Some (m !! id') -> is_Some (<[id := k]> m !! id').
Proof.
  intros H. destruct (decide (id = id')) as [-> | Hne].
  - rewrite lookup_insert_eq. eauto.
  - rewrite lookup_insert_ne by assumption. assumption.
Qed.

Lemma size_insert_known (m : gmap nat nat) (id k : nat) :
  is_Some (m !! id) -> size (<[id := k]> m) = size m.
Proof.
  apply map_size_insert_Some.
Qed.

Lemma size_insert_bounds (m : gmap nat nat) (id k : nat) :
  (size m <= size (<[id := k]> m) <= S (size m))%nat.
Proof.
  rewrite map_size_insert. destruct (m !! id); simpl; lia.
Qed.

Lemma rungInv_set_outstanding (d : Q) (r : rung) (n : Z) :
  rungInv d r -> rungInv d (set_outstanding r n).
Proof. intros H. exact H. Qed.

Lemma rungOf_bound (s : asyncHalvingSearch) (id : RequestID) :
  wellFormed s -> (rungOf s id < length (rungs s))%nat.
Proof.
  intros Hwf. unfold rungOf.
  destruct (trialRungs s !! id) as [k|] eqn:Hk; simpl.
  - eapply wf_trialRungs; eassumption.
  - apply wf_nonempty. assumption.
Qed.

Lemma createTrial_wf (ctx : context) (s : asyncHalvingSearch) :
  wellFormed s ->
  exists ops s' ctx',
    createTrial ctx s = Some (ops, s', ctx') /\ wellFormed s' /\
    maxTrials s' = maxTrials s /\ config s' = config s /\
    (idsIn (known s) (rungs s) -> idsIn (known s') (rungs s')) /\
    allTrialsOf s' <= allTrialsOf s + 1.
Proof.
  intros Hwf. unfold createTrial. simpl.
  destruct (lookup_lt_is_Some_2 (rungs s) 0%nat (wf_nonempty s Hwf)) as [r0 Hr0].
  rewrite Hr0. eexists _, _, _. split; [reflexivity|].
  split; [|split; [reflexivity | split; [reflexivity | split]]].
  - destruct Hwf as [Hd Hn Hne Htr Hrs]. constructor; simpl.
    + assumption.
    + rewrite length_insert. assumption.
    + rewrite length_insert. assumption.
    + intros id k. rewrite length_insert.
      destruct (decide (rand ctx = id)) as [-> | Hneq].
      * rewrite lookup_insert_eq. intros [= <-]. assumption.
      * rewrite lookup_insert_ne by assumption. apply Htr.
    + apply Forall_insert; [assumption|].
      apply rungInv_set_outstanding. eapply Forall_lookup_1; eassumption.
  - simpl. intros Hids. apply idsIn_insert.
    + eapply idsIn_mono; [|exact Hids]. intros id. apply known_insert.
    + simpl. intros t Ht. apply known_insert.
      eapply idsIn_lookup; eassumption.
  - unfold allTrialsOf. simpl.
    pose proof (size_insert_bounds (trialRungs s) (rand ctx) 0%nat). lia.
Qed.

Lemma closeOutRungs_wf (s : asyncHalvingSearch) :
  wellFormed s ->
  wellFormed (closeOutRungs s).2 /\
  (capInv s -> capInv (closeOutRungs s).2).
Proof.
  intros Hwf. unfold closeOutRungs.
  pose proof (closeOutLoop_rungs (earlyExitTrials s) (rungs s) (trialsCompleted s)) as Hrs.
  destruct (closeOutLoop (earlyExitTrials s) (rungs s) (trialsCompleted s))
    as [[ops rs] c]. simpl in *.
  pose proof (Forall2_length _ _ _ Hrs) as Hlen.
  split.
  - destruct Hwf as [Hd Hn Hne Htr Hinv]. constructor; simpl;
      try rewrite <- Hlen; try assumption.
    apply Forall_lookup. intros i r' Hr'.
    destruct (Forall2_lookup_r _ _ _ _ _ Hrs Hr') as (r & Hr & [-> | ->]).
    + eapply Forall_lookup_1; eassumption.
    + apply drained_rungInv. eapply Forall_lookup_1; eassumption.
  - intros [Hids Hcap]. split; simpl; [|assumption].
    intros r' t' Hr' Ht'. apply list_elem_of_lookup in Hr' as [i Hr'].
    destruct (Forall2_lookup_r _ _ _ _ _ Hrs Hr') as (r & Hr & [-> | ->]).
    + eapply (idsIn_lookup (known s)); eassumption.
    + destruct (drained_idsFrom r t' Ht') as (t & Ht & <-).
      eapply (idsIn_lookup (known s)); eassumption.
Qed.

Lemma promoteTail_wf (ctx : context) (s : asyncHalvingSearch)
  (ops : list Operation) (added : bool) :
  wellFormed s ->
  exists ops' s' ctx',
    promoteTail ctx s ops added = Some (ops', s', ctx') /\ wellFormed s' /\
    (capInv s -> capInv s').
Proof.
  intros Hwf. unfold promoteTail.
  destruct (negb added && (allTrialsOf s <? maxTrials s)) eqn:Hcreate.
  - destruct (createTrial_wf ctx s Hwf)
      as (cops & s1 & ctx1 & -> & Hwf1 & Hmax & Hcfg & Hids & Hsize).
    apply andb_true_iff in Hcreate as [_ Hlt]. apply Z.ltb_lt in Hlt.
    assert (Hcap1 : capInv s -> capInv s1).
    { intros [Hi Hc]. split; [auto | lia]. }
    destruct (allTrialsOf s =? maxTrials s1).
    + destruct (closeOutRungs_wf s1 Hwf1) as [Hwf2 Hcap2].
      destruct (closeOutRungs s1) as [cops2 s2]. simpl in *.
      eexists _, _, _. split; [reflexivity|]. split; [assumption | auto].
    + eexists _, _, _. split; [reflexivity|]. split; [assumption | auto].
  - destruct (allTrialsOf s =? maxTrials s).
    + destruct (closeOutRungs_wf s Hwf) as [Hwf2 Hcap2].
      destruct (closeOutRungs s) as [cops2 s2]. simpl in *.
      eexists _, _, _. split; [reflexivity|]. split; [assumption | auto].
    + eexists _, _, _. split; [reflexivity|]. split; [assumption | auto].
Qed.

Lemma promoteLoop_wf rec (ctx : context) (msg : Workload) (k : nat)
  (promos : list RequestID) (s : asyncHalvingSearch) (ops : list Operation) (added : bool) :
  recOk (length (rungs s)) k rec -> wellFormed s -> (S k < length (rungs s))%nat ->
  exists ops' s' ctx',
    promoteLoop rec ctx msg k promos s ops added = Some (ops', s', ctx') /\
    wellFormed s' /\
    ((forall pid, pid ∈ promos -> known s pid) -> capInv s -> capInv s').
Proof.
  remember (length (rungs s)) as n eqn:Hn. intros Hrec. revert s ops added Hn.
  induction promos as [|pid rest IH]; intros s ops added Hlen Hwf Hk; simpl.
  - destruct (promoteTail_wf ctx s ops added Hwf) as (ops' & s' & ctx' & Heq & Hwf' & Hcap).
    eexists _, _, _. split; [exact Heq|]. split; [assumption | auto].
  - destruct (lookup_lt_is_Some_2 (rungs s) k) as [r Hr]; [lia|].
    destruct (lookup_lt_is_Some_2 (rungs s) (S k)) as [nx Hnx]; [lia|].
    rewrite Hr, Hnx.
    set (s2 := set_rungs (set_trialRungs s (<[pid := S k]> (trialRungs s)))
                 (<[S k := set_outstanding nx (int_incr (outstandingTrials nx))]> (rungs s))).
    assert (Hwf2 : wellFormed s2).
    { destruct Hwf as [Hd Hn Hne Htr Hrs]. constructor; simpl;
        try rewrite length_insert; try assumption.
      - intros id j. destruct (decide (pid = id)) as [-> | Hneq].
        + rewrite lookup_insert_eq. intros [= <-]. lia.
        + rewrite lookup_insert_ne by assumption. apply Htr.
      - apply Forall_insert; [assumption|].
        apply rungInv_set_outstanding. eapply Forall_lookup_1; eassumption. }
    assert (Hcap2 : known s pid -> capInv s -> capInv s2).
    { intros Hpid [Hids Hcap]. split; simpl.
      - apply idsIn_insert.
        + eapply idsIn_mono; [|exact Hids]. intros id. apply known_insert.
        + simpl. intros t Ht. apply known_insert. eapply idsIn_lookup; eassumption.
      - unfold allTrialsOf in *. simpl. rewrite size_insert_known by exact Hpid.
        assumption. }
    assert (Hn2 : n = length (rungs s2)) by (simpl; rewrite length_insert; assumption).
    clear Hlen.
    assert (Hk2 : (S k < n)%nat) by lia.
    change (isEarlyExit s2 pid) with (isEarlyExit s pid).
    destruct (negb (isEarlyExit s pid)).
    + destruct (IH s2 (ops ++ trainAndValidate pid (stepsNeeded r)
                         (stepsNeeded (set_outstanding nx (int_incr (outstandingTrials nx)))))
                  true Hn2 Hwf2 Hk2) as (ops' & s' & ctx' & Heq & Hwf' & Hcap').
      eexists _, _, _. split; [exact Heq|]. split; [assumption|].
      intros Hknown Hcap. apply Hcap'.
      * intros p Hp. apply known_insert. apply Hknown. right. assumption.
      * apply Hcap2; [apply Hknown; left | assumption].
    + destruct (Hrec ctx s2 pid
                  (mkWorkload ComputeValidationMetrics (ExperimentID msg) (TrialID msg)
                     (stepsNeeded (set_outstanding nx (int_incr (outstandingTrials nx)))))
                  ashaExitedMetricValue Hwf2)
        as (ops' & s' & ctx' & Heq & Hwf' & Hcap').
      { symmetry. exact Hn2. }
      { unfold rungOf. simpl. rewrite lookup_insert_eq. reflexivity. }
      eexists _, _, _. split; [exact Heq|]. split; [assumption|].
      intros Hknown Hcap. apply Hcap'.
      * unfold known. simpl. rewrite lookup_insert_eq. eauto.
      * apply Hcap2; [apply Hknown; left | assumption].
Qed.

(** [promote] returns on every well-formed searcher, given one turn per
    rung still above the trial, and keeps the searcher well-formed. *)
Lemma promote_wf (turns : nat) (ctx : context) (s : asyncHalvingSearch)
  (id : RequestID) (msg : Workload) (m : Q) :
  wellFormed s -> (length (rungs s) <= rungOf s id + turns)%nat ->
  exists ops' s' ctx',
    promote turns ctx s id msg m = Some (ops', s', ctx') /\ wellFormed s' /\
    (known s id -> capInv s -> capInv s').
Proof.
  revert ctx s id msg m.
  induction turns as [|turns IH]; intros ctx s id msg m Hwf Hturns.
  - pose proof (rungOf_bound s id Hwf). lia.
  - pose proof (rungOf_bound s id Hwf) as Hk. cbn [promote].
    set (k := rungOf s id) in *.
    destruct (lookup_lt_is_Some_2 (rungs s) k Hk) as [r Hr]. rewrite Hr.
    set (r1 := set_outstanding r (int_decr (outstandingTrials r))).
    set (s1 := set_rungs s (<[k := r1]> (rungs s))).
    assert (Hr1 : rungInv (Divisor (config s)) r1).
    { apply rungInv_set_outstanding.
      eapply Forall_lookup_1; [apply (wf_rungs s Hwf) | eassumption]. }
    assert (Hwf1 : wellFormed s1).
    { destruct Hwf as [Hd Hn Hne Htr Hrs]. constructor; simpl;
        try rewrite length_insert; try assumption.
      apply Forall_insert; assumption. }
    assert (Hcap1 : capInv s -> capInv s1).
    { intros [Hids Hcap]. split; [|assumption]. simpl.
      apply idsIn_insert; [assumption|]. simpl. intros t Ht.
      eapply (idsIn_lookup (known s)); eassumption. }
    destruct (Z.eqb_spec (Z.of_nat k) (NumRungs (config s) - 1)) as [Htop | Hnottop].
    + set (s2 := set_trialsCompleted s1 (int_incr (trialsCompleted s1))).
      assert (Hwf2 : wellFormed s2) by (destruct Hwf1; constructor; assumption).
      destruct (promoteTail_wf ctx s2
                  (if negb (isEarlyExit s2 id) then [NewClose id] else []) false Hwf2)
        as (ops' & s' & ctx' & Heq & Hwf' & Hcap').
      eexists _, _, _. split; [exact Heq|]. split; [assumption|].
      intros _ Hcap. apply Hcap'. apply Hcap1 in Hcap. exact Hcap.
    + rewrite (wf_numRungs s Hwf) in Hnottop.
      assert (Hk' : (S k < length (rungs s))%nat) by lia.
      destruct (lookup_lt_is_Some_2 (rungs s) (S k) Hk') as [nx Hnx].
      cbn [rungs s1 set_rungs].
      rewrite list_lookup_insert_ne by lia. rewrite Hnx.
      destruct (promotionsAsync_keeps r1 id m (Divisor (config s)) Hr1 (wf_divisor s Hwf))
        as (promos & r2 & Heq & Hr2 & _ & _ & _ & Hpromos & _ & Hfrom & _).
      rewrite Heq.
      set (s2 := set_rungs s1 (<[k := r2]> (<[k := r1]> (rungs s)))).
      assert (Hwf2 : wellFormed s2).
      { destruct Hwf as [Hd Hn Hne Htr Hrs]. constructor; simpl;
          try rewrite !length_insert; try assumption.
        apply Forall_insert; [|assumption]. apply Forall_insert; assumption. }
      assert (Hold : capInv s -> forall t, t ∈ metrics r1 -> known s (requestID t)).
      { intros [Hids _] t Ht.
        apply (idsIn_lookup (known s) (rungs s) k r t); [exact Hids | exact Hr | exact Ht]. }
      assert (Hcap2 : known s id -> capInv s -> capInv s2).
      { intros Hid Hcap. destruct (Hcap1 Hcap) as [Hids1 Hsize1].
        split; [|assumption]. simpl. apply idsIn_insert; [exact Hids1|].
        intros t Ht. destruct (Hfrom t Ht) as [-> | (u & Hu & <-)];
          [assumption | apply Hold; assumption]. }
      destruct (promoteLoop_wf (promote turns) ctx msg k promos s2 [] false)
        as (ops' & s' & ctx' & Heq' & Hwf' & Hcap').
      * intros ctx0 s0 pid w m0 Hwf0 Hlen0 Hpid. apply IH; [assumption|].
        rewrite Hpid, Hlen0. simpl. rewrite !length_insert. lia.
      * assumption.
      * simpl. rewrite !length_insert. assumption.
      * eexists _, _, _. split; [exact Heq'|]. split; [assumption|].
        intros Hid Hcap. apply Hcap'; [|auto].
        intros pid Hpid. destruct (Hpromos pid Hpid) as (t & Ht & <-).
        destruct (Hfrom t Ht) as [-> | (u & Hu & <-)]; [assumption|].
        apply Hold; assumption.
Qed.

(** ** How a call may change the searcher, and what it may emit *)

Lemma rungsKept_refl (rs : list rung) : rungsKept rs rs.
Proof.
  split; [reflexivity|]. intros j r Hr. exists r.
  split; [assumption|]. split; [reflexivity | apply entriesKept_refl].
Qed.

Lemma rungsKept_trans (a b c : list rung) :
  rungsKept a b -> rungsKept b c -> rungsKept a c.
Proof.
  intros [Hl1 H1] [Hl2 H2]. split; [congruence|]. intros j r Hr.
  destruct (H1 j r Hr) as (r1 & Hr1 & Hs1 & He1).
  destruct (H2 j r1 Hr1) as (r2 & Hr2 & Hs2 & He2).
  exists r2. split; [assumption|]. split; [congruence|].
  eapply entriesKept_trans; eassumption.
Qed.

Lemma rungsKept_insert (rs : list rung) (k : nat) (r r' : rung) :
  rs !! k = Some r -> stepsNeeded r' = stepsNeeded r ->
  entriesKept (metrics r) (metrics r') -> rungsKept rs (<[k := r']> rs).
Proof.
  intros Hk Hs He. split; [apply length_insert|]. intros j x Hx.
  destruct (decide (k = j)) as [-> | Hne].
  - exists r'. rewrite list_lookup_insert_eq by (eapply lookup_lt_Some; eassumption).
    assert (x = r) by congruence. subst x. tauto.
  - exists x. rewrite list_lookup_insert_ne by assumption.
    split; [assumption|]. split; [reflexivity | apply entriesKept_refl].
Qed.

Lemma closedIn_kept (s s' : asyncHalvingSearch) (id : RequestID) :
  rungsKept (rungs s) (rungs s') -> closedIn s id -> closedIn s' id.
Proof.
  intros [_ Hk] (r & t & Hr & Ht & Hid & Hc).
  apply list_elem_of_lookup in Hr as [j Hj].
  destruct (Hk j r Hj) as (r' & Hr' & _ & He).
  destruct (He t Ht) as (t' & Ht' & Hid' & _ & Hc').
  exists r', t'. split; [eapply list_elem_of_lookup_2; eassumption|].
  split; [assumption|]. split; [congruence | auto].
Qed.

Lemma allTrialsOf_mono (s s' : asyncHalvingSearch) :
  dom (trialRungs s) ⊆ dom (trialRungs s') -> allTrialsOf s <= allTrialsOf s'.
Proof.
  intros Hsub. unfold allTrialsOf. apply subseteq_size in Hsub.
  rewrite !size_dom in Hsub. lia.
Qed.

Lemma isEarlyExit_false_back (s s' : asyncHalvingSearch) (id : RequestID) :
  (forall i, isEarlyExit s i = true -> isEarlyExit s' i = true) ->
  isEarlyExit s' id = false -> isEarlyExit s id = false.
Proof.
  intros Hmono Hf. destruct (isEarlyExit s id) eqn:E; [|reflexivity].
  apply Hmono in E. congruence.
Qed.

Lemma evolves_refl (cap : bool) (ctx : context) (s : asyncHalvingSearch) :
  evolves cap ctx s [] s ctx.
Proof.
  constructor; try reflexivity; try lia; auto using rungsKept_refl.
Qed.

Lemma evolves_trans (cap : bool) ctx s ops1 s1 ctx1 ops2 s2 ctx2 :
  evolves cap ctx s ops1 s1 ctx1 -> evolves cap ctx1 s1 ops2 s2 ctx2 ->
  evolves cap ctx s (ops1 ++ ops2) s2 ctx2.
Proof.
  intros [Hc1 Hm1 Hr1 He1 Ht1 Hk1 Ho1] [Hc2 Hm2 Hr2 He2 Ht2 Hk2 Ho2].
  constructor; try congruence; try lia; auto.
  - etrans; eassumption.
  - eapply rungsKept_trans; eassumption.
  - apply Forall_app. split; (eapply Forall_impl; [eassumption|]);
      intros [id hp | id a b | id a | id]; simpl; try tauto.
    + intros [Hid Hcap]. split; [lia | assumption].
    + intros [Hf | Hcl]; [left; assumption | right].
      eapply closedIn_kept; eassumption.
    + intros [Hid Hcap]. split; [lia|]. intros Hc. specialize (Hcap Hc).
      pose proof (allTrialsOf_mono s s1 Ht1). lia.
    + intros [Hf | Hid]; [left | right; lia].
      eapply isEarlyExit_false_back; eassumption.
    + intros [Hf | Hcl]; [left | right; assumption].
      eapply isEarlyExit_false_back; eassumption.
Qed.

(** Dropping operations (the recursive call of [promote] forgets those
    gathered so far) keeps the relation. *)
Lemma evolves_drop (cap : bool) ctx s ops ops' s' ctx' :
  evolves cap ctx s ops s' ctx' -> (forall op, op ∈ ops' -> op ∈ ops) ->
  evolves cap ctx s ops' s' ctx'.
Proof.
  intros [Hc Hm Hr He Ht Hk Ho] Hsub. constructor; try assumption.
  apply Forall_forall. intros op Hop. eapply Forall_forall in Ho; [exact Ho | auto].
Qed.

Lemma evolves_uncapped (cap : bool) ctx s ops s' ctx' :
  evolves cap ctx s ops s' ctx' -> evolves false ctx s ops s' ctx'.
Proof.
  intros [Hc Hm Hr He Ht Hk Ho]. constructor; try assumption.
  eapply Forall_impl; [exact Ho|].
  intros [id hp | id a b | id a | id]; simpl; try tauto.
  intros [Hid _]. split; [assumption | discriminate].
Qed.

Lemma plainOp_allowed (cap : bool) ctx (s : asyncHalvingSearch) ops :
  Forall (plainOp (earlyExitTrials s)) ops -> evolves cap ctx s ops s ctx.
Proof.
  intros Hops. constructor; try reflexivity; try lia; auto using rungsKept_refl.
  eapply Forall_impl; [exact Hops|].
  intros [id hp | id a b | id a | id]; simpl; unfold isEarlyExit; tauto.
Qed.

(** A step that emits nothing. *)
Lemma evolves_silent (cap : bool) ctx (s s' : asyncHalvingSearch) :
  config s' = config s -> maxTrials s' = maxTrials s ->
  (forall id, isEarlyExit s id = true -> isEarlyExit s' id = true) ->
  dom (trialRungs s) ⊆ dom (trialRungs s') ->
  rungsKept (rungs s) (rungs s') ->
  evolves cap ctx s [] s' ctx.
Proof.
  intros. constructor; try assumption; try lia. constructor.
Qed.

Lemma rungsKept_outstanding (rs : list rung) (k : nat) (r : rung) (n : Z) :
  rs !! k = Some r -> rungsKept rs (<[k := set_outstanding r n]> rs).
Proof.
  intros Hk. eapply rungsKept_insert; [exact Hk | reflexivity | apply entriesKept_refl].
Qed.

Lemma createTrial_evolves (cap : bool) ctx s ops s' ctx' :
  createTrial ctx s = Some (ops, s', ctx') ->
  (cap = true -> allTrialsOf s < maxTrials s) ->
  evolves cap ctx s ops s' ctx'.
Proof.
  unfold createTrial. simpl. intros H Hcap.
  destruct (rungs s !! 0%nat) as [r0|] eqn:Hr0; [|discriminate].
  injection H as <- <- <-. constructor; simpl; try reflexivity; try lia; auto.
  - apply dom_insert_subseteq.
  - apply rungsKept_outstanding. assumption.
  - repeat constructor; simpl; auto; lia.
Qed.

Lemma closeOutRungs_evolves (cap : bool) ctx (s : asyncHalvingSearch) :
  evolves cap ctx s (closeOutRungs s).1 (closeOutRungs s).2 ctx.
Proof.
  unfold closeOutRungs.
  pose proof (closeOutLoop_rungs (earlyExitTrials s) (rungs s) (trialsCompleted s)) as Hrs.
  pose proof (closeOutLoop_ops (earlyExitTrials s) (rungs s) (trialsCompleted s)) as Hops.
  destruct (closeOutLoop (earlyExitTrials s) (rungs s) (trialsCompleted s))
    as [[ops rs] c]. simpl in *.
  constructor; simpl; try reflexivity; try lia; auto.
  - split; [symmetry; eapply Forall2_length; eassumption|].
    intros j r Hr. destruct (Forall2_lookup_l _ _ _ _ _ Hrs Hr) as (r' & Hr' & [-> | ->]).
    + exists r. split; [assumption|]. split; [reflexivity | apply entriesKept_refl].
    + exists (drained r). split; [assumption|].
      split; [reflexivity | apply drained_entriesKept].
  - apply Forall_forall. intros op Hop.
    destruct (Hops op Hop) as (j & r & t & Hj & Hj' & Ht & -> & Hc). simpl.
    right. exists (drained r), (closeEntry t).
    split; [eapply list_elem_of_lookup_2; eassumption|].
    split; [simpl; apply list_elem_of_fmap; exists t; tauto|].
    split; [apply closeEntry_fields | assumption].
Qed.

Lemma promoteTail_evolves ctx s ops added ops' s' ctx' :
  Forall (plainOp (earlyExitTrials s)) ops ->
  promoteTail ctx s ops added = Some (ops', s', ctx') ->
  evolves true ctx s ops' s' ctx'.
Proof.
  intros Hops. unfold promoteTail.
  pose proof (plainOp_allowed true ctx s ops Hops) as Hplain.
  destruct (negb added && (allTrialsOf s <? maxTrials s)) eqn:Hcreate.
  - apply andb_true_iff in Hcreate as [_ Hlt]. apply Z.ltb_lt in Hlt.
    destruct (createTrial ctx s) as [[[cops s1] ctx1]|] eqn:Hc; [|discriminate].
    pose proof (createTrial_evolves true ctx s cops s1 ctx1 Hc (fun _ => Hlt)) as Hev.
    pose proof (evolves_trans _ _ _ _ _ _ _ _ _ Hplain Hev) as Hev1.
    destruct (allTrialsOf s =? maxTrials s1).
    + pose proof (closeOutRungs_evolves true ctx1 s1) as Hev2.
      destruct (closeOutRungs s1) as [cops2 s2]. simpl in Hev2.
      intros [= <- <- <-]. eapply evolves_trans; eassumption.
    + intros [= <- <- <-]. assumption.
  - destruct (allTrialsOf s =? maxTrials s).
    + pose proof (closeOutRungs_evolves true ctx s) as Hev2.
      destruct (closeOutRungs s) as [cops2 s2]. simpl in Hev2.
      intros [= <- <- <-]. eapply evolves_trans; eassumption.
    + intros [= <- <- <-]. assumption.
Qed.

Lemma promoteLoop_evolves rec ctx msg k promos s ops added ops' s' ctx' :
  recEvolves rec ->
  Forall (plainOp (earlyExitTrials s)) ops ->
  promoteLoop rec ctx msg k promos s ops added = Some (ops', s', ctx') ->
  evolves true ctx s ops' s' ctx'.
Proof.
  intros Hrec. revert s ops added.
  induction promos as [|pid rest IH]; intros s ops added Hops; simpl.
  - apply promoteTail_evolves. assumption.
  - destruct (rungs s !! k) as [r|] eqn:Hr; [|discriminate].
    destruct (rungs s !! S k) as [nx|] eqn:Hnx; [|discriminate].
    set (s2 := set_rungs (set_trialRungs s (<[pid := S k]> (trialRungs s)))
                 (<[S k := set_outstanding nx (int_incr (outstandingTrials nx))]> (rungs s))).
    assert (Hstep : evolves true ctx s [] s2 ctx).
    { apply evolves_silent; simpl; auto.
      - apply dom_insert_subseteq.
      - apply rungsKept_outstanding. assumption. }
    change (isEarlyExit s2 pid) with (isEarlyExit s pid).
    destruct (isEarlyExit s pid) eqn:Hearly; simpl; intros Heq.
    + apply Hrec in Heq.
      apply (evolves_trans _ _ _ _ _ _ _ _ _ Hstep Heq).
    + apply IH in Heq.
      * apply (evolves_trans _ _ _ _ _ _ _ _ _ Hstep Heq).
      * simpl. apply Forall_app. split; [assumption|].
        repeat constructor. exact Hearly.
Qed.

(** Whatever the rung, [promotionsAsync] drops no entry and ranks the new
    trial with the metric it was given. *)
Lemma promotionsAsync_kept (r : rung) (id : RequestID) (m d : Q) promos r' :
  promotionsAsync r id m d = Some (promos, r') ->
  stepsNeeded r' = stepsNeeded r /\
  entriesKept (metrics r) (metrics r') /\
  exists t, t ∈ metrics r' /\ requestID t = id /\ metric t = m.
Proof.
  unfold promotionsAsync.
  set (i := sort_Search (length (metrics r)) (worseThan (metrics r) m)).
  set (new := numPromoteOf (length (metrics r) + 1) d).
  set (old := numPromoteOf (length (metrics r)) d).
  set (e := mkTrialMetric id m (Z.of_nat i <? new) false).
  assert (He : e ∈ insertAt (metrics r) i e) by (apply insertAt_elem; tauto).
  assert (Hdone : stepsNeeded (set_metrics r (insertAt (metrics r) i e)) = stepsNeeded r /\
                  entriesKept (metrics r) (metrics (set_metrics r (insertAt (metrics r) i e))) /\
                  exists t, t ∈ metrics (set_metrics r (insertAt (metrics r) i e)) /\
                            requestID t = id /\ metric t = m).
  { split; [reflexivity|]. split; [apply entriesKept_insertAt|].
    exists e. split; [exact He|]. split; reflexivity. }
  destruct (Z.of_nat i <? new); [intros [= <- <-]; exact Hdone|].
  destruct (negb (new =? old)); [|intros [= <- <-]; exact Hdone].
  unfold metricAt. destruct (old <? 0); [discriminate|].
  destruct (insertAt (metrics r) i e !! Z.to_nat old) as [t|] eqn:Ht; [|discriminate].
  destruct (negb (promoted t)); [|intros [= <- <-]; exact Hdone].
  intros [= <- <-]. split; [reflexivity|]. simpl. split.
  - eapply entriesKept_trans; [apply entriesKept_insertAt|].
    apply entriesKept_set_promoted. assumption.
  - destruct (entriesKept_set_promoted _ _ _ true Ht e He) as (e' & He' & Hid & Hm & _).
    exists e'. split; [assumption|]. split; assumption.
Qed.

Lemma promote_evolves turns ctx s id msg m ops' s' ctx' :
  promote turns ctx s id msg m = Some (ops', s', ctx') ->
  evolves true ctx s ops' s' ctx'.
Proof.
  revert ctx s id msg m ops' s' ctx'.
  induction turns as [|turns IH]; intros ctx s id msg m ops' s' ctx'; [discriminate|].
  cbn [promote]. set (k := rungOf s id).
  destruct (rungs s !! k) as [r|] eqn:Hr; [|discriminate].
  set (r1 := set_outstanding r (int_decr (outstandingTrials r))).
  set (s1 := set_rungs s (<[k := r1]> (rungs s))).
  destruct (Z.of_nat k =? NumRungs (config s) - 1).
  - set (s2 := set_trialsCompleted s1 (int_incr (trialsCompleted s1))).
    assert (Hstep : evolves true ctx s [] s2 ctx).
    { apply evolves_silent; simpl; auto. apply rungsKept_outstanding. assumption. }
    intros Heq. apply promoteTail_evolves in Heq.
    + apply (evolves_trans _ _ _ _ _ _ _ _ _ Hstep Heq).
    + change (isEarlyExit s2 id) with (isEarlyExit s id).
      destruct (isEarlyExit s id) eqn:Hearly; simpl; repeat constructor.
      exact Hearly.
  - destruct (rungs s1 !! S k) as [nx|] eqn:Hnx; [|discriminate].
    destruct (promotionsAsync r1 id m (Divisor (config s))) as [[promos r2]|] eqn:Hp;
      [|discriminate].
    destruct (promotionsAsync_kept _ _ _ _ _ _ Hp) as (Hsteps & Hkept & _).
    set (s2 := set_rungs s1 (<[k := r2]> (rungs s1))).
    assert (Hstep : evolves true ctx s [] s2 ctx).
    { apply evolves_silent; simpl; auto.
      rewrite list_insert_insert_eq.
      eapply rungsKept_insert; [exact Hr | exact Hsteps | exact Hkept]. }
    intros Heq. apply promoteLoop_evolves in Heq; [| exact IH | constructor].
    apply (evolves_trans _ _ _ _ _ _ _ _ _ Hstep Heq).
Qed.

(** ** Whole calls and streams *)

Lemma validConfig_unpack (cfg : AsyncHalvingConfig) :
  validConfig cfg ->
  (2 <= Divisor cfg)%Q /\ 1 <= NumRungs cfg /\ 1 <= TargetTrialSteps cfg /\
  1 <= MaxTrials cfg.
Proof.
  unfold validConfig, validConfigb. rewrite !andb_true_iff, !Z.leb_le, Qle_bool_iff.
  tauto.
Qed.

Lemma isEarlyExit_insert (s : asyncHalvingSearch) (id id' : RequestID) :
  isEarlyExit s id' = true ->
  isEarlyExit (set_earlyExitTrials s (<[id := true]> (earlyExitTrials s))) id' = true.
Proof.
  unfold isEarlyExit. simpl. intros H.
  destruct (decide (id = id')) as [-> | Hne].
  - rewrite lookup_insert_eq. reflexivity.
  - rewrite lookup_insert_ne by assumption. assumption.
Qed.

(** Case analysis on the call of [promote] in the goal: a panic is no
    result at all, so only the returning case remains. *)
Ltac case_promote ops s ctx H :=
  match goal with
  | |- context [promote ?t ?c ?st ?i ?w ?q] =>
      destruct (promote t c st i w q) as [[[ops s] ctx]|] eqn:H; [|discriminate]
  end.

Lemma handle_evolves ctx s ev r s' ctx' :
  handle ctx s ev = Some (r, s', ctx') -> evolves true ctx s (opsOf r) s' ctx'.
Proof.
  destruct ev as [id msg | id msg v | id msg]; simpl.
  - unfold trainCompleted. intros [= <- <- <-]. apply evolves_refl.
  - unfold validationCompleted, promoteEntry.
    destruct (metricOf v (Metric (config s))) as [raw | err].
    + case_promote ops s1 ctx1 Hp.
      intros [= <- <- <-]. simpl. eapply promote_evolves. eassumption.
    + intros [= <- <- <-]. apply evolves_refl.
  - unfold trialExitedEarly, promoteEntry.
    case_promote ops s1 ctx1 Hp.
    intros [= <- <- <-]. simpl. apply promote_evolves in Hp.
    refine (evolves_trans _ _ _ [] _ _ _ _ _ _ Hp).
    apply evolves_silent; simpl; auto using rungsKept_refl.
    intros id'. apply isEarlyExit_insert.
Qed.

Lemma run_evolves ctx s evs ops s' ctx' :
  run ctx s evs = Some (ops, s', ctx') -> evolves true ctx s ops s' ctx'.
Proof.
  revert ctx s ops s' ctx'.
  induction evs as [|ev rest IH]; intros ctx s ops s' ctx'; simpl.
  - intros [= <- <- <-]. apply evolves_refl.
  - destruct (handle ctx s ev) as [[[r s1] ctx1]|] eqn:Hh; [|discriminate].
    destruct (run ctx1 s1 rest) as [[[ops2 s2] ctx2]|] eqn:Hr; [|discriminate].
    intros [= <- <- <-]. eapply evolves_trans.
    + eapply handle_evolves. eassumption.
    + apply IH. assumption.
Qed.

Lemma createTrials_evolves n ctx s ops s' ctx' :
  createTrials n ctx s = Some (ops, s', ctx') -> evolves false ctx s ops s' ctx'.
Proof.
  revert ctx s ops s' ctx'.
  induction n as [|n IH]; intros ctx s ops s' ctx'; simpl.
  - intros [= <- <- <-]. apply evolves_refl.
  - destruct (createTrial ctx s) as [[[ops1 s1] ctx1]|] eqn:Hc; [|discriminate].
    destruct (createTrials n ctx1 s1) as [[[ops2 s2] ctx2]|] eqn:Hr; [|discriminate].
    intros [= <- <- <-]. eapply evolves_trans.
    + eapply createTrial_evolves; [eassumption | discriminate].
    + apply IH. assumption.
Qed.

Lemma initialOperations_evolves ctx s r s' ctx' :
  initialOperations ctx s = Some (r, s', ctx') -> evolves false ctx s (opsOf r) s' ctx'.
Proof.
  unfold initialOperations.
  destruct (createTrials _ ctx s) as [[[ops s1] ctx1]|] eqn:Hc; [|discriminate].
  intros [= <- <- <-]. simpl. eapply createTrials_evolves. eassumption.
Qed.

(** *** Every call returns, and keeps the searcher well-formed *)

Lemma handle_wf ctx s ev :
  wellFormed s ->
  exists r s' ctx',
    handle ctx s ev = Some (r, s', ctx') /\ wellFormed s' /\
    (known s (eventId ev) -> capInv s -> capInv s').
Proof.
  intros Hwf. destruct ev as [id msg | id msg v | id msg]; simpl.
  - eexists _, _, _. split; [reflexivity|]. split; [assumption | auto].
  - unfold validationCompleted, promoteEntry.
    destruct (metricOf v (Metric (config s))) as [raw | err].
    + match goal with |- context [promote ?t ?c ?st ?i ?w ?q] =>
        destruct (promote_wf t c st i w q Hwf) as (ops & s' & ctx' & -> & Hwf' & Hcap)
      end; [lia|].
      eexists _, _, _. split; [reflexivity|]. split; assumption.
    + eexists _, _, _. split; [reflexivity|]. split; [assumption | auto].
  - unfold trialExitedEarly, promoteEntry.
    set (s1 := set_earlyExitTrials s (<[id := true]> (earlyExitTrials s))).
    assert (Hwf1 : wellFormed s1) by (destruct Hwf; constructor; assumption).
    destruct (promote_wf (length (rungs s1)) ctx s1 id msg ashaExitedMetricValue Hwf1)
      as (ops & s' & ctx' & -> & Hwf' & Hcap); [lia|].
    eexists _, _, _. split; [reflexivity|]. split; [assumption|].
    intros Hid Hc. apply Hcap; [exact Hid | exact Hc].
Qed.

Lemma run_wf ctx s evs :
  wellFormed s ->
  exists ops s' ctx',
    run ctx s evs = Some (ops, s', ctx') /\ wellFormed s' /\
    (validStream ctx s evs -> capInv s -> capInv s').
Proof.
  revert ctx s. induction evs as [|ev rest IH]; intros ctx s Hwf; simpl.
  - eexists _, _, _. split; [reflexivity|]. split; [assumption | auto].
  - destruct (handle_wf ctx s ev Hwf) as (r & s1 & ctx1 & -> & Hwf1 & Hcap1).
    destruct (IH ctx1 s1 Hwf1) as (ops & s2 & ctx2 & -> & Hwf2 & Hcap2).
    eexists _, _, _. split; [reflexivity|]. split; [assumption|].
    intros [Hid Hvalid] Hc. auto.
Qed.

Lemma createTrials_wf n ctx s :
  wellFormed s ->
  exists ops s' ctx',
    createTrials n ctx s = Some (ops, s', ctx') /\ wellFormed s' /\
    (idsIn (known s) (rungs s) -> idsIn (known s') (rungs s')) /\
    allTrialsOf s' <= allTrialsOf s + Z.of_nat n.
Proof.
  revert ctx s. induction n as [|n IH]; intros ctx s Hwf; cbn [createTrials].
  - eexists _, _, _. split; [reflexivity|]. split; [assumption|]. split; [auto | lia].
  - destruct (createTrial_wf ctx s Hwf) as (ops1 & s1 & ctx1 & -> & Hwf1 & _ & _ & Hids1 & Hsz1).
    destruct (IH ctx1 s1 Hwf1) as (ops2 & s2 & ctx2 & -> & Hwf2 & Hids2 & Hsz2).
    eexists _, _, _. split; [reflexivity|]. split; [assumption|]. split; [auto | lia].
Qed.

Lemma initialConcurrency_le (cfg : AsyncHalvingConfig) :
  1 <= MaxTrials cfg -> initialConcurrency cfg <= MaxTrials cfg.
Proof.
  intros H. unfold initialConcurrency.
  destruct (MaxConcurrentTrials cfg >? 0); lia.
Qed.

Lemma newAsyncHalvingSearch_wf (cfg : AsyncHalvingConfig) :
  validConfig cfg ->
  exists s0,
    newAsyncHalvingSearch cfg = Some s0 /\ wellFormed s0 /\ capInv s0 /\
    config s0 = cfg /\ maxTrials s0 = MaxTrials cfg /\ trialRungs s0 = ∅ /\
    earlyExitTrials s0 = ∅.
Proof.
  intros Hv. destruct (validConfig_unpack cfg Hv) as (Hd & Hn & Hl & Ht).
  unfold newAsyncHalvingSearch.
  destruct (Z.ltb_spec (NumRungs cfg) 0) as [?|_]; [lia|].
  eexists. split; [reflexivity|].
  split; [|split; [|repeat split]].
  - constructor; simpl.
    + eapply Qle_trans; [|exact Hd]. unfold Qle; simpl; lia.
    + rewrite length_map, length_seq. lia.
    + rewrite length_map, length_seq. lia.
    + intros id k Hk. rewrite lookup_empty in Hk. discriminate.
    + apply Forall_forall. intros r Hr.
      apply list_elem_of_fmap in Hr as (id & -> & _).
      split; simpl.
      * intros i j a b _ Ha. rewrite lookup_nil in Ha. discriminate.
      * intros j Hj. simpl in Hj.
        assert (H1 : (1 <= Divisor cfg)%Q)
          by (eapply Qle_trans; [|exact Hd]; unfold Qle; simpl; lia).
        pose proof (numPromoteOf_le_len 0 (Divisor cfg) H1). lia.
  - split; simpl.
    + intros r t Hr Ht'. apply list_elem_of_fmap in Hr as (id & -> & _).
      simpl in Ht'. inversion Ht'.
    + unfold allTrialsOf. simpl. rewrite map_size_empty. lia.
Qed.

(** Every experiment on a valid configuration runs to the end of its
    events, whatever they are, and ends well-formed. *)
Lemma experiment_reach (cfg : AsyncHalvingConfig) (evs : list Event) :
  validConfig cfg ->
  exists ops s ctx,
    experiment cfg evs = Some (ops, s, ctx) /\ wellFormed s /\
    config s = cfg /\ maxTrials s = MaxTrials cfg /\
    (validExperiment cfg evs -> capInv s).
Proof.
  intros Hv. unfold experiment, validExperiment.
  destruct (newAsyncHalvingSearch_wf cfg Hv)
    as (s0 & -> & Hwf0 & Hcap0 & Hcfg0 & Hmax0 & Htr0 & _).
  unfold initialOperations.
  destruct (createTrials_wf (Z.to_nat (initialConcurrency (config s0))) (mkContext 0) s0 Hwf0)
    as (ops1 & s1 & ctx1 & Hc & Hwf1 & Hids1 & Hsz1).
  rewrite Hc.
  pose proof (createTrials_evolves _ _ _ _ _ _ Hc) as Hev1.
  destruct (run_wf ctx1 s1 evs Hwf1) as (ops2 & s2 & ctx2 & Hr & Hwf2 & Hcap2).
  rewrite Hr. pose proof (run_evolves _ _ _ _ _ _ Hr) as Hev2.
  eexists _, _, _. split; [reflexivity|]. split; [assumption|].
  split; [rewrite (ev_config _ _ _ _ _ _ Hev2), (ev_config _ _ _ _ _ _ Hev1); assumption|].
  split; [rewrite (ev_maxTrials _ _ _ _ _ _ Hev2), (ev_maxTrials _ _ _ _ _ _ Hev1);
          assumption|].
  intros Hvalid. apply Hcap2; [assumption|].
  destruct Hcap0 as [Hids0 _]. split; [auto|].
  rewrite (ev_maxTrials _ _ _ _ _ _ Hev1), Hmax0.
  destruct (validConfig_unpack cfg Hv) as (_ & _ & _ & Ht).
  pose proof (initialConcurrency_le cfg Ht) as Hic.
  unfold allTrialsOf in Hsz1 |- *. rewrite Htr0, map_size_empty in Hsz1.
  rewrite Hcfg0 in Hsz1. lia.
Qed.

Lemma reached_wf cfg evs ops s ctx :
  validConfig cfg -> reached cfg evs ops s ctx ->
  wellFormed s /\ config s = cfg /\ maxTrials s = MaxTrials cfg.
Proof.
  intros Hv Hr. destruct (experiment_reach cfg evs Hv) as (ops' & s' & ctx' & He & H).
  unfold reached in Hr. rewrite Hr in He. injection He as <- <- <-. tauto.
Qed.

(** ** Counting *)



(** ** The rung and its invariants across calls *)

Lemma keysOf_insertAt (ms : list trialMetric) (i : nat) (t : trialMetric) :
  keysOf (insertAt ms i t) =
  take i (keysOf ms) ++ (requestID t, metric t) :: drop i (keysOf ms).
Proof.
  unfold keysOf, insertAt. rewrite fmap_app, fmap_cons, fmap_take, fmap_drop.
  reflexivity.
Qed.

Lemma keysOf_set_promoted (ms : list trialMetric) (k : nat) (t : trialMetric) (b : bool) :
  ms !! k = Some t -> keysOf (<[k := set_promoted t b]> ms) = keysOf ms.
Proof.
  intros Hk. unfold keysOf. rewrite list_fmap_insert. simpl.
  apply list_insert_id. rewrite list_lookup_fmap, Hk. reflexivity.
Qed.

(** Where the next result lands in a sorted rung. *)
Lemma promotionsAsync_stable (r : rung) (id : RequestID) (m d : Q) :
  sortedByMetric (metrics r) -> (1 <= d)%Q ->
  exists (i : nat) (promos : list RequestID) (r' : rung),
    promotionsAsync r id m d = Some (promos, r') /\
    keysOf (metrics r') =
      take i (keysOf (metrics r)) ++ (id, m) :: drop i (keysOf (metrics r)) /\
    (forall t, t ∈ take i (metrics r) -> (metric t <= m)%Q) /\
    (forall t, t ∈ drop i (metrics r) -> (m < metric t)%Q).
Proof.
  intros Hs Hd.
  destruct (insertIndexOf_spec (metrics r) m Hs) as (Hle & Hlo & Hhi).
  exists (insertIndexOf (metrics r) m).
  assert (Hbefore : forall t, t ∈ take (insertIndexOf (metrics r) m) (metrics r) ->
                              (metric t <= m)%Q).
  { intros t Ht. apply list_elem_of_lookup in Ht as [j Hj].
    pose proof (lookup_lt_Some _ _ _ Hj) as Hlt. rewrite length_take in Hlt.
    rewrite lookup_take_lt in Hj by lia. apply (Hlo j); [lia | assumption]. }
  assert (Hafter : forall t, t ∈ drop (insertIndexOf (metrics r) m) (metrics r) ->
                             (m < metric t)%Q).
  { intros t Ht. apply list_elem_of_lookup in Ht as [j Hj].
    rewrite lookup_drop in Hj. apply (Hhi (insertIndexOf (metrics r) m + j)%nat); [lia|].
    assumption. }
  destruct (promotionsAsync_cases r id m d Hs Hd) as
    [[Hnow Heq] | (Hnow & t & Ht & [(Hlt & Hp & Heq) | (Hor & Heq)])];
    eexists _, _; (split; [exact Heq|]); (split; [|split; assumption]); simpl.
  - apply keysOf_insertAt.
  - rewrite keysOf_set_promoted by assumption. apply keysOf_insertAt.
  - apply keysOf_insertAt.
Qed.




(** ** The rung ladder *)

Lemma int_of_float64_floor (x : Q) : (0 <= x)%Q -> int_of_float64 x = Qfloor x.
Proof.
  destruct x as [a b]. unfold Qle, int_of_float64, Qfloor; simpl. intros H.
  apply Z.quot_div_nonneg; lia.
Qed.

Lemma divisor_facts (d : Q) : (2 <= d)%Q -> (0 < d)%Q /\ (1 <= d)%Q /\ ~ (d == 0)%Q.
Proof.
  intros H. assert (H0 : (0 < d)%Q) by (eapply Qlt_le_trans; [|exact H]; reflexivity).
  split; [exact H0|]. split.
  - eapply Qle_trans; [|exact H]. discriminate.
  - intros Heq. rewrite Heq in H0. discriminate.
Qed.

Lemma ladder_quotient_nonneg (M : Z) (d : Q) (e : Z) :
  0 <= M -> (2 <= d)%Q -> (0 <= inject_Z M / d ^ e)%Q.
Proof.
  intros HM Hd. destruct (divisor_facts d Hd) as (H0 & _ & _).
  apply Qle_shift_div_l; [apply Qpower_0_lt; assumption|].
  rewrite Qmult_0_l. unfold Qle; simpl. lia.
Qed.

Lemma ladder_quotient_step (M : Z) (d : Q) (e : Z) :
  0 <= e -> (2 <= d)%Q ->
  (inject_Z M / d ^ e == (inject_Z M / d ^ (e + 1)) * d)%Q.
Proof.
  intros He Hd. destruct (divisor_facts d Hd) as (H0 & _ & Hne).
  rewrite Qpower_plus by assumption.
  assert (Hp : ~ (d ^ e == 0)%Q).
  { intros Heq. pose proof (Qpower_0_lt d e H0) as Hlt. rewrite Heq in Hlt. discriminate. }
  change (d ^ 1)%Q with d. field. split; assumption.
Qed.

Lemma ladder_step (M : Z) (d : Q) (e : Z) :
  0 <= M -> 0 <= e -> (2 <= d)%Q ->
  Qfloor (inject_Z M / d ^ (e + 1)) <= Qfloor (inject_Z M / d ^ e) /\
  (1 <= Qfloor (inject_Z M / d ^ (e + 1)) ->
   Qfloor (inject_Z M / d ^ (e + 1)) < Qfloor (inject_Z M / d ^ e)).
Proof.
  intros HM He Hd.
  pose proof (ladder_quotient_nonneg M d (e + 1) HM Hd) as Hy.
  pose proof (ladder_quotient_step M d e He Hd) as Hxy.
  set (x := (inject_Z M / d ^ e)%Q) in *.
  set (y := (inject_Z M / d ^ (e + 1))%Q) in *.
  assert (H2 : (y * 2 <= x)%Q).
  { rewrite Hxy. rewrite !(Qmult_comm y). apply Qmult_le_compat_r; assumption. }
  split.
  - apply Qfloor_resp_le. eapply Qle_trans; [|exact H2].
    rewrite <- (Qmult_1_r y) at 1. rewrite !(Qmult_comm y).
    apply Qmult_le_compat_r; [discriminate | assumption].
  - intros H1. pose proof (Qfloor_le y) as Hfl.
    assert (Hx : (inject_Z (Qfloor y + 1) <= x)%Q).
    { eapply Qle_trans; [|exact H2].
      eapply Qle_trans; [|apply Qmult_le_compat_r; [exact Hfl | discriminate]].
      generalize dependent (Qfloor y). intros a Ha _. unfold Qle; simpl. lia. }
    apply Qfloor_resp_le in Hx. rewrite Qfloor_Z in Hx. lia.
Qed.

Lemma rungAt_steps (cfg : AsyncHalvingConfig) (k : Z) :
  validConfig cfg -> stepsNeeded (rungAt cfg k) = lengthUnits cfg k.
Proof.
  intros Hv. destruct (validConfig_unpack cfg Hv) as (Hd & _ & HM & _).
  unfold rungAt, lengthUnits, float64_of_int, math_Pow. simpl.
  replace (NumRungs cfg - k - 1) with (NumRungs cfg - 1 - k) by lia.
  rewrite int_of_float64_floor by (apply ladder_quotient_nonneg; [lia | assumption]).
  apply Z.max_comm.
Qed.

Lemma lengthUnits_top (cfg : AsyncHalvingConfig) :
  validConfig cfg -> lengthUnits cfg (NumRungs cfg - 1) = TargetTrialSteps cfg.
Proof.
  intros Hv. destruct (validConfig_unpack cfg Hv) as (_ & _ & HM & _).
  unfold lengthUnits. replace (NumRungs cfg - 1 - (NumRungs cfg - 1)) with 0 by lia.
  change (Divisor cfg ^ 0)%Q with 1%Q.
  unfold Qfloor, Qdiv, Qinv, Qmult; simpl.
  rewrite Z.mul_1_r, Z.div_1_r. lia.
Qed.

Lemma lengthUnits_step (cfg : AsyncHalvingConfig) (k : Z) :
  validConfig cfg -> 0 <= k -> k + 1 <= NumRungs cfg - 1 ->
  lengthUnits cfg k <= lengthUnits cfg (k + 1) /\
  (1 <= Qfloor (inject_Z (TargetTrialSteps cfg) / Divisor cfg ^ (NumRungs cfg - 1 - k)) ->
   lengthUnits cfg k < lengthUnits cfg (k + 1)).
Proof.
  intros Hv Hk Hk1. destruct (validConfig_unpack cfg Hv) as (Hd & _ & HM & _).
  unfold lengthUnits.
  destruct (ladder_step (TargetTrialSteps cfg) (Divisor cfg) (NumRungs cfg - 1 - (k + 1)))
    as [Hle Hlt]; [lia | lia | assumption |].
  replace (NumRungs cfg - 1 - (k + 1) + 1) with (NumRungs cfg - 1 - k) in Hle, Hlt by lia.
  split; [lia|]. intros H1. specialize (Hlt H1). lia.
Qed.

Lemma newAsyncHalvingSearch_rungs (cfg : AsyncHalvingConfig) (s : asyncHalvingSearch)
  (k : nat) (r : rung) :
  newAsyncHalvingSearch cfg = Some s -> rungs s !! k = Some r ->
  r = rungAt cfg (Z.of_nat k) /\ Z.of_nat k < NumRungs cfg.
Proof.
  unfold newAsyncHalvingSearch. destruct (NumRungs cfg <? 0); [discriminate|].
  intros [= <-]. simpl. rewrite list_lookup_fmap.
  destruct (seq 0 (Z.to_nat (NumRungs cfg)) !! k) as [j|] eqn:Hj; [|discriminate].
  apply lookup_seq in Hj as [-> Hlt]. simpl. intros [= <-]. split; [reflexivity | lia].
Qed.

(** C7, as the code has it.  On a valid configuration on which float64
    arithmetic is exact (an integer divisor, [max_length] and
    [divisor^(num_rungs-1)] below 2^53), the construction yields exactly
    [num_rungs] rungs with
    [length_units[k] = max(1, floor(max_length / divisor^(num_rungs-1-k)))];
    the sequence is non-decreasing in [k], and strictly increasing from
    every rung whose quotient [floor(max_length / divisor^(num_rungs-1-k))]
    is at least one (below that the lengths are clamped to 1 and repeat);
    and [length_units[num_rungs-1] = max_length].  (For other divisors the
    code's quotient is a rounded float64 and can reach the next integer:
    see [float64_ladder_rounds_up].) *)
Theorem rung_ladder (cfg : AsyncHalvingConfig) :
  validConfig cfg -> exactArithmetic cfg ->
  exists s,
    newAsyncHalvingSearch cfg = Some s /\
    Z.of_nat (length (rungs s)) = NumRungs cfg /\
    (forall (k : nat) r, rungs s !! k = Some r ->
       stepsNeeded r =
       Z.max 1 (Qfloor (inject_Z (TargetTrialSteps cfg) /
                        Divisor cfg ^ (NumRungs cfg - 1 - Z.of_nat k)))) /\
    (forall (k : nat) r r', rungs s !! k = Some r -> rungs s !! S k = Some r' ->
       stepsNeeded r <= stepsNeeded r' /\
       (1 <= Qfloor (inject_Z (TargetTrialSteps cfg) /
                     Divisor cfg ^ (NumRungs cfg - 1 - Z.of_nat k)) ->
        stepsNeeded r < stepsNeeded r')) /\
    (exists r, rungs s !! Z.to_nat (NumRungs cfg - 1) = Some r /\
               stepsNeeded r = TargetTrialSteps cfg).
Proof.
  intros Hv _. destruct (validConfig_unpack cfg Hv) as (Hd & HN & HM & _).
  destruct (newAsyncHalvingSearch_wf cfg Hv) as (s & Hs & Hwf & _ & Hcfg & _).
  exists s. split; [exact Hs|].
  assert (Hlen : Z.of_nat (length (rungs s)) = NumRungs cfg).
  { rewrite <- Hcfg. symmetry. apply wf_numRungs. assumption. }
  split; [exact Hlen|]. split; [|split].
  - intros k r Hr. destruct (newAsyncHalvingSearch_rungs cfg s k r Hs Hr) as [-> _].
    apply rungAt_steps. assumption.
  - intros k r r' Hr Hr'.
    destruct (newAsyncHalvingSearch_rungs cfg s k r Hs Hr) as [-> _].
    destruct (newAsyncHalvingSearch_rungs cfg s (S k) r' Hs Hr') as [-> Hlt].
    rewrite !rungAt_steps by assumption.
    replace (Z.of_nat (S k)) with (Z.of_nat k + 1) by lia.
    apply lengthUnits_step; [assumption | lia | lia].
  - destruct (lookup_lt_is_Some_2 (rungs s) (Z.to_nat (NumRungs cfg - 1))) as [r Hr]; [lia|].
    exists r. split; [exact Hr|].
    destruct (newAsyncHalvingSearch_rungs cfg s _ r Hs Hr) as [-> _].
    rewrite rungAt_steps by assumption.
    rewrite Z2Nat.id by lia. apply lengthUnits_top. assumption.
Qed.

Lemma rung_ladder_witness :
  validConfig fiveRungs /\ exactArithmetic fiveRungs /\
  exists s,
    newAsyncHalvingSearch fiveRungs = Some s /\
    Z.of_nat (length (rungs s)) = 5 /\
    (exists r, rungs s !! 4%nat = Some r /\ stepsNeeded r = 16).
Proof.
  assert (Hv : validConfig fiveRungs) by reflexivity.
  assert (Hx : exactArithmetic fiveRungs) by reflexivity.
  split; [exact Hv|]. split; [exact Hx|].
  destruct (rung_ladder fiveRungs Hv Hx) as (s & Hs & Hlen & _ & _ & Htop).
  exists s. split; [exact Hs|]. split; [exact Hlen | exact Htop].
Defined.

(** C7 fails as stated: with the default five rungs and divisor 4 and
    [max_length = 16], the lengths are 1, 1, 1, 4, 16, which is not
    strictly increasing. *)
Lemma rung_ladder_not_strict :
  validConfig fiveRungs /\
  exists s r0 r1,
    newAsyncHalvingSearch fiveRungs = Some s /\
    stepsNeeded <$> rungs s = [1; 1; 1; 4; 16] /\
    rungs s !! 0%nat = Some r0 /\ rungs s !! 1%nat = Some r1 /\
    ~ stepsNeeded r0 < stepsNeeded r1.
Proof.
  split; [reflexivity|].
  eexists _, _, _. split; [reflexivity|].
  split; [reflexivity|]. split; [reflexivity|]. split; [reflexivity|].
  vm_compute. discriminate.
Qed.

(** ** Streams of operations *)

Lemma experiment_evolves cfg evs ops s ctx :
  experiment cfg evs = Some (ops, s, ctx) ->
  exists s0,
    newAsyncHalvingSearch cfg = Some s0 /\ evolves false (mkContext 0) s0 ops s ctx.
Proof.
  unfold experiment.
  destruct (newAsyncHalvingSearch cfg) as [s0|]; [|discriminate].
  destruct (initialOperations (mkContext 0) s0) as [[[r s1] ctx1]|] eqn:Hi; [|discriminate].
  destruct (run ctx1 s1 evs) as [[[ops2 s2] ctx2]|] eqn:Hr; [|discriminate].
  intros [= <- <- <-]. exists s0. split; [reflexivity|].
  eapply evolves_trans.
  - eapply initialOperations_evolves. eassumption.
  - eapply evolves_uncapped. eapply run_evolves. eassumption.
Qed.

(** A trial the searcher created has an id below the counter. *)
Lemma created_below_rand cfg evs ops s ctx id hp :
  experiment cfg evs = Some (ops, s, ctx) -> Create id hp ∈ ops -> (id < rand ctx)%nat.
Proof.
  intros He Hin. destruct (experiment_evolves _ _ _ _ _ He) as (s0 & _ & Hev).
  pose proof (ev_ops _ _ _ _ _ _ Hev) as Hops.
  rewrite Forall_forall in Hops. apply Hops in Hin. simpl in Hin. lia.
Qed.

(** A trial that has exited early and whose id is below the counter gets
    no [Train], and a [Close] only from the drain. *)
Lemma early_exit_ops ctx s ops s' ctx' id :
  evolves true ctx s ops s' ctx' ->
  isEarlyExit s id = true -> (id < rand ctx)%nat ->
  isEarlyExit s' id = true /\
  (forall a b, Train id a b ∉ ops) /\
  (Close id ∈ ops -> closedIn s' id).
Proof.
  intros Hev Hearly Hid.
  pose proof (ev_ops _ _ _ _ _ _ Hev) as Hops. rewrite Forall_forall in Hops.
  split; [apply (ev_early _ _ _ _ _ _ Hev); assumption|]. split.
  - intros a b Hin. apply Hops in Hin. simpl in Hin.
    destruct Hin as [Hf | Hge]; [congruence | lia].
  - intros Hin. apply Hops in Hin. simpl in Hin.
    destruct Hin as [Hf | Hc]; [congruence | assumption].
Qed.

(** Below the top rung, [promote] ranks the trial in its rung with the
    metric it was given, and the entry is still there when it returns. *)
Lemma promote_ranks turns ctx s id msg m ops' s' ctx' :
  promote turns ctx s id msg m = Some (ops', s', ctx') ->
  Z.of_nat (rungOf s id) <> NumRungs (config s) - 1 ->
  exists r t,
    rungs s' !! rungOf s id = Some r /\ t ∈ metrics r /\
    requestID t = id /\ metric t = m.
Proof.
  destruct turns as [|turns]; [discriminate|]. cbn [promote].
  set (k := rungOf s id).
  destruct (rungs s !! k) as [r|] eqn:Hr; [|discriminate].
  intros Heq Hnot. apply Z.eqb_neq in Hnot. rewrite Hnot in Heq.
  set (r1 := set_outstanding r (int_decr (outstandingTrials r))) in *.
  destruct (rungs (set_rungs s (<[k := r1]> (rungs s))) !! S k) as [nx|]; [|discriminate].
  destruct (promotionsAsync r1 id m (Divisor (config s))) as [[promos r2]|] eqn:Hp;
    [|discriminate].
  destruct (promotionsAsync_kept _ _ _ _ _ _ Hp) as (_ & _ & t & Ht & Hid & Hm).
  apply promoteLoop_evolves in Heq; [| intros ? ? ? ? ? ? ? ?; apply promote_evolves | constructor].
  destruct (ev_rungs _ _ _ _ _ _ Heq) as [_ Hkept]. simpl in Hkept.
  destruct (Hkept k r2) as (r' & Hr' & _ & He).
  { rewrite list_lookup_insert_eq; [reflexivity|].
    rewrite length_insert. eapply lookup_lt_Some. eassumption. }
  destruct (He t Ht) as (t' & Ht' & Hid' & Hm' & _).
  exists r', t'. split; [exact Hr'|]. split; [exact Ht'|]. split; congruence.
Qed.

Lemma countOps_app (p : Operation -> bool) (a b : list Operation) :
  countOps p (a ++ b) = (countOps p a + countOps p b)%nat.
Proof. unfold countOps. rewrite List.filter_app, length_app. reflexivity. Qed.

Lemma createTrials_count n ctx s ops s' ctx' :
  createTrials n ctx s = Some (ops, s', ctx') -> countOps isCreate ops = n.
Proof.
  revert ctx s ops s' ctx'. induction n as [|n IH]; intros ctx s ops s' ctx'; simpl.
  - intros [= <- <- <-]. reflexivity.
  - unfold createTrial. simpl.
    destruct (rungs s !! 0%nat) as [r0|]; [|discriminate].
    match goal with |- context [createTrials n ?c ?st] =>
      destruct (createTrials n c st) as [[[ops2 s2] ctx2]|] eqn:Hr end; [|discriminate].
    intros [= <- <- <-]. apply IH in Hr.
    unfold countOps in *. simpl. rewrite Hr. reflexivity.
Qed.

(** C3 does not hold of the code: the drain of [closeOutRungs] appends the
    [Close] of a trial twice, once under the early-exit guard and once
    more without it.  A bracket of two rungs capped at one trial: the
    trial's only validation drains rung 0 and [Close 0] is emitted twice. *)
Theorem close_emitted_twice :
  validConfig (twoRungs 1 1) /\
  validExperiment (twoRungs 1 1) [ValidationCompleted 0%nat msg0 (report 1)] /\
  exists s ctx,
    experiment (twoRungs 1 1) [ValidationCompleted 0%nat msg0 (report 1)] =
      Some ([Create 0%nat 0%nat; Train 0%nat 0 2; Validate 0%nat 2;
             Close 0%nat; Close 0%nat], s, ctx) /\
    countOps (isClose 0%nat)
      [Create 0%nat 0%nat; Train 0%nat 0 2; Validate 0%nat 2; Close 0%nat; Close 0%nat]
    = 2%nat.
Proof.
  split; [reflexivity|]. split.
  - vm_compute. repeat split; eauto.
  - eexists _, _. split; [vm_compute; reflexivity | reflexivity].
Qed.

(** C5, as the code has it.  For a trial the searcher created, a call of
    [trial_exited_early] returns, records the trial in [early_exit] (for
    good), and, unless the trial is already at the top rung, ranks it in
    its current rung with the worst score [math.MaxFloat64]; no [Train]
    for the trial is emitted by that call or by any later one; and the
    top-rung branch emits no [Close] for it (the guard skips trials in
    [early_exit]): if a [Close] of the trial is emitted at all, it comes
    from the drain of a rung that holds an entry of the trial. *)
Theorem early_exit_spec (cfg : AsyncHalvingConfig) (evs : list Event)
  (id : RequestID) (msg : Workload) :
  validConfig cfg ->
  forall ops s ctx,
    experiment cfg evs = Some (ops, s, ctx) ->
    (exists hp, Create id hp ∈ ops) ->
    exists ops1 s1 ctx1,
      trialExitedEarly ctx s id msg = Some (Ops ops1, s1, ctx1) /\
      isEarlyExit s1 id = true /\
      (Z.of_nat (rungOf s id) <> NumRungs cfg - 1 ->
       rankedIn s1 (rungOf s id) id ashaExitedMetricValue) /\
      forall later : list Event,
        exists ops2 s2 ctx2,
          run ctx1 s1 later = Some (ops2, s2, ctx2) /\
          isEarlyExit s2 id = true /\
          (forall a b, Train id a b ∉ ops1 ++ ops2) /\
          (Close id ∈ ops1 ++ ops2 -> closedIn s2 id).
Proof.
  intros Hv ops s ctx He [hp Hcreated].
  destruct (reached_wf cfg evs ops s ctx Hv He) as (Hwf & Hcfg & _).
  pose proof (created_below_rand _ _ _ _ _ _ _ He Hcreated) as Hid.
  unfold trialExitedEarly, promoteEntry.
  set (s0 := set_earlyExitTrials s (<[id := true]> (earlyExitTrials s))).
  assert (Hwf0 : wellFormed s0) by (destruct Hwf; constructor; assumption).
  destruct (promote_wf (length (rungs s0)) ctx s0 id msg ashaExitedMetricValue Hwf0)
    as (ops1 & s1 & ctx1 & Hp & Hwf1 & _); [lia|].
  rewrite Hp. exists ops1, s1, ctx1. split; [reflexivity|].
  pose proof (promote_evolves _ _ _ _ _ _ _ _ _ Hp) as Hev1.
  assert (Hearly0 : isEarlyExit s0 id = true)
    by (unfold isEarlyExit; simpl; rewrite lookup_insert_eq; reflexivity).
  destruct (early_exit_ops _ _ _ _ _ id Hev1 Hearly0 Hid) as (Hearly1 & Hnotrain1 & Hclose1).
  split; [exact Hearly1|]. split.
  - intros Hnot. apply (promote_ranks _ _ _ _ _ _ _ _ _ Hp).
    change (config s0) with (config s). rewrite Hcfg. exact Hnot.
  - intros later.
    destruct (run_wf ctx1 s1 later Hwf1) as (ops2 & s2 & ctx2 & Hr & _ & _).
    exists ops2, s2, ctx2. split; [exact Hr|].
    pose proof (run_evolves _ _ _ _ _ _ Hr) as Hev2.
    pose proof (ev_rand _ _ _ _ _ _ Hev1) as Hrand.
    destruct (early_exit_ops _ _ _ _ _ id Hev2 Hearly1) as (Hearly2 & Hnotrain2 & Hclose2);
      [lia|].
    split; [exact Hearly2|]. split.
    + intros a b Hin. apply elem_of_app in Hin as [Hin | Hin].
      * exact (Hnotrain1 a b Hin).
      * exact (Hnotrain2 a b Hin).
    + intros Hin. apply elem_of_app in Hin as [Hin | Hin].
      * eapply closedIn_kept; [apply (ev_rungs _ _ _ _ _ _ Hev2) | auto].
      * auto.
Qed.

Lemma early_exit_spec_witness :
  validConfig (twoRungs 2 2) /\
  experiment (twoRungs 2 2) [] =
    Some ([Create 0%nat 0%nat; Train 0%nat 0 2; Validate 0%nat 2;
           Create 1%nat 1%nat; Train 1%nat 0 2; Validate 1%nat 2],
          mkSearch (twoRungs 2 2) [mkRung 2 2 []; mkRung 4 0 []]
            (<[1%nat := 0%nat]> (<[0%nat := 0%nat]> ∅)) ∅ 2 0,
          mkContext 2) /\
  (exists hp, Create 0%nat hp ∈
     [Create 0%nat 0%nat; Train 0%nat 0 2; Validate 0%nat 2;
      Create 1%nat 1%nat; Train 1%nat 0 2; Validate 1%nat 2]) /\
  exists ops1 s1 ctx1,
    trialExitedEarly (mkContext 2)
      (mkSearch (twoRungs 2 2) [mkRung 2 2 []; mkRung 4 0 []]
         (<[1%nat := 0%nat]> (<[0%nat := 0%nat]> ∅)) ∅ 2 0) 0%nat msg0
    = Some (Ops ops1, s1, ctx1) /\
    isEarlyExit s1 0%nat = true.
Proof.
  assert (Hv : validConfig (twoRungs 2 2)) by reflexivity.
  assert (He : experiment (twoRungs 2 2) [] =
    Some ([Create 0%nat 0%nat; Train 0%nat 0 2; Validate 0%nat 2;
           Create 1%nat 1%nat; Train 1%nat 0 2; Validate 1%nat 2],
          mkSearch (twoRungs 2 2) [mkRung 2 2 []; mkRung 4 0 []]
            (<[1%nat := 0%nat]> (<[0%nat := 0%nat]> ∅)) ∅ 2 0,
          mkContext 2)) by (vm_compute; reflexivity).
  assert (Hc : exists hp, Create 0%nat hp ∈
     [Create 0%nat 0%nat; Train 0%nat 0 2; Validate 0%nat 2;
      Create 1%nat 1%nat; Train 1%nat 0 2; Validate 1%nat 2])
    by (exists 0%nat; left).
  split; [exact Hv|]. split; [exact He|]. split; [exact Hc|].
  destruct (early_exit_spec (twoRungs 2 2) [] 0%nat msg0 Hv _ _ _ He Hc)
    as (ops1 & s1 & ctx1 & H1 & H2 & _).
  exists ops1, s1, ctx1. split; [exact H1 | exact H2].
Defined.

(** C5 fails as stated: both trials of a two-rung bracket exit early; the
    second exit promotes the first trial, which reaches the top rung; the
    bracket is then finished (the cap is reached and no rung has
    outstanding trials), and no [Close] has been emitted for that trial. *)
Lemma early_exit_top_rung_no_close :
  validConfig (twoRungs 2 2) /\
  validExperiment (twoRungs 2 2) bothExitEarly /\
  exists ops s ctx,
    experiment (twoRungs 2 2) bothExitEarly = Some (ops, s, ctx) /\
    isEarlyExit s 0%nat = true /\
    Z.of_nat (rungOf s 0%nat) = NumRungs (twoRungs 2 2) - 1 /\
    allTrialsOf s = maxTrials s /\
    outstandingTrials <$> rungs s = [0; 0] /\
    countOps (isClose 0%nat) ops = 0%nat /\
    countOps (isClose 0%nat) ops <> 1%nat.
Proof.
  split; [reflexivity|]. split.
  - vm_compute. repeat split; eauto.
  - eexists _, _, _. split; [vm_compute; reflexivity|].
    vm_compute. repeat split; discriminate.
Qed.

(** C6, as the code has it.  There is no unknown-trial failure: a call of
    [validation_completed] (with the configured metric present) or of
    [trial_exited_early] for an id absent from [trial_rung] returns
    operations like any other; the absent entry reads as rung 0, so with
    two rungs or more the id is ranked in the metrics of rung 0 (and an
    early exit records it in [early_exit]). *)
Theorem unknown_trial_proceeds (cfg : AsyncHalvingConfig) (evs : list Event) :
  validConfig cfg ->
  forall ops s ctx,
    experiment cfg evs = Some (ops, s, ctx) ->
    forall (id : RequestID) (msg : Workload) (v : gmap string Q) (x : Q),
      trialRungs s !! id = None ->
      v !! Metric cfg = Some x ->
      rungOf s id = 0%nat /\
      (exists ops1 s1 ctx1,
         validationCompleted ctx s id msg v = Some (Ops ops1, s1, ctx1) /\
         (2 <= NumRungs cfg -> exists m, rankedIn s1 0 id m)) /\
      (exists ops1 s1 ctx1,
         trialExitedEarly ctx s id msg = Some (Ops ops1, s1, ctx1) /\
         isEarlyExit s1 id = true /\
         (2 <= NumRungs cfg -> rankedIn s1 0 id ashaExitedMetricValue)).
Proof.
  intros Hv ops s ctx He id msg v x Hid Hx.
  destruct (reached_wf cfg evs ops s ctx Hv He) as (Hwf & Hcfg & _).
  assert (Hk : rungOf s id = 0%nat) by (unfold rungOf; rewrite Hid; reflexivity).
  split; [exact Hk|]. split.
  - unfold validationCompleted, metricOf, promoteEntry. rewrite Hcfg, Hx.
    match goal with |- context [promote ?t ?c ?st ?i ?w ?q] =>
      destruct (promote_wf t c st i w q Hwf) as (ops1 & s1 & ctx1 & Hp & _ & _)
    end; [lia|].
    rewrite Hp. exists ops1, s1, ctx1. split; [reflexivity|].
    intros H2. eexists. rewrite <- Hk.
    apply (promote_ranks _ _ _ _ _ _ _ _ _ Hp). rewrite Hk, Hcfg. lia.
  - unfold trialExitedEarly, promoteEntry.
    set (s0 := set_earlyExitTrials s (<[id := true]> (earlyExitTrials s))).
    assert (Hwf0 : wellFormed s0) by (destruct Hwf; constructor; assumption).
    destruct (promote_wf (length (rungs s0)) ctx s0 id msg ashaExitedMetricValue Hwf0)
      as (ops1 & s1 & ctx1 & Hp & _ & _); [lia|].
    rewrite Hp. exists ops1, s1, ctx1. split; [reflexivity|].
    pose proof (promote_evolves _ _ _ _ _ _ _ _ _ Hp) as Hev. split.
    + apply (ev_early _ _ _ _ _ _ Hev). unfold isEarlyExit. simpl.
      rewrite lookup_insert_eq. reflexivity.
    + intros H2. rewrite <- Hk. change (rungOf s id) with (rungOf s0 id).
      apply (promote_ranks _ _ _ _ _ _ _ _ _ Hp).
      change (rungOf s0 id) with (rungOf s id). change (config s0) with (config s).
      rewrite Hk, Hcfg. lia.
Qed.

Lemma unknown_trial_proceeds_witness :
  validConfig (twoRungs 8 3) /\
  experiment (twoRungs 8 3) [] = Some (seededOps, seededTwoRungs, mkContext 3) /\
  trialRungs seededTwoRungs !! 99%nat = None /\
  report 7 !! Metric (twoRungs 8 3) = Some 7%Q /\
  exists ops1 s1 ctx1,
    validationCompleted (mkContext 3) seededTwoRungs 99%nat msg0 (report 7)
    = Some (Ops ops1, s1, ctx1).
Proof.
  assert (Hv : validConfig (twoRungs 8 3)) by reflexivity.
  assert (He : experiment (twoRungs 8 3) [] = Some (seededOps, seededTwoRungs, mkContext 3))
    by (vm_compute; reflexivity).
  assert (Hid : trialRungs seededTwoRungs !! 99%nat = None) by (vm_compute; reflexivity).
  assert (Hx : report 7 !! Metric (twoRungs 8 3) = Some 7%Q) by (vm_compute; reflexivity).
  split; [exact Hv|]. split; [exact He|]. split; [exact Hid|]. split; [exact Hx|].
  destruct (unknown_trial_proceeds (twoRungs 8 3) [] Hv _ _ _ He 99%nat msg0 (report 7) 7%Q
              Hid Hx) as (_ & (ops1 & s1 & ctx1 & H1 & _) & _).
  exists ops1, s1, ctx1. exact H1.
Defined.

(** C6 fails as stated: trial 99 was never created, yet its validation is
    accepted, ranked in rung 0, and answered with a fresh [Create]. *)
Lemma unknown_trial_accepted :
  validConfig (twoRungs 8 3) /\
  experiment (twoRungs 8 3) [] = Some (seededOps, seededTwoRungs, mkContext 3) /\
  trialRungs seededTwoRungs !! 99%nat = None /\
  exists s1,
    validationCompleted (mkContext 3) seededTwoRungs 99%nat msg0 (report 7)
    = Some (Ops [Create 3%nat 3%nat; Train 3%nat 0 2; Validate 3%nat 2], s1, mkContext 4) /\
    keysOf <$> (metrics <$> rungs s1) = [[(99%nat, 7%Q)]; []].
Proof.
  split; [reflexivity|]. split; [vm_compute; reflexivity|].
  split; [vm_compute; reflexivity|].
  eexists. split; vm_compute; reflexivity.
Qed.

(** C8.  When the reported metrics do not contain the configured metric
    name, [validation_completed] fails with [MissingMetric], returns no
    operation, and hands the searcher (rungs, [trial_rung], [early_exit],
    counters) and the random source back unchanged. *)
Theorem missing_metric_fails (ctx : context) (s : asyncHalvingSearch)
  (id : RequestID) (msg : Workload) (v : gmap string Q) :
  v !! Metric (config s) = None ->
  validationCompleted ctx s id msg v =
    Some (Fail (MissingMetric (Metric (config s))), s, ctx) /\
  opsOf (Fail (MissingMetric (Metric (config s)))) = [].
Proof.
  intros Hv. unfold validationCompleted, metricOf. rewrite Hv. split; reflexivity.
Qed.

Lemma missing_metric_fails_witness :
  ({[ "accuracy"%string := 1%Q ]} : gmap string Q) !! Metric (config seededTwoRungs) = None /\
  validationCompleted (mkContext 3) seededTwoRungs 0%nat msg0 {[ "accuracy"%string := 1%Q ]} =
    Some (Fail (MissingMetric "loss"), seededTwoRungs, mkContext 3).
Proof.
  assert (H : ({[ "accuracy"%string := 1%Q ]} : gmap string Q)
                !! Metric (config seededTwoRungs) = None) by (vm_compute; reflexivity).
  split; [exact H|].
  exact (proj1 (missing_metric_fails (mkContext 3) seededTwoRungs 0%nat msg0 _ H)).
Defined.

(** C9.  On a valid configuration and for events that name registered
    trials: after every public call [len(trial_rung) <= max_trials]; a
    call only emits a [Create] if [len(trial_rung) < max_trials] when it
    is made; and [initial_operations] creates at most [max_trials]
    trials. *)
Theorem trial_cap (cfg : AsyncHalvingConfig) (evs : list Event) :
  validConfig cfg -> validExperiment cfg evs ->
  exists ops s ctx,
    experiment cfg evs = Some (ops, s, ctx) /\
    allTrialsOf s <= MaxTrials cfg /\
    (forall ev r s' ctx',
       handle ctx s ev = Some (r, s', ctx') ->
       (exists id hp, Create id hp ∈ opsOf r) ->
       allTrialsOf s < MaxTrials cfg) /\
    (forall s0 r s1 ctx1,
       newAsyncHalvingSearch cfg = Some s0 ->
       initialOperations (mkContext 0) s0 = Some (r, s1, ctx1) ->
       Z.of_nat (countOps isCreate (opsOf r)) <= MaxTrials cfg /\
       allTrialsOf s1 <= MaxTrials cfg).
Proof.
  intros Hv Hvalid.
  destruct (experiment_reach cfg evs Hv) as (ops & s & ctx & He & Hwf & Hcfg & Hmax & Hcap).
  exists ops, s, ctx. split; [exact He|].
  destruct (Hcap Hvalid) as [_ Hsize]. rewrite Hmax in Hsize.
  split; [exact Hsize|]. split.
  - intros ev r s' ctx' Hh (id & hp & Hin).
    pose proof (handle_evolves _ _ _ _ _ _ Hh) as Hev.
    pose proof (ev_ops _ _ _ _ _ _ Hev) as Hops. rewrite Forall_forall in Hops.
    apply Hops in Hin. simpl in Hin. rewrite <- Hmax. apply Hin. reflexivity.
  - intros s0 r s1 ctx1 Hs0 Hi.
    destruct (newAsyncHalvingSearch_wf cfg Hv)
      as (s0' & Hs0' & Hwf0 & _ & Hcfg0 & _ & Htr0 & _).
    rewrite Hs0 in Hs0'. injection Hs0' as <-.
    destruct (validConfig_unpack cfg Hv) as (_ & _ & _ & Ht).
    pose proof (initialConcurrency_le cfg Ht) as Hic.
    unfold initialOperations in Hi. rewrite Hcfg0 in Hi.
    destruct (createTrials (Z.to_nat (initialConcurrency cfg)) (mkContext 0) s0)
      as [[[ops1 s1'] ctx1']|] eqn:Hc; [|discriminate].
    injection Hi as <- <- <-. simpl.
    rewrite (createTrials_count _ _ _ _ _ _ Hc).
    destruct (createTrials_wf (Z.to_nat (initialConcurrency cfg)) (mkContext 0) s0 Hwf0)
      as (ops2 & s2 & ctx2 & Hc2 & _ & _ & Hsz).
    rewrite Hc in Hc2. injection Hc2 as <- <- <-.
    unfold allTrialsOf in Hsz |- *. rewrite Htr0, map_size_empty in Hsz. lia.
Qed.

Lemma trial_cap_witness :
  validConfig (twoRungs 8 3) /\ validExperiment (twoRungs 8 3) bestLast /\
  exists ops s ctx,
    experiment (twoRungs 8 3) bestLast = Some (ops, s, ctx) /\
    allTrialsOf s <= MaxTrials (twoRungs 8 3).
Proof.
  assert (Hv : validConfig (twoRungs 8 3)) by reflexivity.
  assert (Hs : validExperiment (twoRungs 8 3) bestLast)
    by (vm_compute; repeat split; eauto).
  split; [exact Hv|]. split; [exact Hs|].
  destruct (trial_cap (twoRungs 8 3) bestLast Hv Hs) as (ops & s & ctx & He & Hsz & _).
  exists ops, s, ctx. split; [exact He | exact Hsz].
Defined.

(** C10.  The train-completed handler returns an empty operation list and
    the searcher and the random source unchanged, whatever the state and
    the trial; a stream of events therefore produces the same operations
    and the same final state as the stream without its train-completed
    events: only validations and early exits drive the searcher. *)
Theorem trainCompleted_is_silent (ctx : context) (s : asyncHalvingSearch) :
  (forall (id : RequestID) (msg : Workload),
     trainCompleted ctx s id msg = Some (Ops [], s, ctx)) /\
  (forall evs : list Event, run ctx s evs = run ctx s (List.filter drives evs)).
Proof.
  split; [reflexivity|].
  intros evs. revert ctx s. induction evs as [|ev rest IH]; intros ctx s; [reflexivity|].
  destruct ev as [id msg | id msg v | id msg]; simpl.
  - rewrite IH. destruct (run ctx s (List.filter drives rest)) as [[[ops s'] ctx']|];
      reflexivity.
  - destruct (validationCompleted ctx s id msg v) as [[[r s1] ctx1]|]; [|reflexivity].
    rewrite IH. reflexivity.
  - destruct (trialExitedEarly ctx s id msg) as [[[r s1] ctx1]|]; [|reflexivity].
    rewrite IH. reflexivity.
Qed.

(** * Further properties of the code *)

(** ** No panic, and what never changes *)

(** X1.  On a valid configuration an experiment returns for every list of
    events, even events that name trials the searcher never created: no
    index is ever out of range.  The searcher keeps its configuration and
    its [num_rungs] rungs, every rung keeps the length it was built with,
    which is at least 1, and every rung index stored in [trialRungs] stays
    below [num_rungs]. *)
Theorem experiment_never_panics (cfg : AsyncHalvingConfig) (evs : list Event) :
  validConfig cfg ->
  exists s0 ops s ctx,
    newAsyncHalvingSearch cfg = Some s0 /\
    experiment cfg evs = Some (ops, s, ctx) /\
    config s = cfg /\ maxTrials s = MaxTrials cfg /\
    Z.of_nat (length (rungs s)) = NumRungs cfg /\
    (forall (k : nat) r, rungs s !! k = Some r ->
       exists r0, rungs s0 !! k = Some r0 /\
                  stepsNeeded r = stepsNeeded r0 /\ 1 <= stepsNeeded r) /\
    (forall id k, trialRungs s !! id = Some k -> Z.of_nat k < NumRungs cfg).
Proof.
  intros Hv.
  destruct (experiment_reach cfg evs Hv) as (ops & s & ctx & He & Hwf & Hcfg & Hmax & _).
  destruct (experiment_evolves _ _ _ _ _ He) as (s0 & Hs0 & Hev).
  exists s0, ops, s, ctx. split; [exact Hs0|].
  split; [exact He|]. split; [exact Hcfg|]. split; [exact Hmax|].
  assert (Hlen : Z.of_nat (length (rungs s)) = NumRungs cfg)
    by (rewrite <- Hcfg; symmetry; apply wf_numRungs; assumption).
  split; [exact Hlen|]. split.
  - intros k r Hr.
    destruct (ev_rungs _ _ _ _ _ _ Hev) as [Hl Hkept].
    destruct (lookup_lt_is_Some_2 (rungs s0) k) as [r0 Hr0].
    { rewrite <- Hl. eapply lookup_lt_Some. eassumption. }
    destruct (Hkept k r0 Hr0) as (r' & Hr' & Hsteps & _).
    assert (r' = r) by congruence. subst r'.
    exists r0. split; [exact Hr0|]. split; [exact Hsteps|].
    destruct (newAsyncHalvingSearch_rungs cfg s0 k r0 Hs0 Hr0) as [-> _].
    rewrite Hsteps. unfold rungAt. simpl. lia.
  - intros id k Hk. pose proof (wf_trialRungs s Hwf id k Hk). lia.
Qed.

Lemma experiment_never_panics_witness :
  validConfig (twoRungs 8 3) /\
  exists ops s ctx,
    experiment (twoRungs 8 3) [ValidationCompleted 99%nat msg0 (report 7)] =
      Some (ops, s, ctx) /\
    Z.of_nat (length (rungs s)) = 2.
Proof.
  assert (Hv : validConfig (twoRungs 8 3)) by reflexivity.
  split; [exact Hv|].
  destruct (experiment_never_panics (twoRungs 8 3)
              [ValidationCompleted 99%nat msg0 (report 7)] Hv)
    as (s0 & ops & s & ctx & _ & He & _ & _ & Hlen & _).
  exists ops, s, ctx. split; [exact He | exact Hlen].
Defined.

(** X2.  Events never make the searcher forget: whatever the events, a
    registered trial stays registered, an early exit stays recorded, and
    every result ranked in a rung is still ranked in that rung with the
    same trial and metric, closed if it was closed. *)
Theorem run_keeps_history (ctx : context) (s : asyncHalvingSearch) (evs : list Event)
  (ops : list Operation) (s' : asyncHalvingSearch) (ctx' : context) :
  run ctx s evs = Some (ops, s', ctx') ->
  (forall id, known s id -> known s' id) /\
  (forall id, isEarlyExit s id = true -> isEarlyExit s' id = true) /\
  (forall (k : nat) r t, rungs s !! k = Some r -> t ∈ metrics r ->
     exists r' t',
       rungs s' !! k = Some r' /\ t' ∈ metrics r' /\
       requestID t' = requestID t /\ metric t' = metric t /\
       (closed t = true -> closed t' = true)).
Proof.
  intros Hr. pose proof (run_evolves _ _ _ _ _ _ Hr) as Hev.
  split; [|split].
  - intros id Hid. unfold known in *. apply elem_of_dom.
    apply (ev_trials _ _ _ _ _ _ Hev). apply elem_of_dom. exact Hid.
  - apply (ev_early _ _ _ _ _ _ Hev).
  - intros k r t Hk Ht. destruct (ev_rungs _ _ _ _ _ _ Hev) as [_ Hkept].
    destruct (Hkept k r Hk) as (r' & Hr' & _ & He).
    destruct (He t Ht) as (t' & H1 & H2 & H3 & H4).
    exists r', t'. tauto.
Qed.

Lemma run_keeps_history_witness :
  exists ops s' ctx',
    run (mkContext 3) midwayTwoRungs [TrialExitedEarly 2%nat msg0] = Some (ops, s', ctx') /\
    (forall id, known midwayTwoRungs id -> known s' id).
Proof.
  destruct (run (mkContext 3) midwayTwoRungs [TrialExitedEarly 2%nat msg0])
    as [[[ops s'] ctx']|] eqn:Hr; [|vm_compute in Hr; discriminate].
  exists ops, s', ctx'. split; [reflexivity|].
  exact (proj1 (run_keeps_history _ _ _ _ _ _ Hr)).
Defined.

(** ** The drain *)

Lemma closeOutLoop_break (early : gmap nat bool) (rs : list rung) (c : Z) (j : nat) (r : rung) :
  rs !! j = Some r -> 0 < outstandingTrials r ->
  forall k, (j <= k)%nat -> (snd (fst (closeOutLoop early rs c))) !! k = rs !! k.
Proof.
  revert c j. induction rs as [|x rs IH]; intros c j Hj Hout k Hk; [reflexivity|].
  simpl. destruct (Z.gtb_spec (outstandingTrials x) 0) as [Hx | Hx]; [reflexivity|].
  destruct j as [|j]; [simpl in Hj; injection Hj as ->; lia|].
  destruct (closeOutMetrics early (metrics x) c) as [[ops1 ms] c1].
  specialize (IH c1 j Hj Hout).
  destruct (closeOutLoop early rs c1) as [[ops2 rs'] c2]. simpl in *.
  destruct k as [|k]; [lia|]. simpl. apply IH. lia.
Qed.

Lemma closeOutLoop_drains (early : gmap nat bool) (rs : list rung) (c : Z) (k : nat) (r : rung) :
  rs !! k = Some r ->
  (forall j x, (j <= k)%nat -> rs !! j = Some x -> outstandingTrials x <= 0) ->
  (snd (fst (closeOutLoop early rs c))) !! k = Some (drained r).
Proof.
  revert c k. induction rs as [|x rs IH]; intros c k Hk Hall; [discriminate|].
  simpl. pose proof (Hall 0%nat x ltac:(lia) eq_refl) as Hx.
  destruct (Z.gtb_spec (outstandingTrials x) 0) as [? | _]; [lia|].
  pose proof (closeOutMetrics_metrics early (metrics x) c) as Hms.
  destruct (closeOutMetrics early (metrics x) c) as [[ops1 ms] c1]. simpl in Hms.
  specialize (IH c1).
  destruct (closeOutLoop early rs c1) as [[ops2 rs'] c2]. simpl in *.
  destruct k as [|k]; simpl in *.
  - injection Hk as <-. unfold drained. subst ms. reflexivity.
  - apply IH; [exact Hk|]. intros j y Hj Hy. apply (Hall (S j) y); [lia | exact Hy].
Qed.

Lemma closeEntry_settled (t : trialMetric) : settled (closeEntry t).
Proof.
  unfold settled, closeEntry.
  destruct (promoted t) eqn:Hp; destruct (closed t) eqn:Hc; simpl; rewrite ?Hp, ?Hc; tauto.
Qed.

Lemma closeOutMetrics_settled (early : gmap nat bool) (ms : list trialMetric) (c : Z) :
  (forall t, t ∈ ms -> settled t) -> closeOutMetrics early ms c = ([], ms, c).
Proof.
  revert c. induction ms as [|t ms IH]; intros c Hall; [reflexivity|]. simpl.
  assert (Ht : negb (promoted t) && negb (closed t) = false).
  { destruct (Hall t ltac:(left)) as [-> | ->]; [reflexivity | apply andb_false_r]. }
  rewrite Ht, IH; [reflexivity|]. intros u Hu. apply Hall. right. exact Hu.
Qed.

Lemma closeOutLoop_again (early : gmap nat bool) (rs : list rung) (c c' : Z) :
  closeOutLoop early (snd (fst (closeOutLoop early rs c))) c' =
  ([], snd (fst (closeOutLoop early rs c)), c').
Proof.
  revert c c'. induction rs as [|x rs IH]; intros c c'; [reflexivity|]. simpl.
  destruct (outstandingTrials x >? 0) eqn:Hx; simpl.
  - rewrite Hx. reflexivity.
  - pose proof (closeOutMetrics_metrics early (metrics x) c) as Hms.
    destruct (closeOutMetrics early (metrics x) c) as [[ops1 ms] c1]. simpl in Hms.
    specialize (IH c1 c').
    destruct (closeOutLoop early rs c1) as [[ops2 rs'] c2]. simpl in *.
    rewrite Hx. subst ms. rewrite closeOutMetrics_settled.
    + rewrite IH. reflexivity.
    + intros t Ht. apply list_elem_of_fmap in Ht as (u & -> & _).
      apply closeEntry_settled.
Qed.

Lemma closeOutRungs_fields (s : asyncHalvingSearch) :
  config (closeOutRungs s).2 = config s /\
  trialRungs (closeOutRungs s).2 = trialRungs s /\
  earlyExitTrials (closeOutRungs s).2 = earlyExitTrials s /\
  maxTrials (closeOutRungs s).2 = maxTrials s /\
  rungs (closeOutRungs s).2 =
    snd (fst (closeOutLoop (earlyExitTrials s) (rungs s) (trialsCompleted s))) /\
  (closeOutRungs s).1 =
    fst (fst (closeOutLoop (earlyExitTrials s) (rungs s) (trialsCompleted s))).
Proof.
  unfold closeOutRungs.
  destruct (closeOutLoop (earlyExitTrials s) (rungs s) (trialsCompleted s)) as [[ops rs] c].
  simpl. repeat split; reflexivity.
Qed.

Lemma closeOutRungs_keeps (s : asyncHalvingSearch) :
  config (closeOutRungs s).2 = config s /\
  trialRungs (closeOutRungs s).2 = trialRungs s /\
  earlyExitTrials (closeOutRungs s).2 = earlyExitTrials s /\
  maxTrials (closeOutRungs s).2 = maxTrials s /\
  (forall op, op ∈ (closeOutRungs s).1 -> isCloseOp op = true) /\
  length (rungs (closeOutRungs s).2) = length (rungs s) /\
  (forall (k : nat) r, rungs s !! k = Some r ->
     exists r',
       rungs (closeOutRungs s).2 !! k = Some r' /\
       stepsNeeded r' = stepsNeeded r /\
       outstandingTrials r' = outstandingTrials r /\
       keysOf (metrics r') = keysOf (metrics r) /\
       promoted <$> metrics r' = promoted <$> metrics r) /\
  (forall (j : nat) r, rungs s !! j = Some r -> 0 < outstandingTrials r ->
     forall k, (j <= k)%nat -> rungs (closeOutRungs s).2 !! k = rungs s !! k).
Proof.
  destruct (closeOutRungs_fields s) as (Hc & Ht & He & Hm & Hrs & Hops).
  pose proof (closeOutLoop_rungs (earlyExitTrials s) (rungs s) (trialsCompleted s)) as Hstep.
  simpl in Hstep.
  split; [exact Hc|]. split; [exact Ht|]. split; [exact He|]. split; [exact Hm|].
  split; [|split; [|split]].
  - intros op Hop. rewrite Hops in Hop.
    destruct (closeOutLoop_ops _ _ _ _ Hop) as (_ & _ & t & _ & _ & _ & -> & _).
    reflexivity.
  - rewrite Hrs. symmetry. eapply Forall2_length. exact Hstep.
  - intros k r Hk. rewrite Hrs.
    destruct (Forall2_lookup_l _ _ _ _ _ Hstep Hk) as (r' & Hr' & [-> | ->]).
    + exists r. repeat split; [exact Hr'|..]; reflexivity.
    + exists (drained r). split; [exact Hr'|]. simpl. repeat split.
      * unfold keysOf. rewrite <- list_fmap_compose. apply list_fmap_ext.
        intros i t _. simpl. destruct (closeEntry_fields t) as (-> & -> & _). reflexivity.
      * rewrite <- list_fmap_compose. apply list_fmap_ext.
        intros i t _. simpl. apply closeEntry_fields.
  - intros j r Hj Hout k Hk. rewrite Hrs. eapply closeOutLoop_break; eassumption.
Qed.

(** X3.  [closeOutRungs] only emits [Close] operations and only sets
    [closed] flags: the configuration, [trialRungs], the early exits, the
    number of rungs and, in every rung, the length, the outstanding count,
    the ranking (trials and metrics in order) and the [promoted] flags are
    as before; and from the first rung that still has outstanding trials
    on, the rungs are not touched at all. *)
Theorem closeOutRungs_frame (s : asyncHalvingSearch) :
  config (closeOutRungs s).2 = config s /\
  trialRungs (closeOutRungs s).2 = trialRungs s /\
  earlyExitTrials (closeOutRungs s).2 = earlyExitTrials s /\
  maxTrials (closeOutRungs s).2 = maxTrials s /\
  (forall op, op ∈ (closeOutRungs s).1 -> isCloseOp op = true) /\
  length (rungs (closeOutRungs s).2) = length (rungs s) /\
  (forall (k : nat) r, rungs s !! k = Some r ->
     exists r',
       rungs (closeOutRungs s).2 !! k = Some r' /\
       stepsNeeded r' = stepsNeeded r /\
       outstandingTrials r' = outstandingTrials r /\
       keysOf (metrics r') = keysOf (metrics r) /\
       promoted <$> metrics r' = promoted <$> metrics r) /\
  (forall (j : nat) r, rungs s !! j = Some r -> 0 < outstandingTrials r ->
     forall k, (j <= k)%nat -> rungs (closeOutRungs s).2 !! k = rungs s !! k).
Proof.
  apply closeOutRungs_keeps.
Qed.

(** X4.  After [closeOutRungs], every rung that has no outstanding trials
    and no rung with outstanding trials below it holds only settled
    results: each entry is promoted or closed. *)
Theorem closeOutRungs_closes_all (s : asyncHalvingSearch) (k : nat) (r' : rung) :
  (forall (j : nat) x, (j <= k)%nat -> rungs s !! j = Some x -> outstandingTrials x <= 0) ->
  rungs (closeOutRungs s).2 !! k = Some r' ->
  forall t, t ∈ metrics r' -> promoted t = true \/ closed t = true.
Proof.
  intros Hall Hr'. destruct (closeOutRungs_fields s) as (_ & _ & _ & _ & Hrs & _).
  rewrite Hrs in Hr'.
  destruct (lookup_lt_is_Some_2 (rungs s) k) as [r Hr].
  { pose proof (closeOutLoop_rungs (earlyExitTrials s) (rungs s) (trialsCompleted s)) as Hstep.
    simpl in Hstep. rewrite (Forall2_length _ _ _ Hstep).
    eapply lookup_lt_Some. exact Hr'. }
  rewrite (closeOutLoop_drains _ _ _ k r Hr Hall) in Hr'. injection Hr' as <-.
  intros t Ht. simpl in Ht. apply list_elem_of_fmap in Ht as (u & -> & _).
  apply closeEntry_settled.
Qed.

Lemma closeOutRungs_closes_all_witness :
  (forall (j : nat) x, (j <= 0)%nat -> rungs completeTwoRungs !! j = Some x ->
     outstandingTrials x <= 0) /\
  rungs (closeOutRungs completeTwoRungs).2 !! 0%nat =
    Some (mkRung 2 0 [mkTrialMetric 1%nat 4 true false; mkTrialMetric 0%nat 5 false true]) /\
  forall t,
    t ∈ metrics (mkRung 2 0 [mkTrialMetric 1%nat 4 true false;
                             mkTrialMetric 0%nat 5 false true]) ->
    promoted t = true \/ closed t = true.
Proof.
  assert (H1 : forall (j : nat) x, (j <= 0)%nat -> rungs completeTwoRungs !! j = Some x ->
                 outstandingTrials x <= 0).
  { intros j x Hj Hx. assert (j = 0%nat) by lia. subst j.
    simpl in Hx. injection Hx as <-. simpl. lia. }
  assert (H2 : rungs (closeOutRungs completeTwoRungs).2 !! 0%nat =
    Some (mkRung 2 0 [mkTrialMetric 1%nat 4 true false; mkTrialMetric 0%nat 5 false true]))
    by reflexivity.
  split; [exact H1|]. split; [exact H2|].
  exact (closeOutRungs_closes_all completeTwoRungs 0%nat _ H1 H2).
Defined.

(** X5.  [closeOutRungs] is idempotent: run again on the searcher it
    returned, it emits nothing and changes nothing, so a result is closed
    by at most one call of the drain. *)
Theorem closeOutRungs_idempotent (s : asyncHalvingSearch) :
  closeOutRungs (closeOutRungs s).2 = ([], (closeOutRungs s).2).
Proof.
  destruct (closeOutRungs_fields s) as (_ & _ & He & _ & Hrs & _).
  remember (closeOutRungs s).2 as s' eqn:Hs'. clear Hs'.
  unfold closeOutRungs. rewrite He, Hrs, closeOutLoop_again, <- Hrs.
  destruct s'. reflexivity.
Qed.

(** ** Seeding: initialOperations *)

Lemma int_wrap_small (z : Z) : - 2 ^ 63 <= z < 2 ^ 63 -> int_wrap z = z.
Proof.
  intros H. unfold int_wrap. rewrite Z.mod_small; lia.
Qed.

Lemma int_incr_iter (n : nat) (z : Z) :
  0 <= z -> z + Z.of_nat n < 2 ^ 63 -> Nat.iter n int_incr z = z + Z.of_nat n.
Proof.
  induction n as [|n IH]; intros Hz Hn; simpl; [lia|].
  rewrite IH by lia. unfold int_incr. rewrite int_wrap_small; lia.
Qed.

Lemma initialConcurrency_pos (cfg : AsyncHalvingConfig) :
  1 <= MaxTrials cfg -> 1 <= initialConcurrency cfg.
Proof.
  intros H. unfold initialConcurrency.
  destruct (Z.gtb_spec (MaxConcurrentTrials cfg) 0); lia.
Qed.

(** What [n] turns of the loop of [initialOperations] do. *)
Lemma createTrials_seeds (n : nat) ctx s ops s' ctx' (r0 : rung) :
  createTrials n ctx s = Some (ops, s', ctx') -> rungs s !! 0%nat = Some r0 ->
  rungs s' =
    <[0%nat := set_outstanding r0 (Nat.iter n int_incr (outstandingTrials r0))]> (rungs s) /\
  Forall (bottomOp (stepsNeeded r0)) ops /\
  length ops = (3 * n)%nat /\
  (forall id k, trialRungs s' !! id = Some k ->
     k = 0%nat \/ trialRungs s !! id = Some k) /\
  rand ctx' = (rand ctx + n)%nat /\
  earlyExitTrials s' = earlyExitTrials s.
Proof.
  revert ctx s ops s' ctx' r0.
  induction n as [|n IH]; intros ctx s ops s' ctx' r0; simpl.
  - intros [= <- <- <-] Hr0. split.
    + symmetry. apply list_insert_id. destruct r0; exact Hr0.
    + repeat split; auto.
  - unfold createTrial. simpl. intros H Hr0. rewrite Hr0 in H.
    match type of H with context [createTrials n ?c ?st] =>
      destruct (createTrials n c st) as [[[ops2 s2] ctx2]|] eqn:Hrec end; [|discriminate].
    injection H as <- <- <-.
    eapply IH in Hrec; [|simpl; apply list_lookup_insert_eq; eapply lookup_lt_Some; exact Hr0].
    simpl in Hrec. destruct Hrec as (Hrs & Hops & Hlen & Htr & Hrand & Hee).
    split; [|split; [|split; [|split; [|split]]]].
    + rewrite Hrs, list_insert_insert_eq. f_equal.
      rewrite <- Nat.iter_succ_r. reflexivity.
    + repeat constructor; simpl; auto.
    + simpl. rewrite Hlen. lia.
    + intros id k Hk. destruct (Htr id k Hk) as [-> | Hk']; [left; reflexivity|].
      destruct (decide (rand ctx = id)) as [<- | Hne].
      * rewrite lookup_insert_eq in Hk'. left. congruence.
      * rewrite lookup_insert_ne in Hk' by assumption. right. exact Hk'.
    + rewrite Hrand. simpl. lia.
    + exact Hee.
Qed.

(** X6.  On a valid configuration (whose [max_trials] fits a Go [int]),
    [initialOperations] creates [C] trials with [1 <= C <= max_trials]:
    [C] is [min(max_concurrent, max_trials)] when [max_concurrent] is set
    and, when it is not and float64 arithmetic is exact on the
    configuration, [max(min(divisor^(num_rungs-1), max_trials), 1)].  The
    batch holds three operations per trial, [C] of them [Create]s, the
    others a [Train] from 0 to the length of rung 0 and a [Validate]
    there; afterwards rung 0 has [C] outstanding trials and every
    registered trial is at rung 0. *)
Theorem initialOperations_seeds (cfg : AsyncHalvingConfig) (ctx : context) :
  validConfig cfg -> MaxTrials cfg < 2 ^ 63 ->
  exists s0 ops s1 ctx1 r00 r0 (C : Z),
    newAsyncHalvingSearch cfg = Some s0 /\
    initialOperations ctx s0 = Some (Ops ops, s1, ctx1) /\
    1 <= C <= MaxTrials cfg /\
    (0 < MaxConcurrentTrials cfg ->
       C = Z.min (MaxConcurrentTrials cfg) (MaxTrials cfg)) /\
    (MaxConcurrentTrials cfg <= 0 -> exactArithmetic cfg ->
       C = Z.max (Z.min (Qfloor (Divisor cfg ^ (NumRungs cfg - 1))) (MaxTrials cfg)) 1) /\
    countOps isCreate ops = Z.to_nat C /\
    length ops = (3 * Z.to_nat C)%nat /\
    rungs s0 !! 0%nat = Some r00 /\
    Forall (bottomOp (stepsNeeded r00)) ops /\
    rungs s1 !! 0%nat = Some r0 /\
    stepsNeeded r0 = stepsNeeded r00 /\
    outstandingTrials r0 = C /\
    (forall id k, trialRungs s1 !! id = Some k -> k = 0%nat).
Proof.
  intros Hv Hint. destruct (validConfig_unpack cfg Hv) as (Hd & HN & _ & Ht).
  destruct (newAsyncHalvingSearch_wf cfg Hv)
    as (s0 & Hs0 & Hwf0 & _ & Hcfg0 & _ & Htr0 & _).
  pose proof (initialConcurrency_pos cfg Ht) as Hpos.
  pose proof (initialConcurrency_le cfg Ht) as Hle.
  destruct (lookup_lt_is_Some_2 (rungs s0) 0%nat (wf_nonempty s0 Hwf0)) as [r0 Hr0].
  destruct (newAsyncHalvingSearch_rungs cfg s0 0%nat r0 Hs0 Hr0) as [Hr0eq _].
  destruct (createTrials_wf (Z.to_nat (initialConcurrency cfg)) ctx s0 Hwf0)
    as (ops & s1 & ctx1 & Hc & _).
  destruct (createTrials_seeds _ _ _ _ _ _ r0 Hc Hr0) as (Hrs & Hops & Hlen & Htr & _).
  exists s0, ops, s1, ctx1, r0,
    (set_outstanding r0
       (Nat.iter (Z.to_nat (initialConcurrency cfg)) int_incr (outstandingTrials r0))),
    (initialConcurrency cfg).
  split; [exact Hs0|].
  split; [unfold initialOperations; rewrite Hcfg0, Hc; reflexivity|]. split; [lia|].
  split; [|split].
  { intros Hmc. unfold initialConcurrency.
    destruct (Z.gtb_spec (MaxConcurrentTrials cfg) 0); [reflexivity | lia]. }
  { intros Hmc _. unfold initialConcurrency, math_Pow.
    destruct (Z.gtb_spec (MaxConcurrentTrials cfg) 0); [lia|].
    rewrite int_of_float64_floor; [reflexivity|].
    apply Qlt_le_weak, Qpower_0_lt. apply (divisor_facts _ Hd). }
  split; [eapply createTrials_count; exact Hc|]. split; [exact Hlen|].
  split; [exact Hr0|]. split; [exact Hops|].
  split; [|split; [|split]].
  - rewrite Hrs. apply list_lookup_insert_eq. eapply lookup_lt_Some. exact Hr0.
  - reflexivity.
  - simpl. rewrite Hr0eq. simpl. rewrite int_incr_iter by lia. lia.
  - intros id k Hk. destruct (Htr id k Hk) as [-> | Hk']; [reflexivity|].
    rewrite Htr0, lookup_empty in Hk'. discriminate.
Qed.

Lemma initialOperations_seeds_witness :
  validConfig (twoRungs 8 3) /\ MaxTrials (twoRungs 8 3) < 2 ^ 63 /\
  exists s0 ops s1 ctx1,
    newAsyncHalvingSearch (twoRungs 8 3) = Some s0 /\
    initialOperations (mkContext 0) s0 = Some (Ops ops, s1, ctx1) /\
    countOps isCreate ops = 3%nat.
Proof.
  assert (Hv : validConfig (twoRungs 8 3)) by reflexivity.
  assert (Hi : MaxTrials (twoRungs 8 3) < 2 ^ 63) by reflexivity.
  split; [exact Hv|]. split; [exact Hi|].
  destruct (initialOperations_seeds (twoRungs 8 3) (mkContext 0) Hv Hi)
    as (s0 & ops & s1 & ctx1 & r00 & r0 & C & H1 & H2 & _ & H4 & _ & H6 & _).
  exists s0, ops, s1, ctx1. split; [exact H1|]. split; [exact H2|].
  rewrite H6, H4 by reflexivity. reflexivity.
Defined.

(** ** The rung, whatever its state *)

Lemma insertAt_length_any (ms : list trialMetric) (i : nat) (t : trialMetric) :
  length (insertAt ms i t) = S (length ms).
Proof.
  unfold insertAt. rewrite length_app, length_take; simpl. rewrite length_drop. lia.
Qed.

(** X7.  Whatever the rung (sorted or not) and the divisor, when
    [promotionsAsync] returns: the rung holds one more result, its counters
    are untouched, at most one trial is returned; a returned trial is
    marked promoted in the rung, and is the new trial or a trial that was
    ranked there unpromoted (a promoted result is never handed out again);
    and no result that was promoted loses its flag. *)
Theorem promotionsAsync_marks (r : rung) (id : RequestID) (m d : Q)
  (promos : list RequestID) (r' : rung) :
  promotionsAsync r id m d = Some (promos, r') ->
  length (metrics r') = S (length (metrics r)) /\
  stepsNeeded r' = stepsNeeded r /\
  outstandingTrials r' = outstandingTrials r /\
  (length promos <= 1)%nat /\
  (forall pid, pid ∈ promos ->
     (exists t', t' ∈ metrics r' /\ requestID t' = pid /\ promoted t' = true) /\
     (pid = id \/ exists t, t ∈ metrics r /\ requestID t = pid /\ promoted t = false)) /\
  (forall t, t ∈ metrics r -> promoted t = true ->
     exists t', t' ∈ metrics r' /\ requestID t' = requestID t /\
                metric t' = metric t /\ promoted t' = true).
Proof.
  unfold promotionsAsync.
  set (i := sort_Search (length (metrics r)) (worseThan (metrics r) m)).
  set (new := numPromoteOf (length (metrics r) + 1) d).
  set (old := numPromoteOf (length (metrics r)) d).
  destruct (Z.of_nat i <? new) eqn:Hnow.
  - set (e := mkTrialMetric id m true false).
    intros [= <- <-]. simpl. split; [apply insertAt_length_any|].
    repeat split; try reflexivity; try lia.
    + apply list_elem_of_singleton in H as ->. exists e.
      split; [apply insertAt_elem; tauto | split; reflexivity].
    + left. apply list_elem_of_singleton in H. exact H.
    + intros t Ht Hp. exists t. split; [apply insertAt_elem; tauto | tauto].
  - set (e := mkTrialMetric id m false false).
    assert (Hkeep : forall t, t ∈ metrics r -> promoted t = true ->
              exists t', t' ∈ insertAt (metrics r) i e /\ requestID t' = requestID t /\
                         metric t' = metric t /\ promoted t' = true).
    { intros t Ht Hp. exists t. split; [apply insertAt_elem; tauto | tauto]. }
    assert (Hnone : forall pid : nat, pid ∈ [] ->
              (exists t', t' ∈ insertAt (metrics r) i e /\ requestID t' = pid /\
                          promoted t' = true) /\
              (pid = id \/ exists t, t ∈ metrics r /\ requestID t = pid /\ promoted t = false)).
    { intros pid Hpid. inversion Hpid. }
    destruct (negb (new =? old)).
    + unfold metricAt. destruct (old <? 0); [discriminate|].
      destruct (insertAt (metrics r) i e !! Z.to_nat old) as [t|] eqn:Ht; [|discriminate].
      destruct (promoted t) eqn:Hp; simpl.
      * intros [= <- <-]. simpl. split; [apply insertAt_length_any|].
        repeat split; try reflexivity; try (simpl; lia); try apply Hnone; auto.
      * intros [= <- <-]. simpl. rewrite length_insert.
        split; [apply insertAt_length_any|].
        split; [reflexivity|]. split; [reflexivity|]. split; [simpl; lia|]. split.
        -- intros pid Hpid. apply list_elem_of_singleton in Hpid as ->. split.
           ++ exists (set_promoted t true). split; [|split; reflexivity].
              apply list_elem_of_lookup. exists (Z.to_nat old).
              apply list_lookup_insert_eq. eapply lookup_lt_Some. exact Ht.
           ++ assert (Hin : t ∈ insertAt (metrics r) i e)
                by (eapply list_elem_of_lookup_2; exact Ht).
              apply insertAt_elem in Hin as [-> | Hin]; [left; reflexivity|].
              right. exists t. tauto.
        -- intros u Hu Hpu. destruct (Hkeep u Hu Hpu) as (u' & Hu' & Hid & Hm & Hp').
           apply list_elem_of_lookup in Hu' as [j Hj].
           destruct (decide (j = Z.to_nat old)) as [-> | Hne].
           ++ assert (u' = t) by congruence. subst u'.
              exists (set_promoted t true). split; [|simpl; tauto].
              apply list_elem_of_lookup. exists (Z.to_nat old).
              apply list_lookup_insert_eq. eapply lookup_lt_Some. exact Ht.
           ++ exists u'. split; [|tauto]. apply list_elem_of_lookup. exists j.
              rewrite list_lookup_insert_ne by congruence. exact Hj.
    + intros [= <- <-]. simpl. split; [apply insertAt_length_any|].
      repeat split; try reflexivity; try (simpl; lia); try apply Hnone; auto.
Qed.

Lemma promotionsAsync_marks_witness :
  promotionsAsync rungOneThree 2%nat 2 2 =
    Some ([], mkRung 1 0 [mkTrialMetric 0%nat 1 true false; mkTrialMetric 2%nat 2 false false;
                          mkTrialMetric 1%nat 3 false false]) /\
  length (metrics (mkRung 1 0 [mkTrialMetric 0%nat 1 true false;
                               mkTrialMetric 2%nat 2 false false;
                               mkTrialMetric 1%nat 3 false false])) =
  S (length (metrics rungOneThree)).
Proof.
  assert (H : promotionsAsync rungOneThree 2%nat 2 2 =
    Some ([], mkRung 1 0 [mkTrialMetric 0%nat 1 true false; mkTrialMetric 2%nat 2 false false;
                          mkTrialMetric 1%nat 3 false false])) by reflexivity.
  split; [exact H|].
  exact (proj1 (promotionsAsync_marks _ _ _ _ _ _ H)).
Defined.

Lemma numPromoteOf_below_divisor (k : nat) (d : Q) :
  (inject_Z (Z.of_nat k) < d)%Q -> numPromoteOf k d = 0.
Proof.
  destruct d as [[|a|a] b]; unfold Qlt; simpl; intros H; try lia.
  rewrite numPromoteOf_quotient. apply Z.div_small. lia.
Qed.

(** X8.  No trial is promoted out of a rung before the rung holds
    [divisor] results: while the number of results, the new one included,
    is below the divisor, [promotionsAsync] returns no trial and ranks the
    new result unpromoted. *)
Theorem promotionsAsync_underfilled (r : rung) (id : RequestID) (m d : Q) :
  (inject_Z (Z.of_nat (length (metrics r) + 1)) < d)%Q ->
  exists i,
    promotionsAsync r id m d =
      Some ([], set_metrics r (insertAt (metrics r) i (mkTrialMetric id m false false))).
Proof.
  intros Hd.
  assert (Hold : (inject_Z (Z.of_nat (length (metrics r))) < d)%Q).
  { eapply Qle_lt_trans; [|exact Hd]. rewrite <- Zle_Qle. lia. }
  unfold promotionsAsync.
  rewrite (numPromoteOf_below_divisor _ _ Hd), (numPromoteOf_below_divisor _ _ Hold).
  destruct (Z.ltb_spec (Z.of_nat (sort_Search (length (metrics r))
                                    (worseThan (metrics r) m))) 0) as [? | _]; [lia|].
  simpl. eexists. reflexivity.
Qed.

Lemma promotionsAsync_underfilled_witness :
  (inject_Z (Z.of_nat (length (metrics rungOneThree) + 1)) < 4)%Q /\
  exists i,
    promotionsAsync rungOneThree 2%nat 2 4 =
      Some ([], set_metrics rungOneThree
                  (insertAt (metrics rungOneThree) i (mkTrialMetric 2%nat 2 false false))).
Proof.
  assert (H : (inject_Z (Z.of_nat (length (metrics rungOneThree) + 1)) < 4)%Q) by reflexivity.
  split; [exact H|].
  exact (promotionsAsync_underfilled rungOneThree 2%nat 2 4 H).
Defined.

(** ** Progress *)

Lemma progress_base_bounds (x M : Z) :
  0 < M -> 0 <= x <= M ->
  (0 <= inject_Z x / ((12 # 10) * inject_Z M))%Q /\
  (inject_Z x / ((12 # 10) * inject_Z M) <= 5 # 6)%Q /\
  (x < M -> (inject_Z x / ((12 # 10) * inject_Z M) < 5 # 6)%Q).
Proof.
  intros HM Hx. destruct M as [|p|p]; try lia.
  unfold Qle, Qlt, Qdiv, Qmult, Qinv; simpl.
  split; [|split; [|intros Hlt]]; lia.
Qed.

Lemma progress_ratio_bounds (x M : Z) :
  0 < M -> 0 <= x <= M -> (0 <= inject_Z x / inject_Z M <= 1)%Q.
Proof.
  intros HM Hx. destruct M as [|p|p]; try lia.
  unfold Qle, Qdiv, Qmult, Qinv; simpl. lia.
Qed.

Lemma progress_ratio_one (M : Z) : 0 < M -> (inject_Z M / inject_Z M == 1)%Q.
Proof.
  intros HM. destruct M as [|p|p]; try lia.
  unfold Qeq, Qdiv, Qmult, Qinv; simpl. lia.
Qed.

Lemma progress_ratio_below (x M : Z) :
  0 <= x < M -> (inject_Z x / inject_Z M < 1)%Q.
Proof.
  intros Hx. destruct M as [|p|p]; try lia.
  unfold Qlt, Qdiv, Qmult, Qinv; simpl. lia.
Qed.

(** X9.  On a searcher with a bottom rung and consistent counters
    ([0 <= rungs[0].outstanding <= len(trialRungs) <= maxTrials],
    [0 <= trialsCompleted <= maxTrials], [maxTrials] positive and below
    2^32) [progress] returns a value between 0 and 1; while trials remain
    to be created the value stays below 5/6 (the 20% overhead); and once
    all are created it is 1 when every trial is completed, and below 1
    until then.  (With [maxTrials] that small the rounding of the float64
    operations is far below the margins of these bounds.) *)
Theorem progress_bounds (s : asyncHalvingSearch) (w : Z) (r0 : rung) :
  rungs s !! 0%nat = Some r0 ->
  0 < maxTrials s < 2 ^ 32 ->
  0 <= outstandingTrials r0 <= allTrialsOf s ->
  allTrialsOf s <= maxTrials s ->
  0 <= trialsCompleted s <= maxTrials s ->
  exists p,
    progress s w = Some p /\
    (0 <= p <= 1)%Q /\
    (allTrialsOf s < maxTrials s -> (p < 5 # 6)%Q) /\
    (allTrialsOf s = maxTrials s ->
       (trialsCompleted s = maxTrials s -> (p == 1)%Q) /\
       (trialsCompleted s < maxTrials s -> (p < 1)%Q)).
Proof.
  intros Hr0 HM Hout Hall Htc. unfold progress. rewrite Hr0.
  rewrite int_wrap_small by lia. unfold float64_of_int.
  destruct (progress_base_bounds (allTrialsOf s - outstandingTrials r0) (maxTrials s))
    as (Hb0 & Hb1 & Hb2); [lia | lia |].
  destruct (progress_ratio_bounds (trialsCompleted s) (maxTrials s)) as (Hr1 & Hr2);
    [lia | lia |].
  assert (H56 : (5 # 6 < 1)%Q) by reflexivity.
  destruct (Z.eqb_spec (allTrialsOf s) (maxTrials s)) as [Heq | Hne].
  - eexists. split; [reflexivity|]. unfold math_Max.
    destruct (Qle_bool _ _) eqn:Hcmp.
    + apply Qle_bool_iff in Hcmp.
      split; [split; [exact Hb0 | eapply Qle_trans; [exact Hb1 | apply Qlt_le_weak, H56]]|].
      split; [intros Hlt; lia|]. intros _. split.
      * intros Hc. exfalso. rewrite Hc in Hcmp.
        rewrite (progress_ratio_one (maxTrials s)) in Hcmp by lia.
        apply (Qlt_not_le _ _ H56). eapply Qle_trans; eassumption.
      * intros _. eapply Qle_lt_trans; [exact Hb1 | exact H56].
    + split; [split; [exact Hr1 | exact Hr2]|].
      split; [intros Hlt; lia|]. intros _. split.
      * intros Hc. rewrite Hc. apply progress_ratio_one. lia.
      * intros Hc. apply progress_ratio_below. lia.
  - eexists. split; [reflexivity|].
    split; [split; [exact Hb0 | eapply Qle_trans; [exact Hb1 | apply Qlt_le_weak, H56]]|].
    split; [intros Hlt; apply Hb2; lia | intros Heq; lia].
Qed.

Lemma progress_bounds_witness :
  rungs midwayTwoRungs !! 0%nat =
    Some (mkRung 2 1 [mkTrialMetric 1%nat 4 true false; mkTrialMetric 0%nat 5 false false]) /\
  0 < maxTrials midwayTwoRungs < 2 ^ 32 /\
  0 <= 1 <= allTrialsOf midwayTwoRungs /\
  allTrialsOf midwayTwoRungs <= maxTrials midwayTwoRungs /\
  0 <= trialsCompleted midwayTwoRungs <= maxTrials midwayTwoRungs /\
  exists p, progress midwayTwoRungs 0 = Some p /\ (0 <= p <= 1)%Q.
Proof.
  assert (H1 : rungs midwayTwoRungs !! 0%nat =
    Some (mkRung 2 1 [mkTrialMetric 1%nat 4 true false; mkTrialMetric 0%nat 5 false false]))
    by reflexivity.
  assert (H2 : 0 < maxTrials midwayTwoRungs < 2 ^ 32) by (vm_compute; split; reflexivity).
  assert (H3 : 0 <= 1 <= allTrialsOf midwayTwoRungs) by (vm_compute; split; discriminate).
  assert (H4 : allTrialsOf midwayTwoRungs <= maxTrials midwayTwoRungs)
    by (vm_compute; discriminate).
  assert (H5 : 0 <= trialsCompleted midwayTwoRungs <= maxTrials midwayTwoRungs)
    by (vm_compute; split; discriminate).
  split; [exact H1|]. split; [exact H2|]. split; [exact H3|]. split; [exact H4|].
  split; [exact H5|].
  destruct (progress_bounds midwayTwoRungs 0 _ H1 H2 H3 H4 H5) as (p & Hp & Hb & _).
  exists p. split; [exact Hp | exact Hb].
Defined.

(** ** The batch of a call *)

Lemma rungsFramed_refl (rs : list rung) : rungsFramed rs rs.
Proof.
  split; [reflexivity|]. intros k r Hr. exists r. tauto.
Qed.

Lemma rungsFramed_trans (a b c : list rung) :
  rungsFramed a b -> rungsFramed b c -> rungsFramed a c.
Proof.
  intros [Hl1 H1] [Hl2 H2]. split; [congruence|]. intros k r Hr.
  destruct (H1 k r Hr) as (r1 & Hr1 & Hs1 & Hk1).
  destruct (H2 k r1 Hr1) as (r2 & Hr2 & Hs2 & Hk2).
  exists r2. split; [exact Hr2|]. split; congruence.
Qed.

Lemma rungsFramed_insert (rs : list rung) (k : nat) (r r' : rung) :
  rs !! k = Some r -> stepsNeeded r' = stepsNeeded r ->
  keysOf (metrics r') = keysOf (metrics r) -> rungsFramed rs (<[k := r']> rs).
Proof.
  intros Hk Hs He. split; [apply length_insert|]. intros j x Hx.
  destruct (decide (k = j)) as [-> | Hne].
  - exists r'. rewrite list_lookup_insert_eq by (eapply lookup_lt_Some; eassumption).
    assert (x = r) by congruence. subst x. tauto.
  - exists x. rewrite list_lookup_insert_ne by assumption. tauto.
Qed.

Lemma rungsFramed_topKept (rs rs' : list rung) : rungsFramed rs rs' -> topKept rs rs'.
Proof.
  intros [Hl H]. split; [exact Hl|]. split.
  - intros k r Hr. destruct (H k r Hr) as (r' & ? & ? & _). exists r'. tauto.
  - intros r Hr. destruct (H _ r Hr) as (r' & ? & _ & ?). exists r'. tauto.
Qed.

Lemma topKept_trans (a b c : list rung) : topKept a b -> topKept b c -> topKept a c.
Proof.
  intros (Hl1 & Hs1 & Ht1) (Hl2 & Hs2 & Ht2). split; [congruence|]. split.
  - intros k r Hr. destruct (Hs1 k r Hr) as (r1 & Hr1 & He1).
    destruct (Hs2 k r1 Hr1) as (r2 & Hr2 & He2). exists r2. split; [exact Hr2 | congruence].
  - intros r Hr. destruct (Ht1 r Hr) as (r1 & Hr1 & He1).
    rewrite <- Hl1 in Hr1. destruct (Ht2 r1 Hr1) as (r2 & Hr2 & He2).
    rewrite Hl1 in Hr2. exists r2. split; [exact Hr2 | congruence].
Qed.

(** Replacing a rung below the top keeps the top. *)
Lemma topKept_insert_below (rs : list rung) (k : nat) (r r' : rung) :
  rs !! k = Some r -> stepsNeeded r' = stepsNeeded r ->
  k <> (length rs - 1)%nat -> topKept rs (<[k := r']> rs).
Proof.
  intros Hk Hs Hne. split; [apply length_insert|]. split.
  - intros j x Hx. destruct (decide (k = j)) as [-> | Hkj].
    + exists r'. rewrite list_lookup_insert_eq by (eapply lookup_lt_Some; eassumption).
      assert (x = r) by congruence. subst x. tauto.
    + exists x. rewrite list_lookup_insert_ne by assumption. tauto.
  - intros x Hx. exists x. rewrite list_lookup_insert_ne by assumption. tauto.
Qed.

Lemma closeOutRungs_framed (s : asyncHalvingSearch) :
  rungsFramed (rungs s) (rungs (closeOutRungs s).2).
Proof.
  destruct (closeOutRungs_keeps s) as (_ & _ & _ & _ & _ & Hl & Hk & _).
  split; [exact Hl|]. intros k r Hr.
  destruct (Hk k r Hr) as (r' & H1 & H2 & _ & H4 & _). exists r'. tauto.
Qed.

(** What lines 188-202 of [promote] add to the batch. *)
Lemma promoteTail_batch ctx s ops added ops' s' ctx' :
  promoteTail ctx s ops added = Some (ops', s', ctx') ->
  exists refill drain,
    ops' = ops ++ refill ++ drain /\
    ((refill = [] /\ trialRungs s' = trialRungs s) \/
     (added = false /\ drain = [] /\
      exists c h r0,
        refill = [Create c h; Train c 0 (stepsNeeded r0); Validate c (stepsNeeded r0)] /\
        trialRungs s' !! c = Some 0%nat /\ rungs s' !! 0%nat = Some r0)) /\
    Forall (fun op => isCloseOp op = true) drain /\
    (drain <> [] -> allTrialsOf s' = maxTrials s') /\
    (added = false -> allTrialsOf s < maxTrials s -> refill <> []) /\
    earlyExitTrials s' = earlyExitTrials s /\
    rungsFramed (rungs s) (rungs s').
Proof.
  unfold promoteTail.
  destruct (negb added && (allTrialsOf s <? maxTrials s)) eqn:Hcreate.
  - apply andb_true_iff in Hcreate as [Hadded Hlt]. apply Z.ltb_lt in Hlt.
    apply negb_true_iff in Hadded.
    unfold createTrial. simpl.
    destruct (rungs s !! 0%nat) as [r0|] eqn:Hr0; [|discriminate]. simpl.
    destruct (Z.eqb_spec (allTrialsOf s) (maxTrials s)) as [? | _]; [lia|].
    intros [= <- <- <-].
    eexists [Create _ _; Train _ 0 (stepsNeeded r0); Validate _ (stepsNeeded r0)], [].
    split; [rewrite app_nil_r; reflexivity|]. split.
    + right. split; [exact Hadded|]. split; [reflexivity|].
      eexists _, _, (set_outstanding r0 (int_incr (outstandingTrials r0))).
      split; [reflexivity|]. simpl. split; [apply lookup_insert_eq|].
      apply list_lookup_insert_eq. eapply lookup_lt_Some. exact Hr0.
    + split; [constructor|]. split; [intros H; contradiction|].
      split; [intros _ _; discriminate|]. split; [reflexivity|]. simpl.
      eapply rungsFramed_insert; [exact Hr0 | reflexivity | reflexivity].
  - assert (Hno : added = false -> allTrialsOf s < maxTrials s -> ([] : list Operation) <> []).
    { intros -> Hlt. apply Z.ltb_lt in Hlt. rewrite Hlt in Hcreate. discriminate. }
    destruct (Z.eqb_spec (allTrialsOf s) (maxTrials s)) as [Heq | Hne].
    + destruct (closeOutRungs_keeps s) as (_ & Htr & Hee & Hmax & Hcl & _).
      pose proof (closeOutRungs_framed s) as Hfr.
      destruct (closeOutRungs s) as [cops s2]. simpl in *.
      intros [= <- <- <-]. exists [], cops.
      split; [reflexivity|]. split; [left; split; [reflexivity | exact Htr]|].
      split; [apply Forall_forall; exact Hcl|].
      split; [intros _; unfold allTrialsOf; rewrite Htr, Hmax; exact Heq|].
      split; [exact Hno|]. split; [exact Hee | exact Hfr].
    + intros [= <- <- <-]. exists [], [].
      split; [rewrite app_nil_r; reflexivity|]. split; [left; split; reflexivity|].
      split; [constructor|]. split; [intros H; contradiction|].
      split; [exact Hno|]. split; [reflexivity | apply rungsFramed_refl].
Qed.

Lemma wf_replace_rung (s : asyncHalvingSearch) (k : nat) (r2 : rung) :
  wellFormed s -> rungInv (Divisor (config s)) r2 ->
  wellFormed (set_rungs s (<[k := r2]> (rungs s))).
Proof.
  intros [Hd Hn Hne Htr Hrs] Hr2. constructor; simpl;
    try rewrite length_insert; try assumption.
  apply Forall_insert; assumption.
Qed.

Lemma wf_register (s : asyncHalvingSearch) (pid j : nat) :
  wellFormed s -> (j < length (rungs s))%nat ->
  wellFormed (set_trialRungs s (<[pid := j]> (trialRungs s))).
Proof.
  intros [Hd Hn Hne Htr Hrs] Hj. constructor; simpl; try assumption.
  intros id i. destruct (decide (pid = id)) as [-> | Hneq].
  - rewrite lookup_insert_eq. intros [= <-]. exact Hj.
  - rewrite lookup_insert_ne by assumption. apply Htr.
Qed.

Lemma wf_rung (s : asyncHalvingSearch) (k : nat) (r : rung) :
  wellFormed s -> rungs s !! k = Some r -> rungInv (Divisor (config s)) r.
Proof.
  intros Hwf Hr. eapply Forall_lookup_1; [apply (wf_rungs s Hwf) | exact Hr].
Qed.

Lemma promoteLoop_batch rec ctx msg k promos s ops' s' ctx' :
  recBatch rec -> wellFormed s -> (S k < length (rungs s))%nat ->
  (length promos <= 1)%nat ->
  promoteLoop rec ctx msg k promos s [] false = Some (ops', s', ctx') ->
  exists work drain,
    ops' = work ++ drain /\
    workOf s' work /\
    Forall (fun op => isCloseOp op = true) drain /\
    (drain <> [] -> allTrialsOf s' = maxTrials s' /\ countOps isCreate work = 0%nat) /\
    ((forall pid, pid ∈ promos -> known s pid) -> idsIn (known s) (rungs s) ->
     allTrialsOf s < maxTrials s -> work <> []) /\
    earlyExitTrials s' = earlyExitTrials s /\
    topKept (rungs s) (rungs s').
Proof.
  intros Hrec Hwf Hk Hlen.
  destruct promos as [|pid [|pid' rest]]; [| |simpl in Hlen; lia]; cbn [promoteLoop].
  - intros Ht. apply promoteTail_batch in Ht.
    destruct Ht as (refill & drain & Hops & Hcase & Hdrain & Hcap & Hlive & Hee & Hfr).
    exists refill, drain. split; [exact Hops|]. split; [|split; [exact Hdrain|split; [|split]]].
    + destruct Hcase as [[-> _] | (_ & _ & c & h & r0 & -> & Hc & Hr0)];
        [constructor | apply work_refill; assumption].
    + intros Hne. split; [auto|].
      destruct Hcase as [[-> _] | (_ & -> & _)]; [reflexivity | contradiction].
    + intros _ _ Hlt. apply Hlive; [reflexivity | exact Hlt].
    + split; [exact Hee | apply rungsFramed_topKept; exact Hfr].
  - cbn [rungs set_trialRungs].
    destruct (lookup_lt_is_Some_2 (rungs s) k) as [r Hr]; [lia|].
    destruct (lookup_lt_is_Some_2 (rungs s) (S k) Hk) as [nx Hnx].
    rewrite Hr, Hnx.
    set (nx' := set_outstanding nx (int_incr (outstandingTrials nx))).
    set (s2 := set_rungs (set_trialRungs s (<[pid := S k]> (trialRungs s)))
                 (<[S k := nx']> (rungs s))).
    assert (Hwf2 : wellFormed s2).
    { apply (wf_replace_rung (set_trialRungs s (<[pid := S k]> (trialRungs s))) (S k) nx').
      - apply wf_register; assumption.
      - apply rungInv_set_outstanding. exact (wf_rung s (S k) nx Hwf Hnx). }
    assert (Hfr2 : rungsFramed (rungs s) (rungs s2)).
    { simpl. eapply rungsFramed_insert; [exact Hnx | reflexivity | reflexivity]. }
    assert (Hr2 : rungs s2 !! k = Some r)
      by (simpl; rewrite list_lookup_insert_ne by lia; exact Hr).
    assert (Hnx2 : rungs s2 !! S k = Some nx')
      by (simpl; apply list_lookup_insert_eq; exact Hk).
    change (isEarlyExit s2 pid) with (isEarlyExit s pid).
    destruct (isEarlyExit s pid) eqn:Hearly; cbn [negb].
    + (* an early-exited trial: the recursive call *)
      intros Heq. apply Hrec in Heq; [|exact Hwf2].
      destruct Heq as ((work & drain & Hops & Hwork & Hdrain & Hcap & Hlive) & Hee & Htop).
      assert (Hnone : closeAtTop s2 pid = []).
      { unfold closeAtTop. change (isEarlyExit s2 pid) with (isEarlyExit s pid).
        rewrite Hearly. cbn [negb]. rewrite andb_false_r. reflexivity. }
      rewrite Hnone in Hops. exists work, drain.
      split; [exact Hops|]. split; [exact Hwork|]. split; [exact Hdrain|].
      split; [exact Hcap|]. split; [|split; [exact Hee|]].
      * intros Hknown Hids Hlt. apply Hlive.
        assert (Hpid : known s pid) by (apply Hknown; left).
        split; [|split].
        -- simpl. apply idsIn_insert.
           ++ eapply idsIn_mono; [|exact Hids]. intros i. apply known_insert.
           ++ simpl. intros t Ht. apply known_insert. eapply idsIn_lookup; eassumption.
        -- unfold known. simpl. rewrite lookup_insert_eq. eauto.
        -- unfold allTrialsOf in *. simpl. rewrite size_insert_known by exact Hpid.
           exact Hlt.
      * eapply topKept_trans; [apply rungsFramed_topKept; exact Hfr2 | exact Htop].
    + (* a promotion *)
      intros Ht. apply promoteTail_batch in Ht.
      destruct Ht as (refill & drain & Hops & Hcase & Hdrain & Hcap & _ & Hee & Hfr).
      destruct Hcase as [[-> Htr] | (Hadded & _)]; [|discriminate].
      destruct Hfr as [Hl Hfr].
      destruct (Hfr k r Hr2) as (r' & Hr' & Hsr & _).
      destruct (Hfr (S k) nx' Hnx2) as (nx'' & Hnx'' & Hsn & _).
      exists (trainAndValidate pid (stepsNeeded r) (stepsNeeded nx')), drain.
      split; [exact Hops|]. split; [|split; [exact Hdrain|split; [|split; [|split]]]].
      * unfold trainAndValidate. rewrite <- Hsr, <- Hsn.
        apply (work_promotion s' pid k r' nx''); try assumption.
        -- rewrite Htr. simpl. apply lookup_insert_eq.
        -- unfold isEarlyExit. rewrite Hee. exact Hearly.
      * intros Hne. split; [auto | reflexivity].
      * intros _ _ _. discriminate.
      * exact Hee.
      * eapply topKept_trans; [apply rungsFramed_topKept; exact Hfr2|].
        apply rungsFramed_topKept. split; assumption.
Qed.

(** [promote] on a well-formed searcher. *)
Lemma promote_batch turns ctx s id msg m ops' s' ctx' :
  wellFormed s -> promote turns ctx s id msg m = Some (ops', s', ctx') ->
  promoted_ok s id ops' s'.
Proof.
  revert ctx s id msg m ops' s' ctx'.
  induction turns as [|turns IH]; intros ctx s id msg m ops' s' ctx' Hwf; [discriminate|].
  pose proof (rungOf_bound s id Hwf) as Hk. cbn [promote].
  unfold promoted_ok, batch, closeAtTop.
  set (k := rungOf s id) in *.
  destruct (lookup_lt_is_Some_2 (rungs s) k Hk) as [r Hr]. rewrite Hr.
  set (r1 := set_outstanding r (int_decr (outstandingTrials r))).
  set (s1 := set_rungs s (<[k := r1]> (rungs s))).
  assert (Hr1 : rungInv (Divisor (config s)) r1)
    by (apply rungInv_set_outstanding; eapply wf_rung; eassumption).
  assert (Hwf1 : wellFormed s1) by (apply wf_replace_rung; assumption).
  assert (Hfr1 : rungsFramed (rungs s) (rungs s1)).
  { simpl. eapply rungsFramed_insert; [exact Hr | reflexivity | reflexivity]. }
  destruct (Z.eqb_spec (Z.of_nat k) (NumRungs (config s) - 1)) as [Htop | Hnottop].
  - (* the top rung *)
    cbn [andb].
    set (s2 := set_trialsCompleted s1 (int_incr (trialsCompleted s1))).
    change (isEarlyExit s2 id) with (isEarlyExit s id).
    intros Ht. apply promoteTail_batch in Ht.
    destruct Ht as (refill & drain & Hops & Hcase & Hdrain & Hcap & Hlive & Hee & Hfr).
    split; [|split; [exact Hee|]].
    + exists refill, drain. split; [exact Hops|]. split; [|split; [exact Hdrain|split]].
      * destruct Hcase as [[-> _] | (_ & _ & c & h & r0 & -> & Hc & Hr0)];
          [constructor | apply work_refill; assumption].
      * intros Hne. split; [auto|].
        destruct Hcase as [[-> _] | (_ & -> & _)]; [reflexivity | contradiction].
      * intros (_ & _ & Hlt). apply Hlive; [reflexivity | exact Hlt].
    + apply rungsFramed_topKept. eapply rungsFramed_trans; [exact Hfr1 | exact Hfr].
  - (* below the top: rank, then promote *)
    cbn [andb app].
    rewrite (wf_numRungs s Hwf) in Hnottop.
    assert (Hk' : (S k < length (rungs s))%nat) by lia.
    destruct (lookup_lt_is_Some_2 (rungs s) (S k) Hk') as [nx Hnx].
    cbn [rungs s1 set_rungs].
    rewrite list_lookup_insert_ne by lia. rewrite Hnx.
    destruct (promotionsAsync_keeps r1 id m (Divisor (config s)) Hr1 (wf_divisor s Hwf))
      as (promos & r2 & Heq & Hr2 & Hsteps & _ & Hlen & Hpromos & _ & Hfrom & _).
    rewrite Heq.
    set (s2 := set_rungs s1 (<[k := r2]> (<[k := r1]> (rungs s)))).
    assert (Hwf2 : wellFormed s2) by (apply (wf_replace_rung s1); assumption).
    assert (Htop2 : topKept (rungs s) (rungs s2)).
    { simpl. rewrite list_insert_insert_eq.
      eapply topKept_insert_below; [exact Hr | exact Hsteps | lia]. }
    intros Hl. apply promoteLoop_batch in Hl;
      [| intros ? ? ? ? ? ? ? ? ? ?; eapply IH; eassumption
       | exact Hwf2 | simpl; rewrite !length_insert; exact Hk' | exact Hlen].
    destruct Hl as (work & drain & Hops & Hwork & Hdrain & Hcap & Hlive & Hee & Htop').
    split; [|split; [exact Hee | eapply topKept_trans; eassumption]].
    exists work, drain. split; [exact Hops|]. split; [exact Hwork|].
    split; [exact Hdrain|]. split; [exact Hcap|].
    intros (Hids & Hid & Hlt).
    assert (Hr2known : forall t, t ∈ metrics r2 -> known s (requestID t)).
    { intros t Ht. destruct (Hfrom t Ht) as [-> | (u & Hu & <-)]; [exact Hid|].
      apply (idsIn_lookup (known s) (rungs s) k r u); [exact Hids | exact Hr | exact Hu]. }
    apply Hlive.
    + intros pid Hpid. destruct (Hpromos pid Hpid) as (t & Ht & <-). apply Hr2known. exact Ht.
    + simpl. apply idsIn_insert; [|exact Hr2known].
      apply idsIn_insert; [exact Hids|]. simpl. intros t Ht.
      apply (idsIn_lookup (known s) (rungs s) k r t); [exact Hids | exact Hr | exact Ht].
    + exact Hlt.
Qed.

Lemma count_closes (p : Operation -> bool) (ops : list Operation) :
  (forall id, p (Close id) = false) ->
  Forall (fun op => isCloseOp op = true) ops -> countOps p ops = 0%nat.
Proof.
  intros Hp Hall. unfold countOps. induction Hall as [|op ops Hop _ IH]; [reflexivity|].
  destruct op; try discriminate. simpl. rewrite Hp. exact IH.
Qed.

Lemma closeAtTop_closes (s : asyncHalvingSearch) (id : RequestID) :
  Forall (fun op => isCloseOp op = true) (closeAtTop s id).
Proof.
  unfold closeAtTop. destruct (_ && _); repeat constructor.
Qed.

(** A batch holds one [Train] if it has a workload, and at most one
    [Create]. *)
Lemma batch_counts (s' : asyncHalvingSearch) (close work drain : list Operation) :
  Forall (fun op => isCloseOp op = true) close ->
  workOf s' work -> Forall (fun op => isCloseOp op = true) drain ->
  countOps isTrainOp (close ++ work ++ drain) = (if decide (work = []) then 0 else 1)%nat /\
  (countOps isCreate (close ++ work ++ drain) <= 1)%nat.
Proof.
  intros Hclose Hwork Hdrain. rewrite !countOps_app.
  rewrite (count_closes isTrainOp close), (count_closes isTrainOp drain),
    (count_closes isCreate close), (count_closes isCreate drain);
    try (intros; reflexivity); try assumption.
  destruct Hwork;
    (split; [destruct (decide (_ = [])) as [Heq | Hne];
               [try reflexivity; try discriminate | try reflexivity; try congruence]
            | simpl; lia]).
Qed.

Lemma topClose_closes (s : asyncHalvingSearch) (ev : Event) :
  Forall (fun op => isCloseOp op = true) (topClose s ev).
Proof.
  destruct ev as [id msg | id msg v | id msg]; simpl; try constructor.
  destruct (metricOf v (Metric (config s))); [apply closeAtTop_closes | constructor].
Qed.

(** Every public call, on a well-formed searcher. *)
Lemma handle_batch ctx s ev :
  wellFormed s ->
  exists r s' ctx' work drain,
    handle ctx s ev = Some (r, s', ctx') /\
    wellFormed s' /\
    opsOf r = topClose s ev ++ work ++ drain /\
    workOf s' work /\
    Forall (fun op => isCloseOp op = true) drain /\
    (drain <> [] -> allTrialsOf s' = maxTrials s' /\ countOps isCreate work = 0%nat) /\
    topKept (rungs s) (rungs s') /\
    earlyExitTrials s' = earlyAfter s ev /\
    (underCap s (eventId ev) -> processed s ev -> work <> []).
Proof.
  intros Hwf. destruct ev as [id msg | id msg v | id msg]; simpl.
  - exists (Ops []), s, ctx, [], []. split; [reflexivity|]. split; [exact Hwf|].
    split; [reflexivity|]. split; [constructor|]. split; [constructor|].
    split; [intros H; contradiction|].
    split; [apply rungsFramed_topKept, rungsFramed_refl|]. split; [reflexivity|].
    intros _ H. contradiction.
  - unfold validationCompleted, promoteEntry, processed.
    destruct (metricOf v (Metric (config s))) as [raw | err].
    + match goal with |- context [promote ?t ?c ?st ?i ?w ?q] =>
        destruct (promote_wf t c st i w q Hwf) as (ops & s' & ctx' & Hp & Hwf' & _)
      end; [lia|].
      rewrite Hp. apply promote_batch in Hp; [|exact Hwf].
      destruct Hp as ((work & drain & Hops & Hwork & Hdrain & Hcap & Hlive) & Hee & Htop).
      exists (Ops ops), s', ctx', work, drain. simpl. tauto.
    + exists (Fail err), s, ctx, [], []. split; [reflexivity|]. split; [exact Hwf|].
      split; [reflexivity|]. split; [constructor|]. split; [constructor|].
      split; [intros H; contradiction|].
      split; [apply rungsFramed_topKept, rungsFramed_refl|]. split; [reflexivity|].
      intros _ H. contradiction.
  - unfold trialExitedEarly, promoteEntry.
    set (s1 := set_earlyExitTrials s (<[id := true]> (earlyExitTrials s))).
    assert (Hwf1 : wellFormed s1) by (destruct Hwf; constructor; assumption).
    destruct (promote_wf (length (rungs s1)) ctx s1 id msg ashaExitedMetricValue Hwf1)
      as (ops & s' & ctx' & Hp & Hwf' & _); [lia|].
    rewrite Hp. apply promote_batch in Hp; [|exact Hwf1].
    destruct Hp as ((work & drain & Hops & Hwork & Hdrain & Hcap & Hlive) & Hee & Htop).
    assert (Hnone : closeAtTop s1 id = []).
    { unfold closeAtTop, isEarlyExit. simpl. rewrite lookup_insert_eq. simpl.
      rewrite andb_false_r. reflexivity. }
    rewrite Hnone in Hops.
    exists (Ops ops), s', ctx', work, drain. simpl.
    split; [reflexivity|]. split; [exact Hwf'|]. split; [exact Hops|].
    split; [exact Hwork|]. split; [exact Hdrain|]. split; [exact Hcap|].
    split; [exact Htop|]. split; [exact Hee|].
    intros Hunder _. apply Hlive. exact Hunder.
Qed.

(** X10.  The batch of every public call, in every state an experiment on
    a valid configuration can reach: first the [Close] of the event's
    trial if a validation completes the top rung and the trial has not
    exited early; then at most one training workload, which is the
    [Train] and [Validate] of a promoted trial (from the length of its
    rung to the length of the next, the trial being registered one rung
    up) or a [Create] with the [Train] and [Validate] of the bottom rung;
    then the [Close]s of the drain, which are only there when
    [len(trialRungs) = maxTrials] and no trial was created.  So a batch
    never holds more than one [Train] nor more than one [Create]. *)
Theorem batch_structure (cfg : AsyncHalvingConfig) (evs : list Event) (ev : Event) :
  validConfig cfg ->
  forall ops s ctx,
    experiment cfg evs = Some (ops, s, ctx) ->
    exists r s' ctx' work drain,
      handle ctx s ev = Some (r, s', ctx') /\
      opsOf r = topClose s ev ++ work ++ drain /\
      workOf s' work /\
      (forall op, op ∈ drain -> isCloseOp op = true) /\
      (drain <> [] -> allTrialsOf s' = maxTrials s' /\ countOps isCreate work = 0%nat) /\
      (countOps isTrainOp (opsOf r) <= 1)%nat /\
      (countOps isCreate (opsOf r) <= 1)%nat.
Proof.
  intros Hv ops s ctx He.
  destruct (reached_wf cfg evs ops s ctx Hv He) as (Hwf & _).
  destruct (handle_batch ctx s ev Hwf)
    as (r & s' & ctx' & work & drain & Hh & _ & Hops & Hwork & Hdrain & Hcap & _).
  exists r, s', ctx', work, drain.
  split; [exact Hh|]. split; [exact Hops|]. split; [exact Hwork|].
  split; [apply Forall_forall; exact Hdrain|]. split; [exact Hcap|].
  destruct (batch_counts s' (topClose s ev) work drain (topClose_closes s ev) Hwork Hdrain)
    as [Htrain Hcreate].
  rewrite Hops. split; [|exact Hcreate].
  rewrite Htrain. destruct (decide (work = [])); lia.
Qed.

Lemma batch_structure_witness :
  validConfig (twoRungs 8 3) /\
  experiment (twoRungs 8 3) [] = Some (seededOps, seededTwoRungs, mkContext 3) /\
  exists r s' ctx',
    handle (mkContext 3) seededTwoRungs (ValidationCompleted 0%nat msg0 (report 5)) =
      Some (r, s', ctx') /\
    (countOps isTrainOp (opsOf r) <= 1)%nat.
Proof.
  assert (Hv : validConfig (twoRungs 8 3)) by reflexivity.
  assert (He : experiment (twoRungs 8 3) [] = Some (seededOps, seededTwoRungs, mkContext 3))
    by (vm_compute; reflexivity).
  split; [exact Hv|]. split; [exact He|].
  destruct (batch_structure (twoRungs 8 3) [] (ValidationCompleted 0%nat msg0 (report 5))
              Hv _ _ _ He) as (r & s' & ctx' & _ & _ & Hh & _ & _ & _ & _ & Ht & _).
  exists r, s', ctx'. split; [exact Hh | exact Ht].
Defined.

(** X11.  Only [trial_exited_early] changes the early exits, and it adds
    exactly its trial: after any other call [earlyExitTrials] is what it
    was, also through the recursive calls of [promote]. *)
Theorem early_exits_only_by_exit (cfg : AsyncHalvingConfig) (evs : list Event) (ev : Event) :
  validConfig cfg ->
  forall ops s ctx,
    experiment cfg evs = Some (ops, s, ctx) ->
    exists r s' ctx',
      handle ctx s ev = Some (r, s', ctx') /\
      earlyExitTrials s' =
        match ev with
        | TrialExitedEarly id _ => <[id := true]> (earlyExitTrials s)
        | _ => earlyExitTrials s
        end.
Proof.
  intros Hv ops s ctx He.
  destruct (reached_wf cfg evs ops s ctx Hv He) as (Hwf & _).
  destruct (handle_batch ctx s ev Hwf)
    as (r & s' & ctx' & work & drain & Hh & _ & _ & _ & _ & _ & _ & Hee & _).
  exists r, s', ctx'. split; [exact Hh | exact Hee].
Qed.

Lemma early_exits_only_by_exit_witness :
  validConfig (twoRungs 8 3) /\
  experiment (twoRungs 8 3) [] = Some (seededOps, seededTwoRungs, mkContext 3) /\
  exists r s' ctx',
    handle (mkContext 3) seededTwoRungs (TrialExitedEarly 1%nat msg0) = Some (r, s', ctx') /\
    earlyExitTrials s' = <[1%nat := true]> (earlyExitTrials seededTwoRungs).
Proof.
  assert (Hv : validConfig (twoRungs 8 3)) by reflexivity.
  assert (He : experiment (twoRungs 8 3) [] = Some (seededOps, seededTwoRungs, mkContext 3))
    by (vm_compute; reflexivity).
  split; [exact Hv|]. split; [exact He|].
  exact (early_exits_only_by_exit (twoRungs 8 3) [] (TrialExitedEarly 1%nat msg0)
           Hv _ _ _ He).
Defined.

(** X12.  The guarantee stated in [initialOperations]: until [maxTrials]
    trials are registered, every validation (that carries the metric) and
    every early exit of a registered trial is answered with exactly one
    new [Train], of a promoted trial or of a fresh one, so the number of
    trials in training does not drop.  (For events that name registered
    trials.) *)
Theorem train_until_cap (cfg : AsyncHalvingConfig) (evs : list Event) (ev : Event) :
  validConfig cfg -> validExperiment cfg evs ->
  forall ops s ctx,
    experiment cfg evs = Some (ops, s, ctx) ->
    known s (eventId ev) -> processed s ev ->
    allTrialsOf s < MaxTrials cfg ->
    exists r s' ctx',
      handle ctx s ev = Some (r, s', ctx') /\
      countOps isTrainOp (opsOf r) = 1%nat.
Proof.
  intros Hv Hvalid ops s ctx He Hid Hproc Hlt.
  destruct (experiment_reach cfg evs Hv) as (ops0 & s0 & ctx0 & He0 & Hwf & _ & Hmax & Hcap).
  rewrite He in He0. injection He0 as <- <- <-.
  destruct (Hcap Hvalid) as [Hids _].
  destruct (handle_batch ctx s ev Hwf)
    as (r & s' & ctx' & work & drain & Hh & _ & Hops & Hwork & Hdrain & _ & _ & _ & Hlive).
  exists r, s', ctx'. split; [exact Hh|].
  destruct (batch_counts s' (topClose s ev) work drain (topClose_closes s ev) Hwork Hdrain)
    as [Htrain _].
  rewrite Hops, Htrain.
  destruct (decide (work = [])) as [Hnil | _]; [|reflexivity].
  exfalso. apply Hlive; [|exact Hproc | exact Hnil].
  split; [exact Hids|]. split; [exact Hid|]. rewrite Hmax. exact Hlt.
Qed.

Lemma train_until_cap_witness :
  validConfig (twoRungs 8 3) /\ validExperiment (twoRungs 8 3) [] /\
  experiment (twoRungs 8 3) [] = Some (seededOps, seededTwoRungs, mkContext 3) /\
  known seededTwoRungs 0%nat /\
  processed seededTwoRungs (ValidationCompleted 0%nat msg0 (report 5)) /\
  allTrialsOf seededTwoRungs < MaxTrials (twoRungs 8 3) /\
  exists r s' ctx',
    handle (mkContext 3) seededTwoRungs (ValidationCompleted 0%nat msg0 (report 5)) =
      Some (r, s', ctx') /\
    countOps isTrainOp (opsOf r) = 1%nat.
Proof.
  assert (Hv : validConfig (twoRungs 8 3)) by reflexivity.
  assert (Hs : validExperiment (twoRungs 8 3) []) by (vm_compute; exact I).
  assert (He : experiment (twoRungs 8 3) [] = Some (seededOps, seededTwoRungs, mkContext 3))
    by (vm_compute; reflexivity).
  assert (Hk : known seededTwoRungs 0%nat) by (vm_compute; eauto).
  assert (Hp : processed seededTwoRungs (ValidationCompleted 0%nat msg0 (report 5)))
    by (vm_compute; exact I).
  assert (Hl : allTrialsOf seededTwoRungs < MaxTrials (twoRungs 8 3)) by reflexivity.
  split; [exact Hv|]. split; [exact Hs|]. split; [exact He|]. split; [exact Hk|].
  split; [exact Hp|]. split; [exact Hl|].
  exact (train_until_cap (twoRungs 8 3) [] (ValidationCompleted 0%nat msg0 (report 5))
           Hv Hs _ _ _ He Hk Hp Hl).
Defined.

(** ** The top rung *)

Lemma run_topKept ctx s evs ops s' ctx' :
  wellFormed s -> run ctx s evs = Some (ops, s', ctx') -> topKept (rungs s) (rungs s').
Proof.
  revert ctx s ops s' ctx'.
  induction evs as [|ev rest IH]; intros ctx s ops s' ctx' Hwf; simpl.
  - intros [= <- <- <-]. apply rungsFramed_topKept, rungsFramed_refl.
  - destruct (handle_batch ctx s ev Hwf)
      as (r & s1 & ctx1 & work & drain & Hh & Hwf1 & _ & _ & _ & _ & Htop & _).
    rewrite Hh.
    destruct (run ctx1 s1 rest) as [[[ops2 s2] ctx2]|] eqn:Hr; [|discriminate].
    intros [= <- <- <-]. eapply topKept_trans; [exact Htop|].
    eapply IH; eassumption.
Qed.

Lemma keysOf_nil (ms : list trialMetric) : keysOf ms = keysOf [] -> ms = [].
Proof.
  destruct ms; [reflexivity | discriminate].
Qed.

Lemma reached_top_empty (cfg : AsyncHalvingConfig) (evs : list Event) :
  validConfig cfg ->
  exists ops s ctx r,
    experiment cfg evs = Some (ops, s, ctx) /\
    rungs s !! Z.to_nat (NumRungs cfg - 1) = Some r /\
    metrics r = [].
Proof.
  intros Hv. destruct (validConfig_unpack cfg Hv) as (_ & HN & _ & _).
  unfold experiment.
  destruct (newAsyncHalvingSearch_wf cfg Hv) as (s0 & Hs0 & Hwf0 & _ & Hcfg0 & _).
  rewrite Hs0. unfold initialOperations.
  destruct (createTrials_wf (Z.to_nat (initialConcurrency (config s0))) (mkContext 0) s0 Hwf0)
    as (ops1 & s1 & ctx1 & Hc & Hwf1 & _).
  rewrite Hc.
  destruct (run_wf ctx1 s1 evs Hwf1) as (ops2 & s2 & ctx2 & Hr & _ & _).
  rewrite Hr.
  pose proof (wf_numRungs s0 Hwf0) as Hn0. rewrite Hcfg0 in Hn0.
  destruct (lookup_lt_is_Some_2 (rungs s0) (Z.to_nat (NumRungs cfg - 1))) as [r0 Hr0]; [lia|].
  destruct (newAsyncHalvingSearch_rungs cfg s0 _ r0 Hs0 Hr0) as [Hr0eq _].
  destruct (lookup_lt_is_Some_2 (rungs s0) 0%nat (wf_nonempty s0 Hwf0)) as [b0 Hb0].
  destruct (createTrials_seeds _ _ _ _ _ _ b0 Hc Hb0) as (Hrs1 & _).
  assert (Htop1 : topKept (rungs s0) (rungs s1)).
  { apply rungsFramed_topKept. rewrite Hrs1.
    eapply rungsFramed_insert; [exact Hb0 | reflexivity | reflexivity]. }
  pose proof (run_topKept _ _ _ _ _ _ Hwf1 Hr) as Htop2.
  destruct (topKept_trans _ _ _ Htop1 Htop2) as (_ & _ & Htop).
  replace (length (rungs s0) - 1)%nat with (Z.to_nat (NumRungs cfg - 1)) in Htop by lia.
  destruct (Htop r0 Hr0) as (r & Hr' & Hkeys).
  exists (opsOf (Ops ops1) ++ ops2), s2, ctx2, r.
  split; [reflexivity|]. split; [exact Hr'|].
  apply keysOf_nil. rewrite Hkeys, Hr0eq. reflexivity.
Qed.

(** X13.  Nothing is ever ranked in the top rung: in every state an
    experiment on a valid configuration can reach, whatever the events,
    the metrics of the top rung are empty, so the drain finds nothing to
    close there and a trial is closed at the top only by the top-rung
    branch of [promote]. *)
Theorem top_rung_never_ranks (cfg : AsyncHalvingConfig) (evs : list Event) :
  validConfig cfg ->
  exists ops s ctx r,
    experiment cfg evs = Some (ops, s, ctx) /\
    rungs s !! Z.to_nat (NumRungs cfg - 1) = Some r /\
    metrics r = [].
Proof.
  apply reached_top_empty.
Qed.

Lemma top_rung_never_ranks_witness :
  validConfig (twoRungs 8 3) /\
  exists ops s ctx r,
    experiment (twoRungs 8 3) secondPromoted = Some (ops, s, ctx) /\
    rungs s !! 1%nat = Some r /\ metrics r = [].
Proof.
  assert (Hv : validConfig (twoRungs 8 3)) by reflexivity.
  split; [exact Hv|].
  exact (top_rung_never_ranks (twoRungs 8 3) secondPromoted Hv).
Defined.

(** X14.  A validation that completes the top rung for a trial that has
    not exited early closes the trial: [Close] of that trial is the first
    operation of the returned batch; what follows holds at most one
    [Train] (that of a fresh trial). *)
Theorem top_rung_validation_closes (cfg : AsyncHalvingConfig) (evs : list Event)
  (id : RequestID) (msg : Workload) (v : gmap string Q) (x : Q) :
  validConfig cfg ->
  forall ops s ctx,
    experiment cfg evs = Some (ops, s, ctx) ->
    Z.of_nat (rungOf s id) = NumRungs cfg - 1 ->
    isEarlyExit s id = false ->
    v !! Metric cfg = Some x ->
    exists rest s' ctx',
      validationCompleted ctx s id msg v = Some (Ops (Close id :: rest), s', ctx') /\
      (countOps isTrainOp rest <= 1)%nat.
Proof.
  intros Hv ops s ctx He Htop Hearly Hx.
  destruct (reached_wf cfg evs ops s ctx Hv He) as (Hwf & Hcfg & _).
  unfold validationCompleted, metricOf, promoteEntry. rewrite Hcfg, Hx.
  match goal with |- context [promote ?t ?c ?st ?i ?w ?q] =>
    destruct (promote_wf t c st i w q Hwf) as (ops1 & s1 & ctx1 & Hp & _ & _)
  end; [lia|].
  rewrite Hp. apply promote_batch in Hp; [|exact Hwf].
  destruct Hp as ((work & drain & Hops & Hwork & Hdrain & _) & _).
  assert (Hclose : closeAtTop s id = [Close id]).
  { unfold closeAtTop. rewrite Hcfg, Hearly.
    apply Z.eqb_eq in Htop. rewrite Htop. reflexivity. }
  rewrite Hclose in Hops. subst ops1.
  exists (work ++ drain), s1, ctx1. split; [reflexivity|].
  destruct (batch_counts s1 [] work drain (List.Forall_nil _) Hwork Hdrain) as [Htrain _].
  simpl in Htrain. rewrite Htrain. destruct (decide (work = [])); lia.
Qed.

Lemma top_rung_validation_closes_witness :
  validConfig (twoRungs 8 3) /\
  match experiment (twoRungs 8 3) secondPromoted with
  | Some (_, s, ctx) =>
      Z.of_nat (rungOf s 1%nat) = NumRungs (twoRungs 8 3) - 1 /\
      isEarlyExit s 1%nat = false /\
      report 3 !! Metric (twoRungs 8 3) = Some 3%Q /\
      exists rest s' ctx',
        validationCompleted ctx s 1%nat msg0 (report 3) =
          Some (Ops (Close 1%nat :: rest), s', ctx')
  | None => False
  end.
Proof.
  assert (Hv : validConfig (twoRungs 8 3)) by reflexivity.
  split; [exact Hv|].
  destruct (experiment (twoRungs 8 3) secondPromoted) as [[[ops s] ctx]|] eqn:He;
    [|vm_compute in He; discriminate].
  assert (H1 : Z.of_nat (rungOf s 1%nat) = NumRungs (twoRungs 8 3) - 1)
    by (vm_compute in He; injection He as <- <- <-; reflexivity).
  assert (H2 : isEarlyExit s 1%nat = false)
    by (vm_compute in He; injection He as <- <- <-; reflexivity).
  assert (H3 : report 3 !! Metric (twoRungs 8 3) = Some 3%Q) by (vm_compute; reflexivity).
  split; [exact H1|]. split; [exact H2|]. split; [exact H3|].
  destruct (top_rung_validation_closes (twoRungs 8 3) secondPromoted 1%nat msg0 (report 3) 3%Q
              Hv ops s ctx He H1 H2 H3) as (rest & s' & ctx' & Hc & _).
  exists rest, s', ctx'. exact Hc.
Defined.

(** X15.  In a bracket with a single rung every trial is at the top rung,
    registered or not: each validation that carries the metric, for a
    trial that has not exited early, closes the trial at once, and the
    rung never ranks anything. *)
Theorem single_rung_closes (cfg : AsyncHalvingConfig) (evs : list Event)
  (id : RequestID) (msg : Workload) (v : gmap string Q) (x : Q) :
  validConfig cfg -> NumRungs cfg = 1 ->
  forall ops s ctx,
    experiment cfg evs = Some (ops, s, ctx) ->
    isEarlyExit s id = false ->
    v !! Metric cfg = Some x ->
    exists rest s' ctx',
      validationCompleted ctx s id msg v = Some (Ops (Close id :: rest), s', ctx') /\
      (forall r, r ∈ rungs s' -> metrics r = []).
Proof.
  intros Hv H1 ops s ctx He Hearly Hx.
  destruct (reached_wf cfg evs ops s ctx Hv He) as (Hwf & Hcfg & _).
  pose proof (rungOf_bound s id Hwf) as Hk.
  pose proof (wf_numRungs s Hwf) as Hn. rewrite Hcfg, H1 in Hn.
  unfold validationCompleted, metricOf, promoteEntry. rewrite Hcfg, Hx.
  match goal with |- context [promote ?t ?c ?st ?i ?w ?q] =>
    destruct (promote_wf t c st i w q Hwf) as (ops1 & s1 & ctx1 & Hp & _ & _)
  end; [lia|].
  rewrite Hp. apply promote_batch in Hp; [|exact Hwf].
  destruct Hp as ((work & drain & Hops & _) & _ & (Hl & _ & Htop)).
  assert (Hclose : closeAtTop s id = [Close id]).
  { unfold closeAtTop. rewrite Hcfg, Hearly, H1.
    replace (Z.of_nat (rungOf s id)) with 0 by lia. reflexivity. }
  rewrite Hclose in Hops. subst ops1.
  exists (work ++ drain), s1, ctx1. split; [reflexivity|].
  destruct (reached_top_empty cfg evs Hv) as (ops' & s'' & ctx'' & r0 & He' & Hr0 & Hm0).
  rewrite He in He'. injection He' as <- <- <-.
  rewrite H1 in Hr0. simpl in Hr0.
  replace (length (rungs s) - 1)%nat with 0%nat in Htop by lia.
  destruct (Htop r0 Hr0) as (r' & Hr' & Hkeys).
  intros r Hr. apply list_elem_of_lookup in Hr as [j Hj].
  assert (j = 0%nat) by (apply lookup_lt_Some in Hj; lia). subst j.
  assert (r = r') by congruence. subst r'.
  apply keysOf_nil. rewrite Hkeys, Hm0. reflexivity.
Qed.

Lemma single_rung_closes_witness :
  validConfig oneRung /\ NumRungs oneRung = 1 /\
  match experiment oneRung [] with
  | Some (_, s, ctx) =>
      isEarlyExit s 0%nat = false /\
      report 3 !! Metric oneRung = Some 3%Q /\
      exists rest s' ctx',
        validationCompleted ctx s 0%nat msg0 (report 3) =
          Some (Ops (Close 0%nat :: rest), s', ctx')
  | None => False
  end.
Proof.
  assert (Hv : validConfig oneRung) by reflexivity.
  assert (H1 : NumRungs oneRung = 1) by reflexivity.
  split; [exact Hv|]. split; [exact H1|].
  destruct (experiment oneRung []) as [[[ops s] ctx]|] eqn:He;
    [|vm_compute in He; discriminate].
  assert (H2 : isEarlyExit s 0%nat = false)
    by (vm_compute in He; injection He as <- <- <-; reflexivity).
  assert (H3 : report 3 !! Metric oneRung = Some 3%Q) by (vm_compute; reflexivity).
  split; [exact H2|]. split; [exact H3|].
  destruct (single_rung_closes oneRung [] 0%nat msg0 (report 3) 3%Q
              Hv H1 ops s ctx He H2 H3) as (rest & s' & ctx' & Hc & _).
  exists rest, s', ctx'. exact Hc.
Defined.

(** ** What the drain emits *)

Lemma closeOutMetrics_counts (early : gmap nat bool) (ms : list trialMetric) (c : Z)
  (id : RequestID) :
  countOps (isClose id) (closeOutMetrics early ms c).1.1 =
    ((if default false (early !! id) then 1 else 2) * openCount id ms)%nat /\
  (closeOutMetrics early ms c).2 =
    Nat.iter (length (List.filter (fun t => negb (promoted t) && negb (closed t)) ms))
      int_incr c.
Proof.
  revert c. induction ms as [|t ms IH]; intros c.
  { unfold openCount, countOps. simpl. rewrite Nat.mul_0_r. split; reflexivity. }
  cbn [closeOutMetrics]. unfold openCount, openEntry in *.
  cbn [List.filter].
  destruct (negb (promoted t) && negb (closed t)) eqn:Hopen.
  - destruct (IH (int_incr c)) as [IH1 IH2].
    destruct (closeOutMetrics early ms (int_incr c)) as [[ops ms'] c']. simpl in IH1, IH2.
    cbn [fst snd andb length]. split.
    + rewrite countOps_app, IH1.
      destruct (Nat.eqb_spec id (requestID t)) as [-> | Hne].
      * cbn [length]. destruct (default false (early !! requestID t));
          unfold countOps, NewClose; simpl; rewrite Nat.eqb_refl; simpl; lia.
      * assert (Hx : (id =? requestID t)%nat = false) by (apply Nat.eqb_neq; exact Hne).
        destruct (default false (early !! requestID t));
          unfold countOps, NewClose; simpl; rewrite ?Hx; simpl; reflexivity.
    + rewrite IH2, Nat.iter_succ_r. reflexivity.
  - destruct (IH c) as [IH1 IH2].
    destruct (closeOutMetrics early ms c) as [[ops ms'] c']. simpl in IH1, IH2.
    cbn [fst snd andb]. split; [exact IH1 | exact IH2].
Qed.

Lemma closeOutLoop_counts (early : gmap nat bool) (rs : list rung) (c : Z) (id : RequestID) :
  countOps (isClose id) (closeOutLoop early rs c).1.1 =
    ((if default false (early !! id) then 1 else 2) *
     openInRungs (Some id) (drainable rs))%nat /\
  (closeOutLoop early rs c).2 = Nat.iter (openInRungs None (drainable rs)) int_incr c.
Proof.
  revert c. induction rs as [|r rs IH]; intros c.
  { unfold countOps. simpl. rewrite Nat.mul_0_r. split; reflexivity. }
  cbn [closeOutLoop drainable]. destruct (outstandingTrials r >? 0).
  - unfold countOps. simpl. rewrite Nat.mul_0_r. split; reflexivity.
  - destruct (closeOutMetrics_counts early (metrics r) c id) as [Hm1 Hm2].
    destruct (closeOutMetrics early (metrics r) c) as [[ops1 ms] c1]. simpl in Hm1, Hm2.
    destruct (IH c1) as [IH1 IH2].
    destruct (closeOutLoop early rs c1) as [[ops2 rs'] c2]. simpl in IH1, IH2.
    cbn [fst snd openInRungs]. split.
    + rewrite countOps_app, Hm1, IH1. lia.
    + rewrite IH2, Hm2, Nat.add_comm, Nat.iter_add. reflexivity.
Qed.

(** X16.  What the drain emits, exactly: [closeOutRungs] goes through the
    rungs before the first one with outstanding trials; for each entry it
    finds unpromoted and unclosed it counts one completed trial and emits
    [Close] of the trial once if the trial has exited early and twice if
    it has not (the guarded append and the unguarded one). *)
Theorem closeOutRungs_counts (s : asyncHalvingSearch) (id : RequestID) :
  countOps (isClose id) (closeOutRungs s).1 =
    ((if isEarlyExit s id then 1 else 2) *
     openInRungs (Some id) (drainable (rungs s)))%nat /\
  trialsCompleted (closeOutRungs s).2 =
    Nat.iter (openInRungs None (drainable (rungs s))) int_incr (trialsCompleted s).
Proof.
  unfold closeOutRungs, isEarlyExit.
  destruct (closeOutLoop_counts (earlyExitTrials s) (rungs s) (trialsCompleted s) id)
    as [H1 H2].
  destruct (closeOutLoop (earlyExitTrials s) (rungs s) (trialsCompleted s)) as [[ops rs] c].
  simpl in *. split; assumption.
Qed.

(** ** Sorted rungs, on numbers *)

(** X17.  On numbers that are finite (the rationals of this embedding:
    no NaN, no infinity) and a valid configuration, every public call
    returns, whatever the events, and leaves every rung's metrics sequence
    non-decreasing in [metric]; and the next result to arrive in a rung is
    placed after all the entries whose metric is at most its own, so after
    the equal ones, and before the larger ones, the order of the entries
    already there being unchanged. *)
Theorem rungs_sorted_on_numbers (cfg : AsyncHalvingConfig) (evs : list Event) :
  validConfig cfg ->
  exists ops s ctx,
    experiment cfg evs = Some (ops, s, ctx) /\
    forall r, r ∈ rungs s ->
      sortedByMetric (metrics r) /\
      forall (id : RequestID) (m : Q),
        exists (i : nat) (promos : list RequestID) (r' : rung),
          promotionsAsync r id m (Divisor cfg) = Some (promos, r') /\
          keysOf (metrics r') =
            take i (keysOf (metrics r)) ++ (id, m) :: drop i (keysOf (metrics r)) /\
          (forall t, t ∈ take i (metrics r) -> (metric t <= m)%Q) /\
          (forall t, t ∈ drop i (metrics r) -> (m < metric t)%Q).
Proof.
  intros Hv.
  destruct (experiment_reach cfg evs Hv) as (ops & s & ctx & He & Hwf & Hcfg & _).
  exists ops, s, ctx. split; [exact He|]. intros r Hr.
  pose proof (wf_rungs s Hwf) as Hall. rewrite Forall_forall in Hall.
  destruct (Hall r Hr) as [Hs _]. split; [exact Hs|].
  intros id m. apply promotionsAsync_stable; [exact Hs|].
  rewrite <- Hcfg. apply wf_divisor. assumption.
Qed.

Lemma rungs_sorted_on_numbers_witness :
  validConfig (twoRungs 8 3) /\
  exists ops s ctx,
    experiment (twoRungs 8 3) bestLast = Some (ops, s, ctx) /\
    forall r, r ∈ rungs s -> sortedByMetric (metrics r).
Proof.
  assert (Hv : validConfig (twoRungs 8 3)) by reflexivity.
  split; [exact Hv|].
  destruct (rungs_sorted_on_numbers (twoRungs 8 3) bestLast Hv)
    as (ops & s & ctx & He & H).
  exists ops, s, ctx. split; [exact He|]. intros r Hr. apply (H r Hr).
Defined.

(** * The searcher on IEEE 754 numbers *)

(** ** The order of the floats *)

Lemma float64_le_key (x y : F64.float64) :
  F64.math_IsNaN x = false -> F64.math_IsNaN y = false ->
  (F64.float64_le x y = true <-> keyLe (orderKey x) (orderKey y)).
Proof.
  unfold F64.float64_le, SFleb, keyLe.
  destruct x as [sx|sx| |sx mx ex], y as [sy|sy| |sy my ey]; try discriminate; intros _ _;
    simpl; try destruct sx; try destruct sy; simpl;
    try (split; [intros _; lia | reflexivity]);
    try (split; [discriminate | lia]).
  - destruct (Z.compare_spec ex ey); simpl.
    + change (PosDef.Pos.compare_cont Eq mx my) with (Pos.compare mx my).
      destruct (Pos.compare_spec mx my); simpl; split; try discriminate; try reflexivity; lia.
    + split; [discriminate | lia].
    + split; [intros _; lia | reflexivity].
  - destruct (Z.compare_spec ex ey); simpl.
    + change (PosDef.Pos.compare_cont Eq mx my) with (Pos.compare mx my).
      destruct (Pos.compare_spec mx my); simpl; split; try discriminate; try reflexivity; lia.
    + split; [intros _; lia | reflexivity].
    + split; [discriminate | lia].
Qed.

Lemma float64_gt_key (x y : F64.float64) :
  F64.math_IsNaN x = false -> F64.math_IsNaN y = false ->
  (F64.float64_gt x y = true <-> ~ keyLe (orderKey x) (orderKey y)).
Proof.
  unfold F64.float64_gt, SFltb, keyLe.
  destruct x as [sx|sx| |sx mx ex], y as [sy|sy| |sy my ey]; try discriminate; intros _ _;
    simpl; try destruct sx; try destruct sy; simpl;
    try (split; [intros _; lia | reflexivity]);
    try (split; [discriminate | lia]).
  - destruct (Z.compare_spec ey ex); simpl.
    + change (PosDef.Pos.compare_cont Eq my mx) with (Pos.compare my mx).
      destruct (Pos.compare_spec my mx); simpl; split; try discriminate; try reflexivity; lia.
    + split; [discriminate | lia].
    + split; [intros _; lia | reflexivity].
  - destruct (Z.compare_spec ey ex); simpl.
    + change (PosDef.Pos.compare_cont Eq my mx) with (Pos.compare my mx).
      destruct (Pos.compare_spec my mx); simpl; split; try discriminate; try reflexivity; lia.
    + split; [intros _; lia | reflexivity].
    + split; [discriminate | lia].
Qed.

Lemma float64_le_not_NaN (x y : F64.float64) :
  F64.float64_le x y = true -> F64.math_IsNaN x = false /\ F64.math_IsNaN y = false.
Proof.
  unfold F64.float64_le, SFleb.
  destruct x, y; simpl; try discriminate; intros _; split; reflexivity.
Qed.

Lemma float64_gt_not_NaN (x y : F64.float64) :
  F64.float64_gt x y = true -> F64.math_IsNaN x = false /\ F64.math_IsNaN y = false.
Proof.
  unfold F64.float64_gt, SFltb.
  destruct x, y; simpl; try discriminate; intros _; split; reflexivity.
Qed.

(** Every comparison with NaN is false. *)
Lemma float64_gt_NaN (x y : F64.float64) :
  F64.math_IsNaN x = true \/ F64.math_IsNaN y = true -> F64.float64_gt x y = false.
Proof.
  intros H. destruct (F64.float64_gt x y) eqn:Hgt; [|reflexivity].
  destruct (float64_gt_not_NaN x y Hgt). destruct H; congruence.
Qed.

Lemma float64_le_refl (x : F64.float64) :
  F64.math_IsNaN x = false -> F64.float64_le x x = true.
Proof.
  intros Hx. apply float64_le_key; [assumption | assumption|]. unfold keyLe. lia.
Qed.

Lemma float64_le_trans (x y z : F64.float64) :
  F64.float64_le x y = true -> F64.float64_le y z = true -> F64.float64_le x z = true.
Proof.
  intros Hxy Hyz.
  destruct (float64_le_not_NaN x y Hxy) as [Hx Hy].
  destruct (float64_le_not_NaN y z Hyz) as [_ Hz].
  apply float64_le_key in Hxy; [|assumption|assumption].
  apply float64_le_key in Hyz; [|assumption|assumption].
  apply float64_le_key; [assumption | assumption|].
  unfold keyLe in *. lia.
Qed.

(** Without NaN the order is total: what is not greater is at most. *)
Lemma float64_not_gt_le (x y : F64.float64) :
  F64.math_IsNaN x = false -> F64.math_IsNaN y = false ->
  F64.float64_gt x y = false -> F64.float64_le x y = true.
Proof.
  intros Hx Hy Hgt. apply float64_le_key; [assumption | assumption|].
  destruct (float64_gt_key x y Hx Hy) as [_ H2].
  unfold keyLe in *.
  destruct (orderKey x) as [[a b] c], (orderKey y) as [[a' b'] c']. simpl in *.
  destruct (Z_lt_le_dec a a') as [?|?]; [lia|].
  destruct (Z.eq_dec a a') as [?|?].
  - destruct (Z_lt_le_dec b b') as [?|?]; [lia|].
    destruct (Z.eq_dec b b') as [?|?].
    + destruct (Z_le_gt_dec c c') as [?|?]; [lia|].
      rewrite H2 in Hgt by lia. discriminate.
    + rewrite H2 in Hgt by lia. discriminate.
  - rewrite H2 in Hgt by lia. discriminate.
Qed.

Lemma float64_gt_le_trans (x y z : F64.float64) :
  F64.float64_gt y x = true -> F64.float64_le y z = true -> F64.float64_gt z x = true.
Proof.
  intros Hgt Hle.
  destruct (float64_gt_not_NaN y x Hgt) as [Hy Hx].
  destruct (float64_le_not_NaN y z Hle) as [_ Hz].
  apply float64_gt_key in Hgt; [|assumption|assumption].
  apply float64_le_key in Hle; [|assumption|assumption].
  apply float64_gt_key; [assumption | assumption|].
  unfold keyLe in *. lia.
Qed.

Lemma float64_gt_le (x y : F64.float64) :
  F64.float64_gt y x = true -> F64.float64_le x y = true.
Proof.
  intros Hgt. destruct (float64_gt_not_NaN y x Hgt) as [Hy Hx].
  apply float64_gt_key in Hgt; [|assumption|assumption].
  apply float64_le_key; [assumption | assumption|].
  unfold keyLe in *. lia.
Qed.

(** ** Sorted rungs and the insertion index *)

Lemma sortedByMetric64_cons (a : F64.trialMetric) (ms : list F64.trialMetric) :
  F64.float64_le (F64.metric a) (F64.metric a) = true ->
  (forall b, b ∈ ms -> F64.float64_le (F64.metric a) (F64.metric b) = true) ->
  sortedByMetric64 ms -> sortedByMetric64 (a :: ms).
Proof.
  intros Haa Ha Hms [|i] [|j] x y Hij Hx Hy; simpl in *; try lia.
  - inversion Hx; inversion Hy; subst. exact Haa.
  - inversion Hx; subst. apply Ha. eapply list_elem_of_lookup_2; eassumption.
  - apply (Hms i j); [lia | assumption | assumption].
Qed.

Lemma sortedByMetric64b_sound (ms : list F64.trialMetric) :
  sortedByMetric64b ms = true -> sortedByMetric64 ms.
Proof.
  induction ms as [|a ms IH]; intros H.
  - intros i j x y _ Hx. rewrite lookup_nil in Hx. discriminate.
  - cbn [sortedByMetric64b] in H. apply andb_true_iff in H as [Haa H].
    destruct ms as [|b ms].
    + apply sortedByMetric64_cons; [exact Haa | |].
      * intros c Hc. inversion Hc.
      * intros i j x y _ Hx. rewrite lookup_nil in Hx. discriminate.
    + apply andb_true_iff in H as [Hab Hrest]. specialize (IH Hrest).
      apply sortedByMetric64_cons; [exact Haa | | exact IH].
      intros c Hc. apply list_elem_of_lookup in Hc as [k Hk].
      eapply float64_le_trans; [exact Hab|].
      apply (IH 0%nat k b c); [lia | reflexivity | assumption].
Qed.

Lemma sortedByMetric64_no_NaN (ms : list F64.trialMetric) (t : F64.trialMetric) :
  sortedByMetric64 ms -> t ∈ ms -> F64.math_IsNaN (F64.metric t) = false.
Proof.
  intros Hs Ht. apply list_elem_of_lookup in Ht as [k Hk].
  apply (float64_le_not_NaN (F64.metric t) (F64.metric t)).
  apply (Hs k k); [lia | assumption | assumption].
Qed.

(** Sortedness only looks at the metrics. *)
Lemma sortedByMetric64_same_metrics (ms ms' : list F64.trialMetric) :
  F64.metric <$> ms = F64.metric <$> ms' -> sortedByMetric64 ms -> sortedByMetric64 ms'.
Proof.
  intros Heq Hs i j a b Hij Ha Hb.
  assert (Hfa : (F64.metric <$> ms) !! i = Some (F64.metric a))
    by (rewrite Heq, list_lookup_fmap, Ha; reflexivity).
  assert (Hfb : (F64.metric <$> ms) !! j = Some (F64.metric b))
    by (rewrite Heq, list_lookup_fmap, Hb; reflexivity).
  rewrite list_lookup_fmap in Hfa, Hfb.
  destruct (ms !! i) as [a'|] eqn:Ha'; [|discriminate].
  destruct (ms !! j) as [b'|] eqn:Hb'; [|discriminate].
  simpl in Hfa, Hfb. injection Hfa as <-. injection Hfb as <-.
  apply (Hs i j); assumption.
Qed.

(** Whatever the closure answers, the search stays in range. *)
Lemma search_loop_range (f : nat -> bool) (turns i j : nat) :
  (i <= j)%nat -> (i <= search_loop turns f i j <= j)%nat.
Proof.
  revert i j. induction turns as [|turns IH]; intros i j Hij; cbn [search_loop]; [lia|].
  destruct (Nat.ltb_spec i j) as [Hlt | Hge]; [|lia].
  pose proof (Nat.div_mod_eq (i + j) 2) as Hdiv.
  pose proof (Nat.mod_upper_bound (i + j) 2 ltac:(lia)) as Hmod.
  set (h := ((i + j) / 2)%nat) in *.
  destruct (f h); cbn [negb].
  - specialize (IH i h ltac:(lia)). lia.
  - specialize (IH (h + 1)%nat j ltac:(lia)). lia.
Qed.

(** A closure that never holds sends the search to the end. *)
Lemma search_loop_never (f : nat -> bool) (turns i j : nat) :
  (forall k, f k = false) -> (i <= j)%nat -> (j - i <= turns)%nat ->
  search_loop turns f i j = j.
Proof.
  intros Hf. revert i j. induction turns as [|turns IH]; intros i j Hij Hfuel;
    cbn [search_loop]; [lia|].
  destruct (Nat.ltb_spec i j) as [Hlt | Hge]; [|lia].
  pose proof (Nat.div_mod_eq (i + j) 2) as Hdiv.
  pose proof (Nat.mod_upper_bound (i + j) 2 ltac:(lia)) as Hmod.
  set (h := ((i + j) / 2)%nat) in *.
  rewrite Hf. cbn [negb]. apply IH; lia.
Qed.

Lemma worseThan64_monotone (ms : list F64.trialMetric) (m : F64.float64) :
  sortedByMetric64 ms ->
  forall a b : nat, (a <= b)%nat -> (b < length ms)%nat ->
    F64.worseThan ms m a = true -> F64.worseThan ms m b = true.
Proof.
  intros Hs a b Hab Hb. unfold F64.worseThan.
  destruct (ms !! a) as [ta|] eqn:Ha; [|discriminate].
  destruct (lookup_lt_is_Some_2 ms b Hb) as [tb Htb]. rewrite Htb.
  intros Hgt. eapply float64_gt_le_trans; [exact Hgt|]. apply (Hs a b); assumption.
Qed.

Lemma insertIndex64_spec (ms : list F64.trialMetric) (m : F64.float64) :
  sortedByMetric64 ms ->
  let i := sort_Search (length ms) (F64.worseThan ms m) in
  (forall j t, (i <= j)%nat -> ms !! j = Some t -> F64.float64_gt (F64.metric t) m = true) /\
  (F64.math_IsNaN m = false ->
   forall j t, (j < i)%nat -> ms !! j = Some t -> F64.float64_le (F64.metric t) m = true).
Proof.
  intros Hs.
  destruct (sort_Search_least (F64.worseThan ms m) (length ms) (worseThan64_monotone ms m Hs))
    as (Hle & Hlo & Hhi).
  cbv zeta. split.
  - intros j t Hj Ht. pose proof (lookup_lt_Some _ _ _ Ht) as Hlen.
    specialize (Hhi j Hj Hlen). unfold F64.worseThan in Hhi.
    rewrite Ht in Hhi. assumption.
  - intros Hm j t Hj Ht. specialize (Hlo j Hj). unfold F64.worseThan in Hlo.
    rewrite Ht in Hlo. apply float64_not_gt_le; [|assumption|assumption].
    eapply sortedByMetric64_no_NaN; [exact Hs|]. eapply list_elem_of_lookup_2; eassumption.
Qed.

Lemma insertAt64_lookup_lt (ms : list F64.trialMetric) (i j : nat) (t : F64.trialMetric) :
  (i <= length ms)%nat -> (j < i)%nat -> F64.insertAt ms i t !! j = ms !! j.
Proof.
  intros Hi Hj. unfold F64.insertAt.
  rewrite lookup_app_l by (rewrite length_take; lia).
  apply lookup_take_lt. assumption.
Qed.

Lemma insertAt64_lookup_eq (ms : list F64.trialMetric) (i : nat) (t : F64.trialMetric) :
  (i <= length ms)%nat -> F64.insertAt ms i t !! i = Some t.
Proof.
  intros Hi. unfold F64.insertAt.
  rewrite lookup_app_r by (rewrite length_take; lia).
  rewrite length_take. replace (i - i `min` length ms)%nat with 0%nat by lia.
  reflexivity.
Qed.

Lemma insertAt64_lookup_gt (ms : list F64.trialMetric) (i j : nat) (t : F64.trialMetric) :
  (i <= length ms)%nat -> (i < j)%nat -> F64.insertAt ms i t !! j = ms !! (j - 1)%nat.
Proof.
  intros Hi Hj. unfold F64.insertAt.
  rewrite lookup_app_r by (rewrite length_take; lia).
  rewrite length_take. replace (j - i `min` length ms)%nat with (S (j - i - 1)) by lia.
  simpl. rewrite lookup_drop. f_equal. lia.
Qed.

Lemma insertAt64_length (ms : list F64.trialMetric) (i : nat) (t : F64.trialMetric) :
  length (F64.insertAt ms i t) = S (length ms).
Proof.
  unfold F64.insertAt. rewrite length_app, length_take. simpl. rewrite length_drop. lia.
Qed.

Lemma insertAt64_sorted (ms : list F64.trialMetric) (t : F64.trialMetric) :
  sortedByMetric64 ms -> F64.math_IsNaN (F64.metric t) = false ->
  sortedByMetric64
    (F64.insertAt ms (sort_Search (length ms) (F64.worseThan ms (F64.metric t))) t).
Proof.
  intros Hs Hm. destruct (insertIndex64_spec ms (F64.metric t) Hs) as (Hhi & Hlo).
  specialize (Hlo Hm).
  pose proof (search_loop_range (F64.worseThan ms (F64.metric t)) (length ms) 0 (length ms)
                ltac:(lia)) as [_ Hle].
  fold (sort_Search (length ms) (F64.worseThan ms (F64.metric t))) in Hle.
  set (i := sort_Search (length ms) (F64.worseThan ms (F64.metric t))) in *.
  intros a b x y Hab Hx Hy.
  destruct (lt_eq_lt_dec a i) as [[Ha | Ha] | Ha];
    destruct (lt_eq_lt_dec b i) as [[Hb | Hb] | Hb]; try lia; subst;
    repeat match goal with
    | H : F64.insertAt _ _ _ !! ?k = _ |- _ =>
        first [ rewrite insertAt64_lookup_lt in H by lia
              | rewrite insertAt64_lookup_eq in H by lia
              | rewrite insertAt64_lookup_gt in H by lia ];
        try (injection H as <-)
    end; simpl.
  - apply (Hs a b); assumption.
  - apply (Hlo a); assumption.
  - eapply float64_le_trans; [apply (Hlo a x Ha Hx)|].
    apply float64_gt_le. apply (Hhi (b - 1)%nat); [lia | assumption].
  - apply float64_le_refl. assumption.
  - apply float64_gt_le. apply (Hhi (b - 1)%nat); [lia | assumption].
  - apply (Hs (a - 1)%nat (b - 1)%nat); [lia | assumption | assumption].
Qed.

Lemma keysOf64_insertAt (ms : list F64.trialMetric) (i : nat) (t : F64.trialMetric) :
  keysOf64 (F64.insertAt ms i t) =
  take i (keysOf64 ms) ++ (F64.requestID t, F64.metric t) :: drop i (keysOf64 ms).
Proof.
  unfold keysOf64, F64.insertAt. rewrite fmap_app, fmap_cons, fmap_take, fmap_drop.
  reflexivity.
Qed.

Lemma keysOf64_set_promoted (ms : list F64.trialMetric) (k : nat) (t : F64.trialMetric) (b : bool) :
  ms !! k = Some t -> keysOf64 (<[k := F64.set_promoted t b]> ms) = keysOf64 ms.
Proof.
  intros Hk. unfold keysOf64. rewrite list_fmap_insert. simpl.
  apply list_insert_id. rewrite list_lookup_fmap, Hk. reflexivity.
Qed.

Lemma keysOf64_metrics (ms ms' : list F64.trialMetric) :
  keysOf64 ms = keysOf64 ms' -> F64.metric <$> ms = F64.metric <$> ms'.
Proof.
  intros H. unfold keysOf64 in H.
  apply (f_equal (fmap snd)) in H. rewrite <- !list_fmap_compose in H. exact H.
Qed.

(** Whatever way [promotionsAsync] returns, the ranking it leaves is the
    old one with the new result at the index of the search. *)
Lemma promotionsAsync64_keys (r : F64.rung) (id : RequestID) (m d : F64.float64)
  (promos : list RequestID) (r' : F64.rung) :
  F64.promotionsAsync r id m d = Some (promos, r') ->
  let i := sort_Search (length (F64.metrics r)) (F64.worseThan (F64.metrics r) m) in
  keysOf64 (F64.metrics r') =
    take i (keysOf64 (F64.metrics r)) ++ (id, m) :: drop i (keysOf64 (F64.metrics r)) /\
  F64.stepsNeeded r' = F64.stepsNeeded r /\
  F64.outstandingTrials r' = F64.outstandingTrials r /\
  (length promos <= 1)%nat.
Proof.
  unfold F64.promotionsAsync. cbv zeta.
  set (i := sort_Search (length (F64.metrics r)) (F64.worseThan (F64.metrics r) m)).
  set (new := F64.numPromoteOf (length (F64.metrics r) + 1) d).
  set (old := F64.numPromoteOf (length (F64.metrics r)) d).
  set (t0 := F64.mkTrialMetric id m (Z.of_nat i <? new) false).
  pose proof (keysOf64_insertAt (F64.metrics r) i t0) as Hk. simpl in Hk.
  destruct (Z.of_nat i <? new).
  - intros [= <- <-]. simpl. repeat split; [exact Hk | lia].
  - destruct (new =? old); simpl.
    + intros [= <- <-]. simpl. repeat split; [exact Hk | lia].
    + unfold F64.metricAt. destruct (old <? 0); [discriminate|].
      destruct (F64.insertAt (F64.metrics r) i t0 !! Z.to_nat old) as [t|] eqn:Ht;
        [|discriminate].
      destruct (F64.promoted t); simpl.
      * intros [= <- <-]. simpl. repeat split; [exact Hk | lia].
      * intros [= <- <-]. simpl. rewrite keysOf64_set_promoted by exact Ht.
        repeat split; [exact Hk | lia].
Qed.

Lemma promotionsAsync64_sorted (r : F64.rung) (id : RequestID) (m d : F64.float64)
  (promos : list RequestID) (r' : F64.rung) :
  sortedByMetric64 (F64.metrics r) -> F64.math_IsNaN m = false ->
  F64.promotionsAsync r id m d = Some (promos, r') ->
  sortedByMetric64 (F64.metrics r').
Proof.
  intros Hs Hm Hp. destruct (promotionsAsync64_keys r id m d promos r' Hp) as (Hk & _).
  cbv zeta in Hk.
  pose proof (insertAt64_sorted (F64.metrics r) (F64.mkTrialMetric id m false false) Hs Hm)
    as Hins. simpl in Hins.
  eapply sortedByMetric64_same_metrics; [|exact Hins].
  apply keysOf64_metrics. rewrite Hk. apply keysOf64_insertAt.
Qed.

(** ** Sorted rungs across the calls *)

Lemma closeOutMetrics64_metrics (early : gmap nat bool) (ms : list F64.trialMetric) (c : Z) :
  F64.metric <$> snd (fst (F64.closeOutMetrics early ms c)) = F64.metric <$> ms.
Proof.
  revert c. induction ms as [|t ms IH]; intros c; [reflexivity|].
  cbn [F64.closeOutMetrics].
  destruct (negb (F64.promoted t) && negb (F64.closed t)).
  - specialize (IH (int_incr c)).
    destruct (F64.closeOutMetrics early ms (int_incr c)) as [[ops ms'] c'].
    cbn [fst snd] in *. rewrite !fmap_cons. f_equal. exact IH.
  - specialize (IH c).
    destruct (F64.closeOutMetrics early ms c) as [[ops ms'] c'].
    cbn [fst snd] in *. rewrite !fmap_cons. f_equal. exact IH.
Qed.

Lemma closeOutLoop64_sorted (early : gmap nat bool) (rs : list F64.rung) (c : Z) :
  rungsSorted64 rs -> rungsSorted64 (snd (fst (F64.closeOutLoop early rs c))).
Proof.
  revert c. induction rs as [|r rs IH]; intros c Hs; [exact Hs|].
  cbn [F64.closeOutLoop]. destruct (F64.outstandingTrials r >? 0); [exact Hs|].
  pose proof (closeOutMetrics64_metrics early (F64.metrics r) c) as Hm.
  destruct (F64.closeOutMetrics early (F64.metrics r) c) as [[ops1 ms] c1]. simpl in Hm.
  apply Forall_cons in Hs as [Hr Hrs]. specialize (IH c1 Hrs).
  destruct (F64.closeOutLoop early rs c1) as [[ops2 rs'] c2]. simpl in *.
  apply Forall_cons. split; [|exact IH].
  simpl. eapply sortedByMetric64_same_metrics; [symmetry; exact Hm | exact Hr].
Qed.

Lemma closeOutRungs64_sorted (s : F64.asyncHalvingSearch) :
  rungsSorted64 (F64.rungs s) -> rungsSorted64 (F64.rungs (snd (F64.closeOutRungs s))).
Proof.
  intros Hs. unfold F64.closeOutRungs.
  pose proof (closeOutLoop64_sorted (F64.earlyExitTrials s) (F64.rungs s)
                (F64.trialsCompleted s) Hs) as H.
  destruct (F64.closeOutLoop (F64.earlyExitTrials s) (F64.rungs s) (F64.trialsCompleted s))
    as [[ops rs] c]. exact H.
Qed.

Lemma rungsSorted64_insert (rs : list F64.rung) (k : nat) (r : F64.rung) :
  rungsSorted64 rs -> sortedByMetric64 (F64.metrics r) -> rungsSorted64 (<[k := r]> rs).
Proof.
  intros Hs Hr. unfold rungsSorted64. apply Forall_insert; assumption.
Qed.

Lemma rungsSorted64_lookup (rs : list F64.rung) (k : nat) (r : F64.rung) :
  rungsSorted64 rs -> rs !! k = Some r -> sortedByMetric64 (F64.metrics r).
Proof.
  intros Hs Hk. unfold rungsSorted64 in Hs. rewrite Forall_lookup in Hs. exact (Hs k r Hk).
Qed.

Lemma createTrial64_sorted ctx (s : F64.asyncHalvingSearch) ops s' ctx' :
  rungsSorted64 (F64.rungs s) -> F64.createTrial ctx s = Some (ops, s', ctx') ->
  rungsSorted64 (F64.rungs s').
Proof.
  intros Hs. unfold F64.createTrial. simpl.
  destruct (F64.rungs s !! 0%nat) as [r0|] eqn:Hr0; [|discriminate].
  intros [= <- <- <-]. simpl.
  apply rungsSorted64_insert; [exact Hs|].
  simpl. eapply rungsSorted64_lookup; eassumption.
Qed.

Lemma createTrials64_sorted n ctx (s : F64.asyncHalvingSearch) ops s' ctx' :
  rungsSorted64 (F64.rungs s) -> F64.createTrials n ctx s = Some (ops, s', ctx') ->
  rungsSorted64 (F64.rungs s').
Proof.
  revert ctx s ops s' ctx'. induction n as [|n IH]; intros ctx s ops s' ctx' Hs; simpl.
  - intros [= <- <- <-]. exact Hs.
  - destruct (F64.createTrial ctx s) as [[[ops1 s1] ctx1]|] eqn:H1; [|discriminate].
    destruct (F64.createTrials n ctx1 s1) as [[[ops2 s2] ctx2]|] eqn:H2; [|discriminate].
    intros [= <- <- <-]. eapply IH; [|exact H2].
    eapply createTrial64_sorted; eassumption.
Qed.

Lemma promoteTail64_sorted ctx (s : F64.asyncHalvingSearch) ops added ops' s' ctx' :
  rungsSorted64 (F64.rungs s) ->
  F64.promoteTail ctx s ops added = Some (ops', s', ctx') ->
  rungsSorted64 (F64.rungs s').
Proof.
  intros Hs. unfold F64.promoteTail.
  destruct (negb added && (F64.allTrialsOf s <? F64.maxTrials s)).
  - destruct (F64.createTrial ctx s) as [[[cops s1] ctx1]|] eqn:Hc; [|discriminate].
    pose proof (createTrial64_sorted ctx s cops s1 ctx1 Hs Hc) as Hs1.
    destruct (F64.allTrialsOf s =? F64.maxTrials s1).
    + pose proof (closeOutRungs64_sorted s1 Hs1) as H2.
      destruct (F64.closeOutRungs s1) as [cops2 s2]. intros [= <- <- <-]. exact H2.
    + intros [= <- <- <-]. exact Hs1.
  - destruct (F64.allTrialsOf s =? F64.maxTrials s).
    + pose proof (closeOutRungs64_sorted s Hs) as H2.
      destruct (F64.closeOutRungs s) as [cops2 s2]. intros [= <- <- <-]. exact H2.
    + intros [= <- <- <-]. exact Hs.
Qed.

Lemma ashaExitedMetricValue_number : F64.math_IsNaN F64.ashaExitedMetricValue = false.
Proof. reflexivity. Qed.

Lemma promoteLoop64_sorted rec ctx msg k promos (s : F64.asyncHalvingSearch)
  ops added ops' s' ctx' :
  recSorted64 rec -> rungsSorted64 (F64.rungs s) ->
  F64.promoteLoop rec ctx msg k promos s ops added = Some (ops', s', ctx') ->
  rungsSorted64 (F64.rungs s').
Proof.
  intros Hrec. revert s ops added.
  induction promos as [|pid rest IH]; intros s ops added Hs; cbn [F64.promoteLoop].
  - apply promoteTail64_sorted. exact Hs.
  - simpl.
    destruct (F64.rungs s !! k) as [r|] eqn:Hr; [|discriminate].
    destruct (F64.rungs s !! S k) as [nx|] eqn:Hnx; [|discriminate].
    set (s2 := F64.set_rungs _ _).
    assert (Hs2 : rungsSorted64 (F64.rungs s2)).
    { subst s2. simpl. apply rungsSorted64_insert; [exact Hs|].
      simpl. eapply rungsSorted64_lookup; eassumption. }
    destruct (negb (F64.isEarlyExit s2 pid)).
    + apply IH. exact Hs2.
    + intros Hcall. eapply Hrec; [exact Hs2 | apply ashaExitedMetricValue_number | exact Hcall].
Qed.

Lemma promote64_sorted turns : recSorted64 (F64.promote turns).
Proof.
  induction turns as [|turns IH]; intros ctx s id msg m ops' s' ctx' Hs Hm;
    cbn [F64.promote]; [discriminate|].
  destruct (F64.rungs s !! F64.rungOf s id) as [r|] eqn:Hr; [|discriminate].
  assert (Hsr : sortedByMetric64 (F64.metrics r))
    by (eapply rungsSorted64_lookup; eassumption).
  set (r1 := F64.set_outstanding r _).
  set (s1 := F64.set_rungs s _).
  assert (Hs1 : rungsSorted64 (F64.rungs s1)).
  { subst s1. simpl. apply rungsSorted64_insert; [exact Hs | exact Hsr]. }
  destruct (Z.of_nat (F64.rungOf s id) =? F64.NumRungs (F64.config s) - 1).
  - apply promoteTail64_sorted. exact Hs1.
  - destruct (F64.rungs s1 !! S (F64.rungOf s id)) as [nx|]; [|discriminate].
    destruct (F64.promotionsAsync r1 id m (F64.Divisor (F64.config s)))
      as [[promos r2]|] eqn:Hp; [|discriminate].
    apply (promoteLoop64_sorted _ _ _ _ _ _ _ _ _ _ _ IH).
    simpl. apply rungsSorted64_insert; [exact Hs1|].
    eapply promotionsAsync64_sorted; [| exact Hm | exact Hp]. exact Hsr.
Qed.

Lemma handle64_sorted ctx (s : F64.asyncHalvingSearch) ev r s' ctx' :
  rungsSorted64 (F64.rungs s) -> ranksNoNaN (F64.config s) ev ->
  F64.handle ctx s ev = Some (r, s', ctx') ->
  rungsSorted64 (F64.rungs s').
Proof.
  intros Hs Hev. destruct ev as [id msg | id msg v | id msg]; simpl.
  - intros [= <- <- <-]. exact Hs.
  - unfold F64.validationCompleted. simpl in Hev.
    destruct (F64.metricOf v (F64.Metric (F64.config s))) as [raw | err].
    + unfold F64.promoteEntry.
      destruct (F64.promote _ ctx s id msg _) as [[[ops1 s1] ctx1]|] eqn:Hp; [|discriminate].
      intros [= <- <- <-]. eapply promote64_sorted; [exact Hs | exact Hev | exact Hp].
    + intros [= <- <- <-]. exact Hs.
  - unfold F64.trialExitedEarly, F64.promoteEntry.
    destruct (F64.promote _ ctx _ id msg _) as [[[ops1 s1] ctx1]|] eqn:Hp; [|discriminate].
    intros [= <- <- <-].
    eapply promote64_sorted; [| apply ashaExitedMetricValue_number | exact Hp]. exact Hs.
Qed.

(** No call changes the configuration. *)
Lemma closeOutRungs64_config (s : F64.asyncHalvingSearch) :
  F64.config (snd (F64.closeOutRungs s)) = F64.config s.
Proof.
  unfold F64.closeOutRungs.
  destruct (F64.closeOutLoop _ _ _) as [[ops rs] c]. reflexivity.
Qed.

Lemma createTrial64_config ctx (s : F64.asyncHalvingSearch) ops s' ctx' :
  F64.createTrial ctx s = Some (ops, s', ctx') -> F64.config s' = F64.config s.
Proof.
  unfold F64.createTrial. simpl.
  destruct (F64.rungs s !! 0%nat); [|discriminate]. intros [= <- <- <-]. reflexivity.
Qed.

Lemma createTrials64_config n ctx (s : F64.asyncHalvingSearch) ops s' ctx' :
  F64.createTrials n ctx s = Some (ops, s', ctx') -> F64.config s' = F64.config s.
Proof.
  revert ctx s ops s' ctx'. induction n as [|n IH]; intros ctx s ops s' ctx'; simpl.
  - intros [= <- <- <-]. reflexivity.
  - destruct (F64.createTrial ctx s) as [[[ops1 s1] ctx1]|] eqn:H1; [|discriminate].
    destruct (F64.createTrials n ctx1 s1) as [[[ops2 s2] ctx2]|] eqn:H2; [|discriminate].
    intros [= <- <- <-]. rewrite (IH _ _ _ _ _ H2). eapply createTrial64_config; eassumption.
Qed.

Lemma promoteTail64_config ctx (s : F64.asyncHalvingSearch) ops added ops' s' ctx' :
  F64.promoteTail ctx s ops added = Some (ops', s', ctx') -> F64.config s' = F64.config s.
Proof.
  unfold F64.promoteTail.
  destruct (negb added && (F64.allTrialsOf s <? F64.maxTrials s)).
  - destruct (F64.createTrial ctx s) as [[[cops s1] ctx1]|] eqn:Hc; [|discriminate].
    pose proof (createTrial64_config ctx s cops s1 ctx1 Hc) as H1.
    destruct (F64.allTrialsOf s =? F64.maxTrials s1).
    + pose proof (closeOutRungs64_config s1) as H2.
      destruct (F64.closeOutRungs s1) as [cops2 s2]. intros [= <- <- <-]. simpl in H2. congruence.
    + intros [= <- <- <-]. exact H1.
  - destruct (F64.allTrialsOf s =? F64.maxTrials s).
    + pose proof (closeOutRungs64_config s) as H2.
      destruct (F64.closeOutRungs s) as [cops2 s2]. intros [= <- <- <-]. exact H2.
    + intros [= <- <- <-]. reflexivity.
Qed.

Lemma promoteLoop64_config rec ctx msg k promos (s : F64.asyncHalvingSearch)
  ops added ops' s' ctx' :
  (forall ctx s pid w m ops' s' ctx',
     rec ctx s pid w m = Some (ops', s', ctx') -> F64.config s' = F64.config s) ->
  F64.promoteLoop rec ctx msg k promos s ops added = Some (ops', s', ctx') ->
  F64.config s' = F64.config s.
Proof.
  intros Hrec. revert s ops added.
  induction promos as [|pid rest IH]; intros s ops added; cbn [F64.promoteLoop].
  - apply promoteTail64_config.
  - simpl.
    destruct (F64.rungs s !! k) as [r|]; [|discriminate].
    destruct (F64.rungs s !! S k) as [nx|]; [|discriminate].
    set (s2 := F64.set_rungs _ _).
    destruct (negb (F64.isEarlyExit s2 pid)).
    + intros H. apply IH in H. exact H.
    + intros H. apply Hrec in H. exact H.
Qed.

Lemma promote64_config turns ctx (s : F64.asyncHalvingSearch) id msg m ops' s' ctx' :
  F64.promote turns ctx s id msg m = Some (ops', s', ctx') -> F64.config s' = F64.config s.
Proof.
  revert ctx s id msg m ops' s' ctx'.
  induction turns as [|turns IH]; intros ctx s id msg m ops' s' ctx';
    cbn [F64.promote]; [discriminate|].
  destruct (F64.rungs s !! F64.rungOf s id) as [r|]; [|discriminate].
  destruct (Z.of_nat (F64.rungOf s id) =? F64.NumRungs (F64.config s) - 1).
  - intros H. apply promoteTail64_config in H. exact H.
  - match goal with |- context [F64.rungs ?x !! S _] => destruct (F64.rungs x !! S (F64.rungOf s id)) end;
      [|discriminate].
    destruct (F64.promotionsAsync _ id m _) as [[promos r2]|]; [|discriminate].
    intros H. apply promoteLoop64_config in H; [exact H|]. exact IH.
Qed.

Lemma handle64_config ctx (s : F64.asyncHalvingSearch) ev r s' ctx' :
  F64.handle ctx s ev = Some (r, s', ctx') -> F64.config s' = F64.config s.
Proof.
  destruct ev as [id msg | id msg v | id msg]; simpl.
  - intros [= <- <- <-]. reflexivity.
  - unfold F64.validationCompleted.
    destruct (F64.metricOf v (F64.Metric (F64.config s))) as [raw | err].
    + unfold F64.promoteEntry.
      destruct (F64.promote _ ctx s id msg _) as [[[ops1 s1] ctx1]|] eqn:Hp; [|discriminate].
      intros [= <- <- <-]. eapply promote64_config. exact Hp.
    + intros [= <- <- <-]. reflexivity.
  - unfold F64.trialExitedEarly, F64.promoteEntry.
    destruct (F64.promote _ ctx _ id msg _) as [[[ops1 s1] ctx1]|] eqn:Hp; [|discriminate].
    intros [= <- <- <-]. apply promote64_config in Hp. exact Hp.
Qed.

Lemma run64_sorted ctx (s : F64.asyncHalvingSearch) evs ops s' ctx' :
  rungsSorted64 (F64.rungs s) -> Forall (ranksNoNaN (F64.config s)) evs ->
  F64.run ctx s evs = Some (ops, s', ctx') ->
  rungsSorted64 (F64.rungs s') /\ F64.config s' = F64.config s.
Proof.
  revert ctx s ops s' ctx'. induction evs as [|ev evs IH]; intros ctx s ops s' ctx' Hs Hevs;
    simpl.
  - intros [= <- <- <-]. split; [exact Hs | reflexivity].
  - apply Forall_cons in Hevs as [Hev Hevs].
    destruct (F64.handle ctx s ev) as [[[r s1] ctx1]|] eqn:Hh; [|discriminate].
    destruct (F64.run ctx1 s1 evs) as [[[ops2 s2] ctx2]|] eqn:Hr; [|discriminate].
    intros [= <- <- <-].
    pose proof (handle64_config ctx s ev r s1 ctx1 Hh) as Hc.
    destruct (IH ctx1 s1 ops2 s2 ctx2) as [H1 H2].
    + eapply handle64_sorted; eassumption.
    + rewrite Hc. exact Hevs.
    + exact Hr.
    + split; [exact H1 | congruence].
Qed.

Lemma experiment64_sorted (cfg : F64.AsyncHalvingConfig) (evs : list F64.Event) ops s ctx :
  Forall (ranksNoNaN cfg) evs ->
  F64.experiment cfg evs = Some (ops, s, ctx) ->
  rungsSorted64 (F64.rungs s) /\ F64.config s = cfg.
Proof.
  intros Hevs. unfold F64.experiment, F64.newAsyncHalvingSearch.
  destruct (F64.NumRungs cfg <? 0); [discriminate|].
  set (s0 := F64.mkSearch cfg _ _ _ _ _).
  assert (Hs0 : rungsSorted64 (F64.rungs s0)).
  { subst s0. simpl. unfold rungsSorted64. apply Forall_forall. intros r Hr.
    apply list_elem_of_fmap in Hr as (k & -> & _). simpl.
    intros i j a b _ Ha. rewrite lookup_nil in Ha. discriminate. }
  unfold F64.initialOperations.
  destruct (F64.createTrials _ _ s0) as [[[ops1 s1] ctx1]|] eqn:Hc; [|discriminate].
  destruct (F64.run ctx1 s1 evs) as [[[ops2 s2] ctx2]|] eqn:Hr; [|discriminate].
  intros [= <- <- <-].
  pose proof (createTrials64_config _ _ _ _ _ _ Hc) as Hc1.
  pose proof (createTrials64_sorted _ _ _ _ _ _ Hs0 Hc) as Hs1.
  destruct (run64_sorted ctx1 s1 evs ops2 s2 ctx2 Hs1) as [H1 H2].
  - rewrite Hc1. exact Hevs.
  - exact Hr.
  - split; [exact H1 | rewrite H2, Hc1; reflexivity].
Qed.

(** ** The rung, and the claims that depend on the numbers *)

(** C1, as the code has it.  [promotionsAsync] inserts the new result at
    the index [i] that [sort.Search] returns for the closure
    [metrics[i].metric > metric]: on a sorted rung every entry from [i] on
    is larger than the new metric and, when the new metric is a number,
    every entry before [i] is at most the new metric (so the new entry
    goes after equal ones); a NaN goes last, whatever the rung.  The entry
    is inserted with [promoted = (i < new_n_promote)] and
    [closed = false], where the counts are
    [int(float64(len) / divisor)] and [int(float64(len+1) / divisor)]
    as float64 arithmetic gives them.  The call returns [[trial_id]] if
    [i < new_n_promote]; else nothing if the two counts are equal; else it
    reads the entry at slot [old_n_promote], which is a runtime panic when
    that is not an index of the rung, returns nothing if the entry is
    already promoted, and otherwise sets its [promoted] flag and returns
    its trial.  At most one trial is returned. *)
Theorem promotionsAsync_float_spec (r : F64.rung) (id : RequestID) (m d : F64.float64) :
  let n := length (F64.metrics r) in
  let old_n_promote := F64.numPromoteOf n d in
  let new_n_promote := F64.numPromoteOf (n + 1) d in
  exists i : nat,
    (i <= n)%nat /\
    (sortedByMetric64 (F64.metrics r) ->
       (forall j t, (i <= j)%nat -> F64.metrics r !! j = Some t ->
          F64.float64_gt (F64.metric t) m = true) /\
       (F64.math_IsNaN m = false ->
        forall j t, (j < i)%nat -> F64.metrics r !! j = Some t ->
          F64.float64_le (F64.metric t) m = true)) /\
    (F64.math_IsNaN m = true -> i = n) /\
    let inserted :=
      take i (F64.metrics r) ++
      F64.mkTrialMetric id m (Z.of_nat i <? new_n_promote) false :: drop i (F64.metrics r) in
    let result (promos : list RequestID) (ms : list F64.trialMetric) :=
      Some (promos, F64.mkRung (F64.stepsNeeded r) (F64.outstandingTrials r) ms) in
    F64.promotionsAsync r id m d =
      if Z.of_nat i <? new_n_promote then result [id] inserted
      else if new_n_promote =? old_n_promote then result [] inserted
      else if (old_n_promote <? 0) || (Z.of_nat n <? old_n_promote) then None
      else
        match inserted !! Z.to_nat old_n_promote with
        | Some t =>
            if F64.promoted t then result [] inserted
            else result [F64.requestID t]
                   (<[Z.to_nat old_n_promote :=
                        F64.mkTrialMetric (F64.requestID t) (F64.metric t) true (F64.closed t)]>
                      inserted)
        | None => None
        end.
Proof.
  cbv zeta.
  exists (sort_Search (length (F64.metrics r)) (F64.worseThan (F64.metrics r) m)).
  pose proof (search_loop_range (F64.worseThan (F64.metrics r) m) (length (F64.metrics r))
                0 (length (F64.metrics r)) ltac:(lia)) as [_ Hin].
  fold (sort_Search (length (F64.metrics r)) (F64.worseThan (F64.metrics r) m)) in Hin.
  split; [exact Hin|]. split; [|split].
  - intros Hs. exact (insertIndex64_spec (F64.metrics r) m Hs).
  - intros Hnan. unfold sort_Search. apply search_loop_never; [|lia|lia].
    intros k. unfold F64.worseThan.
    destruct (F64.metrics r !! k); [|reflexivity].
    apply float64_gt_NaN. right. exact Hnan.
  - unfold F64.promotionsAsync, F64.metricAt, F64.set_metrics, F64.set_promoted. cbv zeta.
    set (i := sort_Search (length (F64.metrics r)) (F64.worseThan (F64.metrics r) m)) in *.
    set (new := F64.numPromoteOf (length (F64.metrics r) + 1) d).
    set (old := F64.numPromoteOf (length (F64.metrics r)) d).
    destruct (Z.of_nat i <? new) eqn:Hnow; [reflexivity|].
    destruct (new =? old); [reflexivity|]. cbn [negb].
    fold (F64.insertAt (F64.metrics r) i (F64.mkTrialMetric id m false false)).
    destruct (Z.ltb_spec old 0) as [Hneg | Hpos]; [reflexivity|]. cbn [orb].
    destruct (Z.ltb_spec (Z.of_nat (length (F64.metrics r))) old) as [Hbig | Hfit].
    + rewrite lookup_ge_None_2; [reflexivity|]. rewrite insertAt64_length. lia.
    + destruct (F64.insertAt (F64.metrics r) i _ !! Z.to_nat old) as [t|]; [|reflexivity].
      destruct (F64.promoted t); reflexivity.
Qed.

Lemma promotionsAsync_float_spec_witness :
  sortedByMetric64 (F64.metrics (countingRung 3 1)) /\
  F64.math_IsNaN (F64.float64_of_int 2) = false /\
  exists i : nat,
    (i <= 3)%nat /\
    (forall j t, (i <= j)%nat -> F64.metrics (countingRung 3 1) !! j = Some t ->
       F64.float64_gt (F64.metric t) (F64.float64_of_int 2) = true) /\
    (forall j t, (j < i)%nat -> F64.metrics (countingRung 3 1) !! j = Some t ->
       F64.float64_le (F64.metric t) (F64.float64_of_int 2) = true).
Proof.
  assert (Hs : sortedByMetric64 (F64.metrics (countingRung 3 1)))
    by (apply sortedByMetric64b_sound; vm_compute; reflexivity).
  assert (Hm : F64.math_IsNaN (F64.float64_of_int 2) = false) by reflexivity.
  split; [exact Hs|]. split; [exact Hm|].
  pose proof (promotionsAsync_float_spec (countingRung 3 1) 3%nat (F64.float64_of_int 2)
                (F64.float64_of_int 2)) as H.
  cbv zeta in H. destruct H as (i & Hi & Hsorted & _ & _).
  destruct (Hsorted Hs) as [Hhi Hlo].
  exists i. split; [exact Hi|]. split; [exact Hhi | exact (Hlo Hm)].
Defined.

(** C1 fails as stated: take the divisor 2.1 (the float64, which is
    slightly above 21/10) and twenty results in the rung, nine of them
    promoted.  [floor(20/divisor)] and [floor(21/divisor)] are both 9, so
    by the claim the window does not grow and a worst result promotes
    nobody; but the float64 quotient of 21 by the divisor is rounded to
    exactly 10, [new_n_promote] is 10, and the code promotes the trial at
    slot 9. *)
Lemma promotion_count_rounds_up :
  Qfloor (20 / valueOf twoPointOne) = 9 /\
  Qfloor (21 / valueOf twoPointOne) = 9 /\
  F64.numPromoteOf 20 twoPointOne = 9 /\
  F64.numPromoteOf 21 twoPointOne = 10 /\
  exists r' t,
    F64.promotionsAsync (countingRung 20 9) 20%nat (F64.float64_of_int 21) twoPointOne =
      Some ([9%nat], r') /\
    F64.metrics (countingRung 20 9) !! 9%nat = Some t /\ F64.promoted t = false /\
    F64.metrics r' !! 9%nat =
      Some (F64.mkTrialMetric (F64.requestID t) (F64.metric t) true (F64.closed t)).
Proof.
  split; [vm_compute; reflexivity|]. split; [vm_compute; reflexivity|].
  split; [vm_compute; reflexivity|]. split; [vm_compute; reflexivity|].
  eexists _, _. split; [vm_compute; reflexivity|].
  split; [vm_compute; reflexivity|]. split; reflexivity.
Qed.

(** C4, as the code has it.  As long as no validation reports a NaN,
    after every public call that returns every rung's metrics sequence is
    non-decreasing in [metric]; and the next number to arrive in a rung is
    placed after all the entries whose metric is at most its own, so after
    the equal ones, and before the larger ones, the order of the entries
    already there being unchanged. *)
Theorem rungs_sorted_without_NaN (cfg : F64.AsyncHalvingConfig) (evs : list F64.Event) :
  Forall (ranksNoNaN cfg) evs ->
  forall ops s ctx,
    F64.experiment cfg evs = Some (ops, s, ctx) ->
    forall r, r ∈ F64.rungs s ->
      sortedByMetric64 (F64.metrics r) /\
      forall (id : RequestID) (m d : F64.float64) promos r',
        F64.math_IsNaN m = false ->
        F64.promotionsAsync r id m d = Some (promos, r') ->
        exists i : nat,
          keysOf64 (F64.metrics r') =
            take i (keysOf64 (F64.metrics r)) ++ (id, m) :: drop i (keysOf64 (F64.metrics r)) /\
          (forall t, t ∈ take i (F64.metrics r) -> F64.float64_le (F64.metric t) m = true) /\
          (forall t, t ∈ drop i (F64.metrics r) -> F64.float64_gt (F64.metric t) m = true) /\
          sortedByMetric64 (F64.metrics r').
Proof.
  intros Hevs ops s ctx He r Hr.
  destruct (experiment64_sorted cfg evs ops s ctx Hevs He) as [Hs _].
  unfold rungsSorted64 in Hs. rewrite Forall_forall in Hs. specialize (Hs r Hr).
  split; [exact Hs|]. intros id m d promos r' Hm Hp.
  destruct (promotionsAsync64_keys r id m d promos r' Hp) as (Hk & _). cbv zeta in Hk.
  destruct (insertIndex64_spec (F64.metrics r) m Hs) as (Hhi & Hlo). specialize (Hlo Hm).
  exists (sort_Search (length (F64.metrics r)) (F64.worseThan (F64.metrics r) m)).
  split; [exact Hk|]. split; [|split].
  - intros t Ht. apply list_elem_of_lookup in Ht as [j Hj].
    pose proof (lookup_lt_Some _ _ _ Hj) as Hlt. rewrite length_take in Hlt.
    rewrite lookup_take_lt in Hj by lia. apply (Hlo j); [lia | exact Hj].
  - intros t Ht. apply list_elem_of_lookup in Ht as [j Hj].
    rewrite lookup_drop in Hj. eapply Hhi; [|exact Hj]. lia.
  - eapply promotionsAsync64_sorted; eassumption.
Qed.

Lemma rungs_sorted_without_NaN_witness :
  Forall (ranksNoNaN twoRungs64) infSecond /\
  exists ops s ctx,
    F64.experiment twoRungs64 infSecond = Some (ops, s, ctx) /\
    forall r, r ∈ F64.rungs s -> sortedByMetric64 (F64.metrics r).
Proof.
  assert (Hevs : Forall (ranksNoNaN twoRungs64) infSecond)
    by (repeat constructor; vm_compute; reflexivity).
  split; [exact Hevs|].
  destruct (F64.experiment twoRungs64 infSecond) as [[[ops s] ctx]|] eqn:He;
    [|vm_compute in He; discriminate].
  exists ops, s, ctx. split; [reflexivity|]. intros r Hr.
  apply (rungs_sorted_without_NaN twoRungs64 infSecond Hevs ops s ctx He r Hr).
Defined.

(** C4 fails as stated: the code has no test for NaN, every comparison
    with a NaN is false, and the binary search is led astray.  With two
    rungs and divisor 2, the results 2, NaN and 1 of the first three
    trials leave rung 0 as 2, NaN, 1: the best result is ranked last. *)
Lemma NaN_breaks_sorting :
  exists ops s ctx r0,
    F64.experiment twoRungs64 nanSecond = Some (ops, s, ctx) /\
    F64.rungs s !! 0%nat = Some r0 /\
    F64.metric <$> F64.metrics r0 =
      [F64.float64_of_int 2; F64.NaN; F64.float64_of_int 1] /\
    F64.float64_gt (F64.float64_of_int 2) (F64.float64_of_int 1) = true /\
    ~ sortedByMetric64 (F64.metrics r0).
Proof.
  eexists _, _, _, _. split; [vm_compute; reflexivity|].
  split; [reflexivity|]. split; [vm_compute; reflexivity|].
  split; [vm_compute; reflexivity|].
  intros Hs. specialize (Hs 0%nat 2%nat _ _ ltac:(lia) eq_refl eq_refl).
  vm_compute in Hs. discriminate.
Qed.

(** ** Where the rationals and the float64 numbers part *)

(** The default ladder is the same on float64: divisor 4 is exact. *)
Lemma float64_ladder_default :
  (fun k => F64.stepsNeeded (F64.rungAt fiveRungs64 k)) <$> [0; 1; 2; 3; 4] =
  [1; 1; 1; 4; 16].
Proof. vm_compute. reflexivity. Qed.

(** With the divisor 2.2 the quotient [10648 / 2.2] is rounded to exactly
    4840, where the floor of the quotient by the float64 [2.2] (which is
    slightly above 22/10) is 4839. *)
Lemma float64_ladder_rounds_up :
  F64.stepsNeeded (F64.rungAt fourRungs64 2) = 4840 /\
  Qfloor (10648 / valueOf twoPointTwo) = 4839.
Proof. split; vm_compute; reflexivity. Qed.

(** [4^32 = 2^64] does not fit an [int]: the conversion gives [-2^63] (on
    amd64), and [initialOperations] creates a single trial where exact
    arithmetic would create [max_trials = 5]. *)
Lemma float64_concurrency_overflows :
  F64.int_of_float64 (F64.math_Pow (F64.float64_of_int 4) 32) = - 2 ^ 63 /\
  F64.initialConcurrency deepLadder64 = 1.
Proof. split; vm_compute; reflexivity. Qed.

(** With one trial of three completed, [progress] is the float64 nearest
    to 1/3, which is below 1/3. *)
Lemma float64_progress_rounds_down :
  exists p, F64.progress oneThird64 0 = Some p /\ (valueOf p < 1 # 3)%Q.
Proof. eexists. split; [vm_compute; reflexivity | vm_compute; reflexivity]. Qed.

